(** * Inspector-Automation: a shallow embedding of [inspector.py]

    The module [inspector.py] drives a remote assessment service: it
    resolves rule packages, subscribes to run events, pages through the
    findings of assessment runs, enriches the findings whose identifier is a
    CVE identifier with a public feed, and dumps the records as JSON.

    Python values are embedded as the inductive type [pyval], dictionaries
    as association lists in insertion order, exceptions as the type [exn],
    and the remote services as an explicit [world] that is threaded through
    every call and that logs the calls it receives.  Strings are Rocq
    strings, that is sequences of characters with code points below 256. *)

From Stdlib Require Import String Ascii List ZArith Lia Bool Arith.
From Stdlib Require Import Decimal DecimalString DecimalZ.
Import ListNotations.

#[local] Set Warnings "-register-all".

Local Open Scope list_scope.
Local Open Scope string_scope.

(* ================================================================== *)
(** ** Regular expressions, as far as [cvepattern] uses them           *)
(* ================================================================== *)

Module Re.

(** The syntax of the patterns.  [Digit] is [\d], which on the characters
    of the embedding is a digit from 0 to 9; [Range lo hi] is the class
    [[lo-hi]], [Repeat n r] is [r{n}], [AtLeast n r] is [r{n,}], [Group r]
    is a parenthesised group, [Bol] is [^] and [Eol] is [$]. *)
Inductive regex : Type :=
| Empty
| Lit (c : ascii)
| Digit
| Range (lo hi : ascii)
| Cat (r1 r2 : regex)
| Alt (r1 r2 : regex)
| Repeat (n : nat) (r : regex)
| AtLeast (n : nat) (r : regex)
| Group (r : regex)
| Bol
| Eol.

(** A literal run of characters such as [CVE-]. *)
Fixpoint lits (s : string) : regex :=
  match s with
  | EmptyString => Empty
  | String c s' => Cat (Lit c) (lits s')
  end.

(** A cursor is a position in the subject: the number of characters already
    consumed and the characters still ahead. *)
Definition cursor : Type := (nat * string)%type.

Definition is_digit (c : ascii) : bool :=
  (("0" <=? c) && (c <=? "9"))%char.

Definition in_range (lo hi c : ascii) : bool :=
  ((lo <=? c) && (c <=? hi))%char.

(** One character of the subject, when it satisfies [p]. *)
Definition eat (p : ascii -> bool) (c : cursor) : list cursor :=
  match snd c with
  | String a rest => if p a then [(S (fst c), rest)] else []
  | EmptyString => []
  end.

(** [n] successive matches of [step]. *)
Fixpoint power (step : cursor -> list cursor) (n : nat) (c : cursor)
  : list cursor :=
  match n with
  | O => [c]
  | S n' => flat_map (power step n') (step c)
  end.

Definition advances (c c' : cursor) : bool := (fst c <? fst c')%nat.

(** Zero or more matches of [step]; an iteration that consumes nothing is
    dropped, as the engine does, so [fuel] bounds the characters ahead. *)
Fixpoint iter_star (step : cursor -> list cursor) (fuel : nat) (c : cursor)
  : list cursor :=
  c :: match fuel with
       | O => []
       | S fuel' =>
           flat_map (iter_star step fuel') (filter (advances c) (step c))
       end.

(** [$] without [re.MULTILINE]: the end of the subject, or just before a
    line feed that ends the subject. *)
Definition at_eol (s : string) : bool :=
  match s with
  | EmptyString => true
  | String c EmptyString => (c =? "010")%char
  | _ => false
  end.

(** All the cursors at which a match of [r] that starts at [c] can end. *)
Fixpoint ends (r : regex) (c : cursor) : list cursor :=
  match r with
  | Empty => [c]
  | Lit a => eat (Ascii.eqb a) c
  | Digit => eat is_digit c
  | Range lo hi => eat (in_range lo hi) c
  | Cat r1 r2 => flat_map (ends r2) (ends r1 c)
  | Alt r1 r2 => (ends r1 c ++ ends r2 c)%list
  | Repeat n r1 => power (ends r1) n c
  | AtLeast n r1 =>
      flat_map (fun c' => iter_star (ends r1) (String.length (snd c')) c')
               (power (ends r1) n c)
  | Group r1 => ends r1 c
  | Bol => if (fst c =? 0)%nat then [c] else []
  | Eol => if at_eol (snd c) then [c] else []
  end.

(** [re.match(r, s)] is not [None]: some match of [r] starts at the
    beginning of [s]. *)
Definition re_match (r : regex) (s : string) : bool :=
  match ends r (0, s) with
  | [] => false
  | _ :: _ => true
  end.

End Re.

Import Re.

(** The group [(1999|2\d{3})] *)
Definition year_pattern : regex :=
  Group (Alt (lits "1999") (Cat (Lit "2") (Repeat 3 Digit))).

(** The group [(0\d{2}[1-9]|[1-9]\d{3,})] *)
Definition sequence_pattern : regex :=
  Group (Alt (Cat (Lit "0") (Cat (Repeat 2 Digit) (Range "1" "9")))
             (Cat (Range "1" "9") (AtLeast 3 Digit))).

(** [re.compile('^(CVE-(1999|2\d{3})-(0\d{2}[1-9]|[1-9]\d{3,}))$')] *)
Definition cvepattern : regex :=
  Cat Bol
   (Cat (Group (Cat (lits "CVE-")
                (Cat year_pattern (Cat (Lit "-") sequence_pattern))))
        Eol).

(** [re.match(cvepattern, finding_id)] as a truth value. *)
Definition is_cve (finding_id : string) : bool := re_match cvepattern finding_id.


(* ================================================================== *)
(** ** Python values                                                   *)
(* ================================================================== *)

(** The values the module handles: [None], booleans, integers, strings,
    lists and dictionaries with string keys.  A dictionary keeps its
    entries in insertion order.  Floats are outside the embedding. *)
Inductive pyval : Type :=
| PNone
| PBool (b : bool)
| PInt (z : Z)
| PStr (s : string)
| PList (l : list pyval)
| PDict (d : list (string * pyval)).

Definition dict : Type := list (string * pyval).

(** The entry of key [k], if any. *)
Fixpoint dict_lookup (d : dict) (k : string) : option pyval :=
  match d with
  | [] => None
  | (k', v) :: d' => if String.eqb k k' then Some v else dict_lookup d' k
  end.

(** [d.get(k)] *)
Definition dict_get (d : dict) (k : string) : pyval :=
  match dict_lookup d k with
  | Some v => v
  | None => PNone
  end.

(** [d[k] = v]: an existing key keeps its place, a new key goes last. *)
Fixpoint dict_set (d : dict) (k : string) (v : pyval) : dict :=
  match d with
  | [] => [(k, v)]
  | (k', v') :: d' =>
      if String.eqb k k' then (k', v) :: d' else (k', v') :: dict_set d' k v
  end.

Definition dict_keys (d : dict) : list string := map fst d.

(** [dict(pairs)] *)
Definition dict_of_pairs (pairs : list (string * pyval)) : dict :=
  fold_left (fun d kv => dict_set d (fst kv) (snd kv)) pairs [].

(** Python's truth value of an object. *)
Definition truthy (v : pyval) : bool :=
  match v with
  | PNone => false
  | PBool b => b
  | PInt z => negb (z =? 0)%Z
  | PStr s => negb (String.eqb s EmptyString)
  | PList l => match l with [] => false | _ :: _ => true end
  | PDict d => match d with [] => false | _ :: _ => true end
  end.

(** The exceptions that can reach a caller of the module. *)
Inductive exn : Type :=
| KeyError (key : string)
| TypeError
| AttributeError
| ValueError
| ConnectionError
| IOError
| ClientError (message : string).

(** What a call comes to: a value, an exception, or no answer: the bound
    on the loop iterations was reached, or the answer lies outside the
    embedding. *)
Inductive result (A : Type) : Type :=
| Ok (a : A)
| Raise (e : exn)
| OutOfFuel.

Arguments Ok {A} a.
Arguments Raise {A} e.
Arguments OutOfFuel {A}.

(* ================================================================== *)
(** ** The [json] library: [json.dump(obj, fp, indent=4)] and [json.loads] *)
(* ================================================================== *)

(** How deep the lists and dictionaries of a value nest. *)
Fixpoint depth (o : pyval) : nat :=
  match o with
  | PList l => S (list_max (map depth l))
  | PDict d => S (list_max (map (fun kv => depth (snd kv)) d))
  | _ => 0
  end.

(** The encoder follows [json.encoder] of Python 3 with [indent=4]: items
    are separated by a comma and a line feed, a key from its value by a
    colon and a space, and strings are written in ASCII.  [json.dump]
    writes the text chunk by chunk, and an integer that cannot be
    converted stops it in the middle.  The decoder follows [json.decoder]
    and [json.scanner]; it tells the texts whose value the embedding has
    from those it refuses and from those whose value the embedding does
    not have. *)

Module Json.

Definition dquote : ascii := "034"%char.
Definition backslash : ascii := "092"%char.
Definition LF : ascii := "010"%char.

(** *** The encoder *)

Definition hex_digit (n : nat) : ascii :=
  nth n ["0"; "1"; "2"; "3"; "4"; "5"; "6"; "7"; "8"; "9";
         "a"; "b"; "c"; "d"; "e"; "f"]%char "0"%char.

(** The replacement of one character in [encode_basestring_ascii]:
    the two-character escapes of [ESCAPE_DCT], [\u00xx] for the other
    characters outside the range from space to tilde. *)
Definition escape_char (c : ascii) : string :=
  let n := nat_of_ascii c in
  if (n =? 34)%nat then String backslash (String dquote EmptyString)
  else if (n =? 92)%nat then String backslash (String backslash EmptyString)
  else if (n =? 8)%nat then String backslash "b"
  else if (n =? 12)%nat then String backslash "f"
  else if (n =? 10)%nat then String backslash "n"
  else if (n =? 13)%nat then String backslash "r"
  else if (n =? 9)%nat then String backslash "t"
  else if ((n <? 32) || (126 <? n))%nat then
    String backslash
      (String "u" (String "0" (String "0"
        (String (hex_digit (n / 16)) (String (hex_digit (n mod 16)) EmptyString)))))
  else String c EmptyString.

Fixpoint escape (s : string) : string :=
  match s with
  | EmptyString => EmptyString
  | String c s' => escape_char c ++ escape s'
  end.

Definition encode_basestring_ascii (s : string) : string :=
  String dquote (escape s ++ String dquote EmptyString).

(** [int.__repr__] *)
Definition int_repr (z : Z) : string :=
  DecimalString.NilZero.string_of_int (Z.to_int z).

Fixpoint spaces (n : nat) : string :=
  match n with
  | O => EmptyString
  | S n' => String " " (spaces n')
  end.

(** A line feed and the indentation of nesting level [level], with
    [indent=4]. *)
Definition newline_indent (level : nat) : string :=
  String LF (spaces (4 * level)).

Fixpoint join (sep : string) (chunks : list string) : string :=
  match chunks with
  | [] => EmptyString
  | [x] => x
  | x :: rest => x ++ sep ++ join sep rest
  end.

(** The chunks of [_iterencode] at nesting level [level] joined, when
    every integer of [o] can be converted. *)
Fixpoint encode (level : nat) (o : pyval) {struct o} : string :=
  match o with
  | PNone => "null"
  | PBool true => "true"
  | PBool false => "false"
  | PInt z => int_repr z
  | PStr s => encode_basestring_ascii s
  | PList [] => "[]"
  | PList lst =>
      "[" ++ newline_indent (S level)
          ++ join ("," ++ newline_indent (S level))
                  (map (encode (S level)) lst)
          ++ newline_indent level ++ "]"
  | PDict [] => "{}"
  | PDict dct =>
      "{" ++ newline_indent (S level)
          ++ join ("," ++ newline_indent (S level))
                  (map (fun kv => encode_basestring_ascii (fst kv) ++ ": "
                                    ++ encode (S level) (snd kv)) dct)
          ++ newline_indent level ++ "}"
  end.

(** *** What the encoder yields *)

(** The conversion between an integer and its decimal text raises a
    [ValueError] when the text has more than 4300 digits
    ([sys.int_info.default_max_str_digits]), that is, from 10^4300 on in
    magnitude. *)
Definition int_limit : Z := Eval vm_compute in (10 ^ 4300)%Z.

Definition within_int_limit (z : Z) : bool := (Z.abs z <? int_limit)%Z.

(** [_intstr] *)
Definition intstr (z : Z) : result string :=
  if within_int_limit z then Ok (int_repr z) else Raise ValueError.

(** Lists and dictionaries nested deeper than this are left without an
    answer: there the recursion limit of the interpreter, which counts the
    frames of the caller too, decides between a result and a
    [RecursionError]. *)
Definition nesting_bound : nat := 100.

(** The chunks a generator of the encoder has yielded, one after the
    other, and how the generator ended. *)
Definition yielded : Type := (string * result unit)%type.

Definition done (chunk : string) : yielded := (chunk, Ok tt).

(** One generator after another: nothing of the second when the first
    raised. *)
Definition and_then (a b : yielded) : yielded :=
  match snd a with
  | Ok _ => (fst a ++ fst b, snd b)
  | _ => a
  end.

(** An item of a list after [buf], the opening bracket or the separator:
    [yield buf] and then the chunks of the item when it is a list or a
    dictionary, and the single chunk [yield buf + text] otherwise, which
    is not yielded when the conversion to [text] raises. *)
Definition after_buf (buf : string) (value : pyval) (chunks : yielded)
  : yielded :=
  match value with
  | PList _ | PDict _ => (buf ++ fst chunks, snd chunks)
  | _ => match snd chunks with
         | Ok _ => (buf ++ fst chunks, snd chunks)
         | _ => (EmptyString, snd chunks)
         end
  end.

(** The loop of [_iterencode_list] over the items of a list at nesting
    level [level], and the closing bracket. *)
Fixpoint iterencode_list (each : pyval -> yielded) (level : nat)
  (buf : string) (lst : list pyval) : yielded :=
  match lst with
  | [] => done (newline_indent level ++ "]")
  | value :: lst' =>
      and_then (after_buf buf value (each value))
               (iterencode_list each level ("," ++ newline_indent (S level)) lst')
  end.

(** The loop of [_iterencode_dict]: the separator but before the first
    key, the key, the colon, the chunks of the value; and the closing
    brace. *)
Fixpoint iterencode_dict (each : pyval -> yielded) (level : nat)
  (first : bool) (dct : dict) : yielded :=
  match dct with
  | [] => done (newline_indent level ++ "}")
  | kv :: dct' =>
      and_then (done ((if first then EmptyString
                       else "," ++ newline_indent (S level))
                      ++ encode_basestring_ascii (fst kv) ++ ": "))
        (and_then (each (snd kv))
                  (iterencode_dict each level false dct'))
  end.

(** [_iterencode(o, level)] *)
Fixpoint iterencode_at (level : nat) (o : pyval) {struct o} : yielded :=
  match o with
  | PNone => done "null"
  | PBool true => done "true"
  | PBool false => done "false"
  | PInt z =>
      match intstr z with
      | Ok repr => done repr
      | Raise e => (EmptyString, Raise e)
      | OutOfFuel => (EmptyString, OutOfFuel)
      end
  | PStr s => done (encode_basestring_ascii s)
  | PList [] => done "[]"
  | PList lst =>
      iterencode_list (iterencode_at (S level)) level
                      ("[" ++ newline_indent (S level)) lst
  | PDict [] => done "{}"
  | PDict dct =>
      and_then (done ("{" ++ newline_indent (S level)))
               (iterencode_dict (iterencode_at (S level)) level true dct)
  end.

(** [JSONEncoder(indent=4).iterencode(o)] *)
Definition iterencode (o : pyval) : yielded :=
  if (depth o <=? nesting_bound)%nat then iterencode_at 0 o
  else (EmptyString, OutOfFuel).

(** *** The decoder *)

(** What the scanner makes of the head of a text: a value and the text
    after it, a refusal (the [ValueError] of the decoder), or no answer.
    The value is [None] when it is one that the embedding does not have,
    a float or a string with a character beyond code point 255. *)
Inductive scanned (A : Type) : Type :=
| Scanned (value : option A) (rest : string)
| Refused
| NoAnswer.

Arguments Scanned {A} value rest.
Arguments Refused {A}.
Arguments NoAnswer {A}.

(** [WHITESPACE = [ \t\n\r]*] *)
Definition is_ws (c : ascii) : bool :=
  let n := nat_of_ascii c in
  ((n =? 32) || (n =? 9) || (n =? 10) || (n =? 13))%nat.

Fixpoint skip_ws (s : string) : string :=
  match s with
  | String c s' => if is_ws c then skip_ws s' else s
  | EmptyString => s
  end.

Definition hex_value (c : ascii) : option nat :=
  let n := nat_of_ascii c in
  if ((48 <=? n) && (n <=? 57))%nat then Some (n - 48)
  else if ((97 <=? n) && (n <=? 102))%nat then Some (n - 87)
  else if ((65 <=? n) && (n <=? 70))%nat then Some (n - 55)
  else None.

(** The code point of [\uXXXX]. *)
Definition hex4 (h1 h2 h3 h4 : ascii) : option nat :=
  match hex_value h1, hex_value h2, hex_value h3, hex_value h4 with
  | Some a, Some b, Some c, Some d => Some (((a * 16 + b) * 16 + c) * 16 + d)
  | _, _, _, _ => None
  end.

(** [BACKSLASH]: the character a two-character escape stands for. *)
Definition unescape (e : ascii) : option ascii :=
  let n := nat_of_ascii e in
  if (n =? 34)%nat then Some dquote
  else if (n =? 92)%nat then Some backslash
  else if (n =? 47)%nat then Some "/"%char
  else if (n =? 98)%nat then Some "008"%char
  else if (n =? 102)%nat then Some "012"%char
  else if (n =? 110)%nat then Some "010"%char
  else if (n =? 114)%nat then Some "013"%char
  else if (n =? 116)%nat then Some "009"%char
  else None.

(** One more character before the content scanned so far; [None] is a
    character beyond code point 255. *)
Definition prepend (c : option ascii) (r : scanned string) : scanned string :=
  match r with
  | Scanned content rest =>
      Scanned (match c, content with
               | Some c, Some content => Some (String c content)
               | _, _ => None
               end) rest
  | Refused => Refused
  | NoAnswer => NoAnswer
  end.

(** [scanstring], from the character after the opening quote: the content
    of the string literal and the text after its closing quote.  A raw
    control character is refused ([strict=True]).  The two escapes of a
    surrogate pair are read one after the other; what they stand for is
    beyond code point 255 either way. *)
Fixpoint scanstring (s : string) : scanned string :=
  match s with
  | EmptyString => Refused
  | String c s1 =>
      if (c =? dquote)%char then Scanned (Some EmptyString) s1
      else if (c =? backslash)%char then
        match s1 with
        | EmptyString => Refused
        | String e s2 =>
            if (e =? "u")%char then
              match s2 with
              | String h1 (String h2 (String h3 (String h4 s3))) =>
                  match hex4 h1 h2 h3 h4 with
                  | Some n =>
                      if (n <? 256)%nat
                      then prepend (Some (ascii_of_nat n)) (scanstring s3)
                      else prepend None (scanstring s3)
                  | None => Refused
                  end
              | _ => Refused
              end
            else
              match unescape e with
              | Some ch => prepend (Some ch) (scanstring s2)
              | None => Refused
              end
        end
      else if (nat_of_ascii c <? 32)%nat then Refused
      else prepend (Some c) (scanstring s1)
  end.

(** The longest run of digits at the head of [s], and what follows it. *)
Fixpoint digit_run (s : string) : string * string :=
  match s with
  | String c s' =>
      if is_digit c
      then let (ds, rest) := digit_run s' in (String c ds, rest)
      else (EmptyString, s)
  | EmptyString => (EmptyString, s)
  end.

Definition starts_with_digit (s : string) : bool :=
  match s with
  | String c _ => is_digit c
  | EmptyString => false
  end.

(** The group [(\.\d+)?] of [NUMBER_RE]: the text after the fraction, when
    there is one. *)
Definition fraction (s : string) : option string :=
  match s with
  | String c s' =>
      if ((c =? ".")%char && starts_with_digit s')%bool
      then Some (snd (digit_run s'))
      else None
  | EmptyString => None
  end.

(** The group [([eE][-+]?\d+)?] of [NUMBER_RE]: the text after the
    exponent, when there is one. *)
Definition exponent (s : string) : option string :=
  match s with
  | String c s' =>
      if ((c =? "e") || (c =? "E"))%char then
        let digits :=
          match s' with
          | String g s'' => if ((g =? "-") || (g =? "+"))%char then s'' else s'
          | EmptyString => s'
          end in
        if starts_with_digit digits then Some (snd (digit_run digits)) else None
      else None
  | EmptyString => None
  end.

(** The integer part of [NUMBER_RE]: an optional minus sign, then either
    a single 0 or a run of digits that does not start with 0. *)
Definition integer_part (s : string) : option (string * string) :=
  let unsigned (u : string) : option (string * string) :=
    match u with
    | String c t =>
        if (c =? "0")%char then Some (String c EmptyString, t)
        else if is_digit c
        then let (ds, rest) := digit_run t in Some (String c ds, rest)
        else None
    | EmptyString => None
    end in
  match s with
  | String c t =>
      if (c =? "-")%char
      then match unsigned t with
           | Some (lexeme, rest) => Some (String c lexeme, rest)
           | None => None
           end
      else unsigned s
  | EmptyString => None
  end.

(** [int(lexeme)], with its limit on the number of digits. *)
Definition parse_int (lexeme : string) : option pyval :=
  match NilZero.int_of_string lexeme with
  | Some d => if within_int_limit (Z.of_int d) then Some (PInt (Z.of_int d))
              else None
  | None => None
  end.

(** A number.  With a fraction or an exponent it is a float, which the
    embedding does not have. *)
Definition parse_number (s : string) : scanned pyval :=
  match integer_part s with
  | Some (lexeme, rest) =>
      match fraction rest with
      | Some rest1 =>
          match exponent rest1 with
          | Some rest2 => Scanned None rest2
          | None => Scanned None rest1
          end
      | None =>
          match exponent rest with
          | Some rest2 => Scanned None rest2
          | None =>
              match parse_int lexeme with
              | Some value => Scanned (Some value) rest
              | None => Refused
              end
          end
      end
  | None => Refused
  end.

(** [string[idx:idx + n] == word], and the text after it. *)
Fixpoint keyword (word s : string) : option string :=
  match word with
  | EmptyString => Some s
  | String w word' =>
      match s with
      | String c s' => if (c =? w)%char then keyword word' s' else None
      | EmptyString => None
      end
  end.

(** The constant [value] when [word] is at the head of [s]. *)
Definition constant (word : string) (value : option pyval) (s : string)
  : scanned pyval :=
  match keyword word s with
  | Some rest => Scanned value rest
  | None => Refused
  end.

(** [values.append(value)], as long as every value is one of the
    embedding. *)
Definition append_item {A : Type} (items : option (list A)) (item : option A)
  : option (list A) :=
  match items, item with
  | Some items, Some item => Some (items ++ [item])%list
  | _, _ => None
  end.

(** The loop of [JSONArray], at the first character of an item. *)
Fixpoint parse_items (scan : string -> scanned pyval)
  (fuel : nat) (s : string) (values : option (list pyval))
  : scanned pyval :=
  match fuel with
  | O => NoAnswer
  | S fuel' =>
      match scan s with
      | Scanned value s1 =>
          match skip_ws s1 with
          | String c s2 =>
              if (c =? "]")%char
              then Scanned (option_map PList (append_item values value)) s2
              else if (c =? ",")%char
              then parse_items scan fuel' (skip_ws s2) (append_item values value)
              else Refused
          | EmptyString => Refused
          end
      | Refused => Refused
      | NoAnswer => NoAnswer
      end
  end.

(** [JSONArray], from the character after the bracket. *)
Definition parse_array (scan : string -> scanned pyval)
  (s : string) : scanned pyval :=
  match skip_ws s with
  | String c s1 =>
      if (c =? "]")%char then Scanned (Some (PList [])) s1
      else parse_items scan (String.length s) (skip_ws s) (Some [])
  | EmptyString => Refused
  end.

(** The pair of a key and a value, when both are of the embedding. *)
Definition pair_of (key : option string) (value : option pyval)
  : option (string * pyval) :=
  match key, value with
  | Some key, Some value => Some (key, value)
  | _, _ => None
  end.

(** The loop of [JSONObject], at the opening quote of a key. *)
Fixpoint parse_members (scan : string -> scanned pyval)
  (fuel : nat) (s : string) (pairs : option (list (string * pyval)))
  : scanned pyval :=
  match fuel with
  | O => NoAnswer
  | S fuel' =>
      match s with
      | String q s1 =>
          if (q =? dquote)%char then
            match scanstring s1 with
            | Scanned key s2 =>
                match skip_ws s2 with
                | String colon s3 =>
                    if (colon =? ":")%char then
                      match scan (skip_ws s3) with
                      | Scanned value s4 =>
                          match skip_ws s4 with
                          | String c s5 =>
                              if (c =? "}")%char
                              then Scanned
                                     (option_map
                                        (fun pairs => PDict (dict_of_pairs pairs))
                                        (append_item pairs (pair_of key value)))
                                     s5
                              else if (c =? ",")%char
                              then parse_members scan fuel' (skip_ws s5)
                                     (append_item pairs (pair_of key value))
                              else Refused
                          | EmptyString => Refused
                          end
                      | Refused => Refused
                      | NoAnswer => NoAnswer
                      end
                    else Refused
                | EmptyString => Refused
                end
            | Refused => Refused
            | NoAnswer => NoAnswer
            end
          else Refused
      | EmptyString => Refused
      end
  end.

(** [JSONObject], from the character after the brace. *)
Definition parse_object (scan : string -> scanned pyval)
  (s : string) : scanned pyval :=
  match skip_ws s with
  | String c s1 =>
      if (c =? "}")%char then Scanned (Some (PDict [])) s1
      else parse_members scan (String.length s) (skip_ws s) (Some [])
  | EmptyString => Refused
  end.

(** [scan_once]; [fuel] bounds the nesting of arrays and objects. *)
Fixpoint scan_once (fuel : nat) (s : string) : scanned pyval :=
  match fuel with
  | O => NoAnswer
  | S fuel' =>
      match s with
      | EmptyString => Refused
      | String c s1 =>
          if (c =? dquote)%char then
            match scanstring s1 with
            | Scanned content rest => Scanned (option_map PStr content) rest
            | Refused => Refused
            | NoAnswer => NoAnswer
            end
          else if (c =? "{")%char then parse_object (scan_once fuel') s1
          else if (c =? "[")%char then parse_array (scan_once fuel') s1
          else if (c =? "n")%char then constant "ull" (Some PNone) s1
          else if (c =? "t")%char then constant "rue" (Some (PBool true)) s1
          else if (c =? "f")%char then constant "alse" (Some (PBool false)) s1
          else
            match integer_part s with
            | Some _ => parse_number s
            | None =>
                if (c =? "N")%char then constant "aN" None s1
                else if (c =? "I")%char then constant "nfinity" None s1
                else if (c =? "-")%char then constant "Infinity" None s1
                else Refused
            end
      end
  end.

(** [json.loads(s)]: one value between optional white space, and nothing
    after it; anything else is a [ValueError].  There is no answer when
    the text holds a value that the embedding does not have, or nests
    deeper than [nesting_bound]. *)
Definition loads (s : string) : result pyval :=
  match scan_once (S nesting_bound) (skip_ws s) with
  | Scanned value rest =>
      match skip_ws rest with
      | EmptyString =>
          match value with
          | Some obj => Ok obj
          | None => OutOfFuel
          end
      | String _ _ => Raise ValueError
      end
  | Refused => Raise ValueError
  | NoAnswer => OutOfFuel
  end.

End Json.

(* ================================================================== *)
(** ** The world outside the module                                    *)
(* ================================================================== *)

(** What [requests.get] hands back. *)
Record response : Type := mkResponse {
  status_code : Z;
  text : string
}.

(** The calls that leave the module, with their keyword arguments.  The
    [nextToken] of a [list_findings] call is [None] when the keyword is not
    passed at all. *)
Inductive call : Type :=
| list_findings_call (assessmentRunArns : pyval) (filter : dict)
    (nextToken : option pyval)
| describe_findings_call (findingArns : pyval) (locale : string)
| subscribe_to_event_call (resourceArn : pyval) (event : string)
    (topicArn : pyval)
| requests_get_call (url : string).

(** The remote services, the feed service and the file system.
    [list_findings_replies] are the answers of the successive
    [list_findings] calls, one page per call; the other services answer by
    their arguments.  [calls] logs the calls, the oldest first. *)
Record world : Type := mkWorld {
  list_findings_replies : list (result dict);
  describe_findings_reply : pyval -> string -> result dict;
  subscribe_to_event_reply : pyval -> string -> pyval -> result dict;
  requests_get_reply : string -> result response;
  open_reply : string -> result unit;
  files : string -> option string;
  calls : list call
}.

Definition log_call (c : call) (w : world) : world :=
  mkWorld (list_findings_replies w) (describe_findings_reply w)
          (subscribe_to_event_reply w) (requests_get_reply w)
          (open_reply w) (files w) (calls w ++ [c])%list.

Definition pop_list_findings_reply (w : world) : world :=
  mkWorld (tl (list_findings_replies w)) (describe_findings_reply w)
          (subscribe_to_event_reply w) (requests_get_reply w)
          (open_reply w) (files w) (calls w).

Definition write_file (path content : string) (w : world) : world :=
  mkWorld (list_findings_replies w) (describe_findings_reply w)
          (subscribe_to_event_reply w) (requests_get_reply w)
          (open_reply w)
          (fun p => if String.eqb p path then Some content else files w p)
          (calls w).

(** Computations that call the world and may raise. *)
Definition M (A : Type) : Type := world -> result A * world.

Definition ret {A : Type} (a : A) : M A := fun w => (Ok a, w).

Definition bind {A B : Type} (m : M A) (k : A -> M B) : M B :=
  fun w =>
    match m w with
    | (Ok a, w') => k a w'
    | (Raise e, w') => (Raise e, w')
    | (OutOfFuel, w') => (OutOfFuel, w')
    end.

Definition lift {A : Type} (r : result A) : M A := fun w => (r, w).

Declare Scope monad_scope.
Delimit Scope monad_scope with monad.
Notation "x <- m ;; k" := (bind m (fun x => k))
  (at level 61, m at next level, right associativity) : monad_scope.
Notation "m ;;; k" := (bind m (fun _ => k))
  (at level 61, right associativity) : monad_scope.
Local Open Scope monad_scope.

(** [self.inspector.list_findings(...)]: the next page of the service; a
    service with no page left refuses the call. *)
Definition list_findings (assessmentRunArns : pyval) (filter : dict)
  (nextToken : option pyval) : M dict :=
  fun w =>
    let w1 := log_call (list_findings_call assessmentRunArns filter nextToken) w in
    match list_findings_replies w1 with
    | [] => (Raise (ClientError "list_findings"), w1)
    | reply :: _ => (reply, pop_list_findings_reply w1)
    end.

(** [self.inspector.describe_findings(findingArns=..., locale=...)] *)
Definition describe_findings (findingArns : pyval) (locale : string) : M dict :=
  fun w =>
    (describe_findings_reply w findingArns locale,
     log_call (describe_findings_call findingArns locale) w).

(** [self.inspector.subscribe_to_event(resourceArn=..., event=..., topicArn=...)] *)
Definition inspector_subscribe_to_event (resourceArn : pyval) (event : string)
  (topicArn : pyval) : M dict :=
  fun w =>
    (subscribe_to_event_reply w resourceArn event topicArn,
     log_call (subscribe_to_event_call resourceArn event topicArn) w).

(** [requests.get(url)] *)
Definition requests_get (url : string) : M response :=
  fun w => (requests_get_reply w url, log_call (requests_get_call url) w).

(** [rf = open(path, "w")]: opening truncates the file. *)
Definition open_w (path : string) : M unit :=
  fun w =>
    match open_reply w path with
    | Ok tt => (Ok tt, write_file path EmptyString w)
    | Raise e => (Raise e, w)
    | OutOfFuel => (OutOfFuel, w)
    end.

(** The file object [rf] once the file is open.  [write_reply path text]
    is what the writes of [json.dump] come to when together they hand
    [text] to the file, and [close_reply path] what [rf.close()] comes
    to.  The file object buffers the text: when the writing is broken
    off, [reached path text] characters of [text] are in the file. *)
Record file_object : Type := mkFileObject {
  write_reply : string -> string -> result unit;
  close_reply : string -> result unit;
  reached : string -> string -> nat
}.

(** The first [n] characters of [s]. *)
Fixpoint take (n : nat) (s : string) : string :=
  match n, s with
  | S n', String c s' => String c (take n' s')
  | _, _ => EmptyString
  end.

(** The file after the writing of [text] was broken off. *)
Definition broken_off (rf : file_object) (path text : string) (w : world)
  : world :=
  write_file path (take (reached rf path text) text) w.

(** [json.dump(obj, rf, indent=4)], that is
    [for chunk in iterable: rf.write(chunk)]: the chunks are written as
    the encoder yields them, so that a failing write comes before the
    error of a later chunk.  The result is the text handed to the file. *)
Definition json_dump (rf : file_object) (obj : pyval) (path : string)
  : M string :=
  fun w =>
    let text := fst (Json.iterencode obj) in
    match write_reply rf path text with
    | Ok tt =>
        match snd (Json.iterencode obj) with
        | Ok tt => (Ok text, w)
        | Raise e => (Raise e, broken_off rf path text w)
        | OutOfFuel => (OutOfFuel, broken_off rf path text w)
        end
    | Raise e => (Raise e, broken_off rf path text w)
    | OutOfFuel => (OutOfFuel, broken_off rf path text w)
    end.

(** [rf.close()] after [text] was handed to the file. *)
Definition rf_close (rf : file_object) (path text : string) : M unit :=
  fun w =>
    match close_reply rf path with
    | Ok tt => (Ok tt, write_file path text w)
    | Raise e => (Raise e, broken_off rf path text w)
    | OutOfFuel => (OutOfFuel, broken_off rf path text w)
    end.

(* ================================================================== *)
(** ** The operations of Python the module uses                        *)
(* ================================================================== *)

(** [o.get(k)]: only a dictionary has the method. *)
Definition py_get (o : pyval) (k : string) : result pyval :=
  match o with
  | PDict d => Ok (dict_get d k)
  | _ => Raise AttributeError
  end.

(** [o[k]] for a string [k] *)
Definition py_getitem (o : pyval) (k : string) : result pyval :=
  match o with
  | PDict d =>
      match dict_lookup d k with
      | Some v => Ok v
      | None => Raise (KeyError k)
      end
  | _ => Raise TypeError
  end.

(** [o.items()] *)
Definition py_items (o : pyval) : result (list (string * pyval)) :=
  match o with
  | PDict d => Ok d
  | _ => Raise AttributeError
  end.

Fixpoint chars (s : string) : list pyval :=
  match s with
  | EmptyString => []
  | String c s' => PStr (String c EmptyString) :: chars s'
  end.

(** The items [for x in o] runs through. *)
Definition py_iter (o : pyval) : result (list pyval) :=
  match o with
  | PList l => Ok l
  | PDict d => Ok (map PStr (dict_keys d))
  | PStr s => Ok (chars s)
  | _ => Raise TypeError
  end.

(** [a + o] for a string [a] *)
Definition py_str_add (a : string) (o : pyval) : result string :=
  match o with
  | PStr b => Ok (a ++ b)
  | _ => Raise TypeError
  end.

(** [re.match(pattern, o)] as a truth value; the subject must be a string. *)
Definition py_re_match (pattern : regex) (o : pyval) : result bool :=
  match o with
  | PStr s => Ok (re_match pattern s)
  | _ => Raise TypeError
  end.

(* ================================================================== *)
(** ** [class InspectorEngine]                                         *)
(* ================================================================== *)

Section InspectorEngine.

(** [from constants import RULE_MAP]: region, then rule name, then ARN. *)
Variable RULE_MAP : dict.

(** [json.loads], for the body the feed service sends. *)
Variable json_loads : string -> result pyval.

(** The file object of the report. *)
Variable rf : file_object.

(** [get_rulepackagearns(self, region)] *)
Definition get_rulepackagearns (region : string) : result pyval :=
  match py_items (dict_get RULE_MAP region) with
  | Ok items => Ok (PList (map (fun rule_value => snd rule_value) items))
  | Raise e => Raise e
  | OutOfFuel => OutOfFuel
  end.

Definition events : list string :=
  ["ASSESSMENT_RUN_STARTED"; "ASSESSMENT_RUN_COMPLETED";
   "ASSESSMENT_RUN_STATE_CHANGED"].

(** [for event in events: response = self.inspector.subscribe_to_event(...)] *)
Fixpoint for_events (evs : list string) (templatearn topicarn : pyval)
  : M unit :=
  match evs with
  | [] => ret tt
  | event :: evs' =>
      response <- inspector_subscribe_to_event templatearn event topicarn ;;
      for_events evs' templatearn topicarn
  end.

(** [subscribe_to_event(self, templatearn, topicarn)] *)
Definition subscribe_to_event (templatearn topicarn : pyval) : M pyval :=
  for_events events templatearn topicarn ;;; ret PNone.

(** [get_feeds(self, cveid)] *)
Definition get_feeds (cveid : pyval) : M pyval :=
  SEARCHURL <- lift (py_str_add "http://cve.circl.lu/api/cve/" cveid) ;;
  r <- requests_get SEARCHURL ;;
  if (status_code r =? 200)%Z
  then lift (json_loads (text r))
  else ret PNone.

Definition report_keys : list string :=
  ["title"; "description"; "severity"; "recommendation"].

(** [for key in report_keys: report[key] = finding[key]] *)
Fixpoint for_keys (keys : list string) (finding : pyval) (report : dict)
  : result dict :=
  match keys with
  | [] => Ok report
  | key :: keys' =>
      match py_getitem finding key with
      | Ok v => for_keys keys' finding (dict_set report key v)
      | Raise e => Raise e
      | OutOfFuel => OutOfFuel
      end
  end.

(** The body of [for finding in findings]: the record of one finding. *)
Definition finding_record (finding : pyval) : M pyval :=
  finding_id <- lift (py_get finding "id") ;;
  report <- lift (for_keys report_keys finding []) ;;
  is_match <- lift (py_re_match cvepattern finding_id) ;;
  if is_match : bool
  then
    feeds <- get_feeds finding_id ;;
    ret (PDict [("id", finding_id); ("report", PDict report); ("feeds", feeds)])
  else ret (PDict [("id", finding_id); ("report", PDict report)]).

(** [for finding in findings: ... data.append(...)] *)
Fixpoint for_findings (findings : list pyval) (data : list pyval)
  : M (list pyval) :=
  match findings with
  | [] => ret data
  | finding :: findings' =>
      record <- finding_record finding ;;
      for_findings findings' (data ++ [record])%list
  end.

(** The [while True] loop of [pull_list_finding]; [fuel] bounds its
    iterations. *)
Fixpoint pull_loop (fuel : nat) (runarns : pyval) (filter_input : dict)
  (nexttoken : pyval) (data : list pyval) : M (list pyval) :=
  match fuel with
  | O => lift OutOfFuel
  | S fuel' =>
      findings <-
        (if truthy nexttoken
         then list_findings runarns filter_input (Some nexttoken)
         else list_findings runarns filter_input None) ;;
      let nexttoken := dict_get findings "nextToken" in
      let findingArn := dict_get findings "findingArns" in
      response <- describe_findings findingArn "EN_US" ;;
      let findings := dict_get response "findings" in
      items <- lift (py_iter findings) ;;
      data <- for_findings items data ;;
      if negb (truthy nexttoken)
      then ret data
      else pull_loop fuel' runarns filter_input nexttoken data
  end.

(** [pull_list_finding(self, agentids, severities, runarns)] *)
Definition pull_list_finding (fuel : nat) (agentids severities runarns : pyval)
  : M pyval :=
  let filter_input := dict_set (dict_set [] "agentIds" agentids)
                               "severities" severities in
  data <- pull_loop fuel runarns filter_input PNone [] ;;
  ret (PList data).

(** [genearte_report(self, agentids, severities, runarns, reportfile)] *)
Definition genearte_report (fuel : nat) (agentids severities runarns : pyval)
  (reportfile : string) : M pyval :=
  data <- pull_list_finding fuel agentids severities runarns ;;
  open_w reportfile ;;;
  text <- json_dump rf data reportfile ;;
  rf_close rf reportfile text ;;;
  ret PNone.

End InspectorEngine.

(* ================================================================== *)
(** ** The methods that set an assessment up                           *)
(* ================================================================== *)

(** The calls of [create_awsscan_tag], [create_assessment_target],
    [create_assessment_template] and [start_assessment_run], with their
    keyword arguments. *)
Inductive setup_call : Type :=
| create_tags_call (Resources Tags : pyval)
| create_resource_group_call (resourceGroupTags : pyval)
| create_assessment_target_call (assessmentTargetName resourceGroupArn : pyval)
| create_assessment_template_call
    (assessmentTargetArn assessmentTemplateName durationInSeconds
       rulesPackageArns : pyval)
| start_assessment_run_call (assessmentTemplateArn : pyval).

(** The account the clients [self.ec2] and [self.inspector] talk to.  The
    answer to a call may depend on the calls made before it;
    [setup_calls] logs the calls, the oldest first. *)
Record account : Type := mkAccount {
  service_reply : list setup_call -> setup_call -> result dict;
  setup_calls : list setup_call
}.

(** Computations that call the account and may raise. *)
Definition A (X : Type) : Type := account -> result X * account.

Definition retA {X : Type} (x : X) : A X := fun a => (Ok x, a).

Definition bindA {X Y : Type} (m : A X) (k : X -> A Y) : A Y :=
  fun a =>
    match m a with
    | (Ok x, a') => k x a'
    | (Raise e, a') => (Raise e, a')
    | (OutOfFuel, a') => (OutOfFuel, a')
    end.

Declare Scope setup_scope.
Delimit Scope setup_scope with setup.
Notation "x <- m ;; k" := (bindA m (fun x => k))
  (at level 61, m at next level, right associativity) : setup_scope.

(** One call of a client: the account answers and logs the call. *)
Definition remote (c : setup_call) : A dict :=
  fun a =>
    (service_reply a (setup_calls a) c,
     mkAccount (service_reply a) (setup_calls a ++ [c])%list).

(** The value of a parameter with a default: [None] is the omitted
    argument. *)
Definition or_default (given : option pyval) (default : pyval) : pyval :=
  match given with
  | Some v => v
  | None => default
  end.

(** [create_awsscan_tag(self, instanceids, tagvalue, tagkey="awsscan")] *)
Definition create_awsscan_tag (instanceids tagvalue : pyval)
  (tagkey : option pyval) : A pyval :=
  (let tagkey := or_default tagkey (PStr "awsscan") in
   response <- remote (create_tags_call instanceids
                         (PList [PDict [("Key", tagkey); ("Value", tagvalue)]])) ;;
   retA PNone)%setup.

(** [create_assessment_target(self, targetname, tagname, tagkey="awsscan")] *)
Definition create_assessment_target (targetname tagname : pyval)
  (tagkey : option pyval) : A pyval :=
  (let tagkey := or_default tagkey (PStr "awsscan") in
   let resourcegroup_tags := PList [PDict [("key", tagkey); ("value", tagname)]] in
   created <- remote (create_resource_group_call resourcegroup_tags) ;;
   let resourcegroup_arn := dict_get created "resourceGroupArn" in
   response <- remote (create_assessment_target_call targetname resourcegroup_arn) ;;
   retA (dict_get response "assessmentTargetArn"))%setup.

(** [create_assessment_template(self, targetarn, templatename,
    rulepackagearns, duration=3600)] *)
Definition create_assessment_template (targetarn templatename rulepackagearns : pyval)
  (duration : option pyval) : A pyval :=
  (let duration := or_default duration (PInt 3600) in
   response <- remote (create_assessment_template_call targetarn templatename
                         duration rulepackagearns) ;;
   retA (dict_get response "assessmentTemplateArn"))%setup.

(** [start_assessment_run(self, templatearn)] *)
Definition start_assessment_run (templatearn : pyval) : A pyval :=
  (response <- remote (start_assessment_run_call templatearn) ;;
   retA (dict_get response "assessmentRunArn"))%setup.

(* ================================================================== *)
(** ** Vocabulary of the properties                                    *)
(* ================================================================== *)

Fixpoint all_digits (s : string) : bool :=
  match s with
  | EmptyString => true
  | String c s' => is_digit c && all_digits s'
  end.

(** The year of a CVE identifier as the pattern has it: 1999, or 2 and
    three more digits. *)
Definition year_ok (y : string) : bool :=
  String.eqb y "1999" ||
  match y with
  | String c ds => (c =? "2")%char && (String.length ds =? 3)%nat && all_digits ds
  | EmptyString => false
  end.

(** The sequence number as the pattern has it: 0, two digits and a digit
    from 1 to 9; or a digit from 1 to 9 and at least three more digits. *)
Definition sequence_ok (q : string) : bool :=
  match q with
  | String c ds =>
      ((c =? "0")%char &&
       match ds with
       | String a (String b (String d EmptyString)) =>
           is_digit a && is_digit b && in_range "1" "9" d
       | _ => false
       end)
      || (in_range "1" "9" c && (3 <=? String.length ds)%nat && all_digits ds)
  | EmptyString => false
  end.

Definition cve_form (s : string) : Prop :=
  exists y q, s = "CVE-" ++ y ++ "-" ++ q /\ year_ok y = true /\ sequence_ok q = true.

(** The number a run of digits denotes. *)
Fixpoint digits_value (acc : nat) (s : string) : nat :=
  match s with
  | EmptyString => acc
  | String c s' => digits_value (10 * acc + (nat_of_ascii c - 48)) s'
  end.

(** The characterisation of a CVE identifier in words: [CVE-YYYY-NNNN...]
    with a year of four digits that is 1999 or later and a sequence number
    of at least 4 digits whose last three digits are at least 021. *)
Definition worded_cve_form (s : string) : bool :=
  let year := substring 4 4 s in
  let number := substring 9 (String.length s - 9) s in
  String.eqb (substring 0 4 s) "CVE-" &&
  (String.length year =? 4)%nat && all_digits year &&
  (1999 <=? digits_value 0 year)%nat &&
  String.eqb (substring 8 1 s) "-" &&
  (4 <=? String.length number)%nat && all_digits number &&
  (21 <=? digits_value 0 (substring (String.length number - 3) 3 number))%nat.

(** The address [get_feeds] asks for. *)
Definition feed_url (cveid : string) : string :=
  "http://cve.circl.lu/api/cve/" ++ cveid.

(** Two worlds whose describe-findings and feed services answer alike. *)
Definition same_services (w w' : world) : Prop :=
  describe_findings_reply w = describe_findings_reply w' /\
  requests_get_reply w = requests_get_reply w'.

Definition is_requests_get (c : call) : Prop :=
  match c with
  | requests_get_call _ => True
  | _ => False
  end.

(** A step that leaves the services as they are, takes no page from the
    findings service and calls only the feed service. *)
Definition quiet_step (w w' : world) : Prop :=
  same_services w w' /\
  list_findings_replies w' = list_findings_replies w /\
  exists gets, calls w' = (calls w ++ gets)%list /\ Forall is_requests_get gets.

(** The first of [keys] that the dictionary [d] lacks. *)
Fixpoint first_missing (keys : list string) (d : dict) : option string :=
  match keys with
  | [] => None
  | key :: keys' =>
      match dict_lookup d key with
      | Some _ => first_missing keys' d
      | None => Some key
      end
  end.

(** What the loop of [pull_list_finding] does with one page once the page
    is there: describe its findings and append their records to [data]. *)
Definition process_page (json_loads : string -> result pyval)
  (page : dict) (data : list pyval) : M (list pyval) :=
  response <- describe_findings (dict_get page "findingArns") "EN_US" ;;
  items <- lift (py_iter (dict_get response "findings")) ;;
  for_findings json_loads items data.

(** The records of a page: what processing the page on its own yields. *)
Definition page_records (json_loads : string -> result pyval)
  (w : world) (page : dict) : result (list pyval) :=
  fst (process_page json_loads page [] w).

(** A page carries a pagination token when its [nextToken] is a value that
    Python takes for true: present, and not empty. *)
Definition carries_token (page : dict) : bool :=
  truthy (dict_get page "nextToken").

(** The [list_findings] calls of a log, with their arguments. *)
Fixpoint list_calls (cs : list call) : list (pyval * dict * option pyval) :=
  match cs with
  | [] => []
  | list_findings_call runarns filter token :: cs' =>
      (runarns, filter, token) :: list_calls cs'
  | _ :: cs' => list_calls cs'
  end.

(** The [describe_findings] calls of a log, with their arguments. *)
Fixpoint describe_calls (cs : list call) : list (pyval * string) :=
  match cs with
  | [] => []
  | describe_findings_call arns locale :: cs' => (arns, locale) :: describe_calls cs'
  | _ :: cs' => describe_calls cs'
  end.

(** The token a [list_findings] call carries when the loop holds
    [nexttoken]: the keyword is passed only for a token that counts as
    true. *)
Definition token_sent (nexttoken : pyval) : option pyval :=
  if truthy nexttoken then Some nexttoken else None.

(** The tokens of the [list_findings] calls for a run over [earlier] pages
    and a final one: none for the first call, then the token of the page
    before. *)
Definition expected_tokens (earlier : list dict) : list (option pyval) :=
  None :: map (fun page => Some (dict_get page "nextToken")) earlier.

(** The subscriptions [subscribe_to_event] is to issue, in order. *)
Definition subscriptions (templatearn topicarn : pyval) : list call :=
  [subscribe_to_event_call templatearn "ASSESSMENT_RUN_STARTED" topicarn;
   subscribe_to_event_call templatearn "ASSESSMENT_RUN_COMPLETED" topicarn;
   subscribe_to_event_call templatearn "ASSESSMENT_RUN_STATE_CHANGED" topicarn].

(** *** Sample worlds *)

Definition no_service : world :=
  mkWorld [] (fun _ _ => Raise (ClientError "describe_findings"))
          (fun _ _ _ => Ok [])
          (fun _ => Raise ConnectionError)
          (fun _ => Ok tt) (fun _ => None) [].

Definition sample_fields (id title : string) : dict :=
  [("arn", PStr ("arn:" ++ id)); ("id", PStr id); ("title", PStr title);
   ("description", PStr "d"); ("severity", PStr "High");
   ("recommendation", PStr "r"); ("confidence", PInt 10)].

Definition sample_report (title : string) : pyval :=
  PDict [("title", PStr title); ("description", PStr "d");
         ("severity", PStr "High"); ("recommendation", PStr "r")].

Definition sample_finding (id title : string) : pyval :=
  PDict (sample_fields id title).

Definition sample_page (arn token : string) : dict :=
  [("findingArns", PList [PStr arn]); ("nextToken", PStr token)].

Definition last_page (arn : string) : dict := [("findingArns", PList [PStr arn])].

Definition sample_pages : list dict :=
  [sample_page "a1" "t1"; sample_page "a2" "t2"; last_page "a3"].

Definition sample_describe (arns : pyval) (locale : string) : result dict :=
  match arns with
  | PList [PStr arn] =>
      if String.eqb arn "a1" then
        Ok [("findings", PList [sample_finding "CVE-2021-12345" "one";
                               sample_finding "rule-7" "two"])]
      else if String.eqb arn "a2" then
        Ok [("findings", PList [sample_finding "CVE-1999-0021" "three"])]
      else if String.eqb arn "a3" then
        Ok [("findings", PList [])]
      else if String.eqb arn "bad" then
        Ok [("findings", PList [sample_finding "rule-8" "four";
                               PDict [("id", PStr "rule-9"); ("title", PStr "five")]])]
      else Raise (ClientError "describe_findings")
  | _ => Raise (ClientError "describe_findings")
  end.

Definition sample_feed (url : string) : result response :=
  if String.eqb url (feed_url "CVE-2021-12345")
  then Ok (mkResponse 200 ("{" ++ String Json.dquote ("id" ++ String Json.dquote
             (": " ++ String Json.dquote ("CVE-2021-12345" ++ String Json.dquote "}")))))
  else Ok (mkResponse 404 "not found").

Definition sample_world (pages : list dict) : world :=
  mkWorld (map Ok pages) sample_describe (fun _ _ _ => Ok [])
          sample_feed (fun _ => Ok tt) (fun _ => None) [].

Definition sample_rule_map : dict :=
  [("us-east-1", PDict [("CVE", PStr "arn:rulespackage/0-gEjTy7T7");
                        ("CIS", PStr "arn:rulespackage/0-rExsr2X8")]);
   ("us-west-2", PDict [("CVE", PStr "arn:rulespackage/0-9hgA516p")])].

(** The records of the three sample pages. *)
Definition sample_records : list (list pyval) :=
  [[PDict [("id", PStr "CVE-2021-12345"); ("report", sample_report "one");
           ("feeds", PDict [("id", PStr "CVE-2021-12345")])];
    PDict [("id", PStr "rule-7"); ("report", sample_report "two")]];
   [PDict [("id", PStr "CVE-1999-0021"); ("report", sample_report "three");
           ("feeds", PNone)]];
   []].

(** A file object that takes every write and every close. *)
Definition steady_file : file_object :=
  mkFileObject (fun _ _ => Ok tt) (fun _ => Ok tt)
               (fun _ text => String.length text).

(** A finding whose title is the integer 10^4300, the first that has 4301
    digits. *)
Definition long_title_finding : pyval :=
  PDict [("id", PStr "rule-1"); ("title", PInt Json.int_limit);
         ("description", PStr "d"); ("severity", PStr "High");
         ("recommendation", PStr "r")].

(** The record of that finding. *)
Definition long_title_records : list pyval :=
  [PDict [("id", PStr "rule-1");
          ("report", PDict [("title", PInt Json.int_limit);
                            ("description", PStr "d");
                            ("severity", PStr "High");
                            ("recommendation", PStr "r")])]].

(** A world with one page of findings, whose one finding has the long
    title, and with the report of an earlier run that found nothing. *)
Definition long_title_world : world :=
  mkWorld [Ok (last_page "a1")]
          (fun _ _ => Ok [("findings", PList [long_title_finding])])
          (fun _ _ _ => Ok []) sample_feed (fun _ => Ok tt)
          (fun p => if String.eqb p "report.json" then Some "[]" else None) [].

(** *** Python values as they are *)

Fixpoint distinct (keys : list string) : bool :=
  match keys with
  | [] => true
  | key :: keys' => negb (existsb (String.eqb key) keys') && distinct keys'
  end.

(** A dictionary of Python has every key once; so has every dictionary
    inside a value. *)
Fixpoint well_formed (o : pyval) : bool :=
  match o with
  | PList l => forallb well_formed l
  | PDict d => distinct (map fst d) && forallb (fun kv => well_formed (snd kv)) d
  | _ => true
  end.

(** Every integer of the value can be converted to its decimal text: it
    has at most 4300 digits. *)
Fixpoint encodable (o : pyval) : bool :=
  match o with
  | PInt z => Json.within_int_limit z
  | PList l => forallb encodable l
  | PDict d => forallb (fun kv => encodable (snd kv)) d
  | _ => true
  end.

(** What may follow an encoded value in the text [json.dump] writes: the
    end of the text, a comma, or a line feed. *)
Definition delimited (rest : string) : Prop :=
  match rest with
  | EmptyString => True
  | String c _ => c = ","%char \/ c = Json.LF
  end.

(** A text that does not start with white space. *)
Definition solid_head (s : string) : Prop :=
  match s with
  | String c _ => Json.is_ws c = false
  | EmptyString => True
  end.

(** The characters an encoded value can start with. *)
Definition value_head (c : ascii) : bool :=
  is_digit c ||
  existsb (Ascii.eqb c) ["-"; Json.dquote; "["; "{"; "n"; "t"; "f"]%char.

(** The text of one entry of a dictionary at nesting level [level]. *)
Definition member_text (level : nat) (kv : string * pyval) : string :=
  Json.encode_basestring_ascii (fst kv) ++ ": " ++ Json.encode level (snd kv).

(** The separator of the items at nesting level [level]. *)
Definition item_separator (level : nat) : string :=
  "," ++ Json.newline_indent level.

(** *** Vocabulary for the set-up methods *)

(** The resource-group tags [create_assessment_target] builds. *)
Definition group_tags (tagname : pyval) (tagkey : option pyval) : pyval :=
  PList [PDict [("key", or_default tagkey (PStr "awsscan")); ("value", tagname)]].

(** An account that answers every call with the ARNs of a fresh resource. *)
Definition sample_account : account :=
  mkAccount
    (fun history c =>
       match c with
       | create_tags_call _ _ => Ok []
       | create_resource_group_call _ => Ok [("resourceGroupArn", PStr "arn:group/1")]
       | create_assessment_target_call _ _ => Ok [("assessmentTargetArn", PStr "arn:target/1")]
       | create_assessment_template_call _ _ _ _ =>
           Ok [("assessmentTemplateArn", PStr "arn:template/1")]
       | start_assessment_run_call _ => Ok [("assessmentRunArn", PStr "arn:run/1")]
       end)
    [].

(** An account in which resource groups can be created and nothing else. *)
Definition groups_only_account : account :=
  mkAccount
    (fun history c =>
       match c with
       | create_resource_group_call _ => Ok [("resourceGroupArn", PStr "arn:group/1")]
       | _ => Raise (ClientError "AccessDenied")
       end)
    [].

(** *** Vocabulary for the harvest *)

(** The report of a finding with the fields [d]. *)
Definition report_of (d : dict) : dict :=
  map (fun key => (key, dict_get d key)) report_keys.

(** The feed requests that the findings [items] give rise to: one for each
    finding whose [id] is a string that matches the pattern. *)
Definition cve_requests (items : list pyval) : list call :=
  flat_map
    (fun finding =>
       match py_get finding "id" with
       | Ok (PStr id) => if is_cve id then [requests_get_call (feed_url id)] else []
       | _ => []
       end)
    items.

(** The record of a finding with the fields [d] and the identifier [id]:
    without feeds when the identifier does not match the pattern, with
    some feeds when it does. *)
Definition record_of (d : dict) (id : string) (record : pyval) : Prop :=
  (is_cve id = false /\
   record = PDict [("id", PStr id); ("report", PDict (report_of d))]) \/
  (is_cve id = true /\
   exists feeds,
     record = PDict [("id", PStr id); ("report", PDict (report_of d));
                     ("feeds", feeds)]).

(** A token that a [list_findings] call may carry: none, or one that
    counts as true. *)
Definition sound_token (token : option pyval) : Prop :=
  match token with
  | Some t => truthy t = true
  | None => True
  end.

(** A world whose feed service cannot be reached. *)
Definition offline_world (pages : list dict) : world :=
  mkWorld (map Ok pages) sample_describe (fun _ _ _ => Ok [])
          (fun _ => Raise ConnectionError) (fun _ => Ok tt) (fun _ => None) [].

(** A world in which no file can be opened, with a report left from
    before. *)
Definition read_only_world (pages : list dict) : world :=
  mkWorld (map Ok pages) sample_describe (fun _ _ _ => Ok [])
          sample_feed (fun _ => Raise IOError)
          (fun p => if String.eqb p "report.json" then Some "[]" else None) [].

(** A world whose subscription service accepts run-started only. *)
Definition one_event_world : world :=
  mkWorld [] sample_describe
          (fun _ event _ =>
             if String.eqb event "ASSESSMENT_RUN_STARTED" then Ok []
             else Raise (ClientError "LimitExceeded"))
          sample_feed (fun _ => Ok tt) (fun _ => None) [].

(** Two worlds with the same files, of which the same can be opened. *)
Definition same_files (w w' : world) : Prop :=
  files w' = files w /\ open_reply w' = open_reply w.

(** A world whose findings service refuses the second call. *)
Definition throttled_world : world :=
  mkWorld [Ok (sample_page "a1" "t1"); Raise (ClientError "Throttling")]
          sample_describe (fun _ _ _ => Ok [])
          sample_feed (fun _ => Ok tt) (fun _ => None) [].

(** The records of the first sample page. *)
Definition first_sample_records : list pyval :=
  [PDict [("id", PStr "CVE-2021-12345"); ("report", sample_report "one");
          ("feeds", PDict [("id", PStr "CVE-2021-12345")])];
   PDict [("id", PStr "rule-7"); ("report", sample_report "two")]].

(** The findings of the first sample page. *)
Definition first_sample_findings : list pyval :=
  [sample_finding "CVE-2021-12345" "one"; sample_finding "rule-7" "two"].

(** A finding with the four fields of the report and no [id]. *)
Definition nameless_fields : dict :=
  [("title", PStr "t"); ("description", PStr "d"); ("severity", PStr "Low");
   ("recommendation", PStr "r")].

(* ================================================================== *)
(** * Properties                                                       *)
(* ================================================================== *)

(** ** Strings *)

Lemma append_nil_r (s : string) : s ++ EmptyString = s.
Proof. induction s as [|c s IH]; simpl; [reflexivity | now rewrite IH]. Qed.

Lemma append_assoc (s1 s2 s3 : string) : (s1 ++ s2) ++ s3 = s1 ++ (s2 ++ s3).
Proof. induction s1 as [|c s1 IH]; simpl; [reflexivity | now rewrite IH]. Qed.

Lemma length_append (s1 s2 : string) :
  String.length (s1 ++ s2) = String.length s1 + String.length s2.
Proof. induction s1 as [|c s1 IH]; simpl; [reflexivity | now rewrite IH]. Qed.

Lemma all_digits_append (s1 s2 : string) :
  all_digits (s1 ++ s2) = all_digits s1 && all_digits s2.
Proof.
  induction s1 as [|c s1 IH]; simpl; [reflexivity|].
  now rewrite IH, andb_assoc.
Qed.

(** ** The matcher *)


Lemma re_match_true (r : regex) (s : string) :
  re_match r s = true <-> exists c', In c' (ends r (0, s)).
Proof.
  unfold re_match. destruct (ends r (0, s)) as [|c l]; split.
  - discriminate.
  - intros [c' []].
  - intros _. exists c. now left.
  - reflexivity.
Qed.

Lemma In_eat (p : ascii -> bool) (c c' : cursor) :
  In c' (eat p c) <->
  exists a, snd c = String a (snd c') /\ p a = true /\ fst c' = S (fst c).
Proof.
  unfold eat. destruct c as [n s], c' as [n' s']; simpl.
  destruct s as [|a rest]; simpl.
  - split; [intros [] | intros (a & H & _); discriminate].
  - destruct (p a) eqn:Hp; simpl; split.
    + intros [H | []]. injection H as <- <-. now exists a.
    + intros (b & H & Hb & ->). injection H as <- <-. now left.
    + intros [].
    + intros (b & H & Hb & _). injection H as <- <-. congruence.
Qed.

Lemma In_ends_Cat (r1 r2 : regex) (c c' : cursor) :
  In c' (ends (Cat r1 r2) c) <->
  exists m, In m (ends r1 c) /\ In c' (ends r2 m).
Proof. simpl. apply in_flat_map. Qed.

Lemma In_ends_Alt (r1 r2 : regex) (c c' : cursor) :
  In c' (ends (Alt r1 r2) c) <-> In c' (ends r1 c) \/ In c' (ends r2 c).
Proof. simpl. apply in_app_iff. Qed.

Lemma In_ends_Lit (a : ascii) (c c' : cursor) :
  In c' (ends (Lit a) c) <->
  snd c = String a (snd c') /\ fst c' = S (fst c).
Proof.
  simpl. rewrite In_eat. split.
  - intros (b & H & Hb & Hn). apply Ascii.eqb_eq in Hb. now subst.
  - intros [H Hn]. exists a. now rewrite Ascii.eqb_refl.
Qed.

Lemma In_ends_lits (w : string) (c c' : cursor) :
  In c' (ends (lits w) c) <->
  snd c = w ++ snd c' /\ fst c' = String.length w + fst c.
Proof.
  revert c. induction w as [|a w IH]; intros c.
  - simpl. split.
    + intros [<- | []]. now split.
    + intros [H1 H2]. left. destruct c, c'; simpl in *. congruence.
  - cbn [lits]. rewrite In_ends_Cat. split.
    + intros (m & Hm & Hc). apply In_ends_Lit in Hm. apply IH in Hc.
      destruct Hm as [Hm1 Hm2], Hc as [Hc1 Hc2]. simpl.
      rewrite Hm1, Hc1, Hc2, Hm2. split; [reflexivity | lia].
    + simpl. intros [H1 H2]. exists (S (fst c), w ++ snd c'). split.
      * apply In_ends_Lit. now split.
      * apply IH. simpl. split; [reflexivity | lia].
Qed.

(** A run of exactly [n] characters of the class [p]. *)
Lemma In_power_eat (p : ascii -> bool) (n : nat) (c c' : cursor) :
  In c' (power (eat p) n c) <->
  exists ds, snd c = ds ++ snd c' /\ String.length ds = n /\
             (forall a, In a (list_ascii_of_string ds) -> p a = true) /\
             fst c' = n + fst c.
Proof.
  revert c. induction n as [|n IH]; intros c.
  - simpl. split.
    + intros [<- | []]. exists EmptyString. simpl. intuition.
    + intros (ds & H1 & H2 & _ & H4). destruct ds; [|discriminate].
      left. destruct c, c'; simpl in *. congruence.
  - cbn [power]. rewrite in_flat_map. split.
    + intros (m & Hm & Hc). apply In_eat in Hm. apply IH in Hc.
      destruct Hm as (a & Hm1 & Hpa & Hm2).
      destruct Hc as (ds & Hc1 & Hc2 & Hc3 & Hc4).
      exists (String a ds). simpl. rewrite Hm1, Hc1, Hc2, Hc4, Hm2.
      repeat split; try lia. intros b [<- | Hb]; auto.
    + intros (ds & H1 & H2 & H3 & H4). destruct ds as [|a ds]; [discriminate|].
      simpl in *. exists (S (fst c), ds ++ snd c'). split.
      * apply In_eat. exists a. simpl. auto.
      * apply IH. exists ds. simpl. repeat split; auto; lia.
Qed.

(** A run of any number of characters of the class [p]. *)
Lemma In_iter_star_eat (p : ascii -> bool) (fuel : nat) (c c' : cursor) :
  String.length (snd c) <= fuel ->
  In c' (iter_star (eat p) fuel c) <->
  exists ds, snd c = ds ++ snd c' /\
             (forall a, In a (list_ascii_of_string ds) -> p a = true) /\
             fst c' = String.length ds + fst c.
Proof.
  revert c. induction fuel as [|fuel IH]; intros c Hlen.
  - simpl. destruct c as [n s]. simpl in Hlen.
    destruct s; [|simpl in Hlen; lia]. split.
    + intros [<- | []]. exists EmptyString. simpl. intuition.
    + intros (ds & H1 & _ & H3). destruct ds; [|discriminate].
      left. destruct c'; simpl in *. congruence.
  - cbn [iter_star]. split.
    + intros [<- | H].
      * exists EmptyString. simpl. intuition.
      * apply in_flat_map in H. destruct H as (m & Hm & Hc).
        apply filter_In in Hm. destruct Hm as [Hm _].
        apply In_eat in Hm. destruct Hm as (a & Hm1 & Hpa & Hm2).
        apply IH in Hc.
        -- destruct Hc as (ds & Hc1 & Hc2 & Hc3).
           exists (String a ds). simpl. rewrite Hm1, Hc1, Hc3, Hm2.
           repeat split; try lia. intros b [<- | Hb]; auto.
        -- rewrite Hm1 in Hlen. simpl in Hlen. lia.
    + intros (ds & H1 & H2 & H3). destruct ds as [|a ds].
      * left. destruct c, c'; simpl in *. congruence.
      * right. apply in_flat_map. simpl in *.
        exists (S (fst c), ds ++ snd c'). split.
        -- apply filter_In. split.
           ++ apply In_eat. exists a. simpl. auto.
           ++ unfold advances. simpl. apply Nat.ltb_lt. lia.
        -- apply IH.
           ++ simpl. rewrite H1 in Hlen. simpl in Hlen. lia.
           ++ exists ds. simpl. repeat split; auto; lia.
Qed.


Lemma all_digits_spec (ds : string) :
  all_digits ds = true <->
  (forall a, In a (list_ascii_of_string ds) -> is_digit a = true).
Proof.
  induction ds as [|c ds IH]; simpl.
  - split; [intros _ a [] | reflexivity].
  - rewrite andb_true_iff, IH. split.
    + intros [Hc H] a [<- | Ha]; auto.
    + intros H. split; [apply H; now left | intros a Ha; apply H; now right].
Qed.

(** ** The pattern of CVE identifiers *)

Lemma In_ends_Repeat_Digit (n : nat) (c c' : cursor) :
  In c' (ends (Repeat n Digit) c) <->
  exists ds, snd c = ds ++ snd c' /\ String.length ds = n /\
             all_digits ds = true /\ fst c' = n + fst c.
Proof.
  change (ends (Repeat n Digit) c) with (power (eat is_digit) n c).
  rewrite In_power_eat. split; intros (ds & H1 & H2 & H3 & H4); exists ds;
    repeat split; auto; now apply all_digits_spec.
Qed.

Lemma In_ends_AtLeast_Digit (n : nat) (c c' : cursor) :
  In c' (ends (AtLeast n Digit) c) <->
  exists ds, snd c = ds ++ snd c' /\ n <= String.length ds /\
             all_digits ds = true /\ fst c' = String.length ds + fst c.
Proof.
  change (ends (AtLeast n Digit) c)
    with (flat_map (fun m => iter_star (eat is_digit) (String.length (snd m)) m)
                   (power (eat is_digit) n c)).
  rewrite in_flat_map. split.
  - intros (m & Hm & Hc). apply In_power_eat in Hm.
    apply In_iter_star_eat in Hc; [|lia].
    destruct Hm as (ds1 & A1 & A2 & A3 & A4), Hc as (ds2 & B1 & B2 & B3).
    exists (ds1 ++ ds2). rewrite append_assoc, <- B1, length_append.
    repeat split; auto; try lia.
    rewrite all_digits_append. apply andb_true_iff.
    split; now apply all_digits_spec.
  - intros (ds & H1 & H2 & H3 & H4).
    exists (n + fst c, substring n (String.length ds - n) ds ++ snd c').
    assert (Hsplit : ds = substring 0 n ds ++ substring n (String.length ds - n) ds).
    { clear - H2. revert n H2. induction ds as [|a ds IH]; intros n Hn.
      - simpl in Hn. assert (n = 0) by lia. subst. reflexivity.
      - destruct n as [|n]; simpl.
        + f_equal. clear. induction ds as [|b ds IH]; simpl; [reflexivity|].
          now rewrite <- IH.
        + f_equal. apply IH. simpl in Hn. lia. }
    assert (Hlen : String.length (substring 0 n ds) = n).
    { clear - H2. revert n H2. induction ds as [|a ds IH]; intros n Hn.
      - simpl in Hn. assert (n = 0) by lia. subst. reflexivity.
      - destruct n as [|n]; simpl; [reflexivity|].
        f_equal. apply IH. simpl in Hn. lia. }
    rewrite Hsplit, all_digits_append in H3. apply andb_true_iff in H3.
    destruct H3 as [D1 D2]. split.
    + apply In_power_eat. exists (substring 0 n ds). simpl.
      rewrite <- append_assoc, <- Hsplit. repeat split; auto.
      now apply all_digits_spec.
    + apply In_iter_star_eat; [simpl; lia|].
      exists (substring n (String.length ds - n) ds). simpl.
      repeat split; [now apply all_digits_spec|].
      rewrite H4. rewrite Hsplit at 1. rewrite length_append, Hlen. lia.
Qed.

Lemma In_ends_Range (lo hi : ascii) (c c' : cursor) :
  In c' (ends (Range lo hi) c) <->
  exists a, snd c = String a (snd c') /\ in_range lo hi a = true /\
            fst c' = S (fst c).
Proof. simpl. apply In_eat. Qed.

Lemma In_ends_year (c c' : cursor) :
  In c' (ends year_pattern c) <->
  exists y, snd c = y ++ snd c' /\ year_ok y = true /\
            fst c' = String.length y + fst c.
Proof.
  unfold year_pattern.
  change (ends (Group (Alt ?a ?b)) c) with (ends (Alt a b) c).
  rewrite In_ends_Alt. split.
  - intros [H | H].
    + apply In_ends_lits in H.
      destruct H as [H1 H2]. exists "1999". auto.
    + apply In_ends_Cat in H. destruct H as (m & Hm & Hc).
      apply In_ends_Lit in Hm. apply In_ends_Repeat_Digit in Hc.
      destruct Hm as [A1 A2], Hc as (ds & B1 & B2 & B3 & B4).
      exists (String "2" ds). unfold year_ok. simpl.
      rewrite A1, B1, B2, B3, B4, A2. repeat split.
  - intros (y & H1 & H2 & H3). unfold year_ok in H2.
    apply orb_true_iff in H2. destruct H2 as [H2 | H2].
    + apply String.eqb_eq in H2. subst y. left.
      apply In_ends_lits. auto.
    + right. destruct y as [|a ds]; [discriminate|].
      apply andb_true_iff in H2. destruct H2 as [H2 D].
      apply andb_true_iff in H2. destruct H2 as [Ha L].
      apply Ascii.eqb_eq in Ha. apply Nat.eqb_eq in L. subst a.
      apply In_ends_Cat. exists (S (fst c), ds ++ snd c'). split.
      * apply In_ends_Lit. simpl. auto.
      * apply In_ends_Repeat_Digit. exists ds. simpl in *.
        repeat split; auto. lia.
Qed.

Lemma In_ends_sequence (c c' : cursor) :
  In c' (ends sequence_pattern c) <->
  exists q, snd c = q ++ snd c' /\ sequence_ok q = true /\
            fst c' = String.length q + fst c.
Proof.
  unfold sequence_pattern.
  change (ends (Group (Alt ?a ?b)) c) with (ends (Alt a b) c).
  rewrite In_ends_Alt. split.
  - intros [H | H].
    + apply In_ends_Cat in H. destruct H as (m1 & Hm1 & H).
      apply In_ends_Cat in H. destruct H as (m2 & Hm2 & H).
      apply In_ends_Lit in Hm1. apply In_ends_Repeat_Digit in Hm2.
      apply In_ends_Range in H.
      destruct Hm1 as [A1 A2], Hm2 as (ds & B1 & B2 & B3 & B4),
               H as (d & C1 & C2 & C3).
      destruct ds as [|a [|b [|x ds]]]; try discriminate.
      exists (String "0" (String a (String b (String d EmptyString)))).
      simpl in *. rewrite A1, B1, C1, C3, B4, A2.
      apply andb_true_iff in B3. destruct B3 as [Da B3].
      apply andb_true_iff in B3. destruct B3 as [Db _].
      rewrite Da, Db, C2. repeat split.
    + apply In_ends_Cat in H. destruct H as (m1 & Hm1 & H).
      apply In_ends_Range in Hm1. apply In_ends_AtLeast_Digit in H.
      destruct Hm1 as (d & A1 & A2 & A3), H as (ds & B1 & B2 & B3 & B4).
      exists (String d ds). unfold sequence_ok. rewrite A2, B3.
      apply Nat.leb_le in B2. rewrite B2. simpl.
      rewrite A1, B1, B4, A3. repeat split; [apply orb_true_r | lia].
  - intros (q & H1 & H2 & H3). destruct q as [|d ds]; [discriminate|].
    unfold sequence_ok in H2. apply orb_true_iff in H2.
    destruct H2 as [H2 | H2].
    + left. apply andb_true_iff in H2. destruct H2 as [Hd H2].
      apply Ascii.eqb_eq in Hd. subst d.
      destruct ds as [|a [|b [|x [|? ?]]]]; simpl in H2; try discriminate.
      apply andb_true_iff in H2. destruct H2 as [H2 Dx].
      apply andb_true_iff in H2. destruct H2 as [Da Db].
      simpl in H1, H3.
      apply In_ends_Cat. exists (1 + fst c, String a (String b (String x (snd c')))).
      split; [apply In_ends_Lit; simpl; auto|].
      apply In_ends_Cat. exists (3 + fst c, String x (snd c')). split.
      * apply In_ends_Repeat_Digit. exists (String a (String b EmptyString)).
        simpl. rewrite Da, Db. repeat split.
      * apply In_ends_Range. exists x. simpl. repeat split; auto.
    + right. apply andb_true_iff in H2. destruct H2 as [H2 D].
      apply andb_true_iff in H2. destruct H2 as [Hd L].
      apply Nat.leb_le in L. simpl in H1, H3.
      apply In_ends_Cat. exists (S (fst c), ds ++ snd c'). split.
      * apply In_ends_Range. exists d. simpl. auto.
      * apply In_ends_AtLeast_Digit. exists ds. simpl.
        repeat split; auto. lia.
Qed.

Lemma at_eol_spec (s : string) :
  at_eol s = true <-> s = EmptyString \/ s = String Json.LF EmptyString.
Proof.
  destruct s as [|a [|b s]]; simpl.
  - intuition.
  - rewrite Ascii.eqb_eq. split.
    + intros ->. now right.
    + intros [H | H]; [discriminate | now injection H].
  - split; [discriminate | intros [H | H]; discriminate].
Qed.

(** [C4], as the code has it: the identifiers the pattern accepts are the
    strings [CVE-], a year that is 1999 or 2 and three digits, a hyphen, and
    a sequence number that is 0, two digits and a digit from 1 to 9, or a
    digit from 1 to 9 and at least three digits; one line feed after such
    a string is let through by [$]. *)
Theorem C4_is_cve_characterised (s : string) :
  is_cve s = true <->
  cve_form s \/ (exists s0, s = s0 ++ String Json.LF EmptyString /\ cve_form s0).
Proof.
  unfold is_cve. rewrite re_match_true. unfold cvepattern.
  split.
  - intros (c' & H).
    apply In_ends_Cat in H. destruct H as (m0 & Hm0 & H).
    simpl in Hm0. destruct Hm0 as [<- | []].
    apply In_ends_Cat in H. destruct H as (m4 & H & Heol).
    change (In m4 (ends (Cat (lits "CVE-")
                          (Cat year_pattern (Cat (Lit "-") sequence_pattern)))
                        (0, s))) in H.
    apply In_ends_Cat in H. destruct H as (m1 & Hm1 & H).
    apply In_ends_Cat in H. destruct H as (m2 & Hm2 & H).
    apply In_ends_Cat in H. destruct H as (m3 & Hm3 & H).
    apply In_ends_lits in Hm1. apply In_ends_year in Hm2.
    apply In_ends_Lit in Hm3. apply In_ends_sequence in H.
    destruct Hm1 as [A1 _], Hm2 as (y & B1 & B2 & _), Hm3 as [C1 _],
             H as (q & D1 & D2 & _).
    simpl in A1. cbn [ends] in Heol.
    destruct (at_eol (snd m4)) eqn:E; [|destruct Heol].
    apply at_eol_spec in E.
    assert (Hs : s = ("CVE-" ++ y ++ "-" ++ q) ++ snd m4).
    { rewrite A1, B1, C1, D1. simpl. rewrite !append_assoc. reflexivity. }
    destruct E as [E | E]; rewrite E in Hs.
    + left. rewrite append_nil_r in Hs. exists y, q. auto.
    + right. exists ("CVE-" ++ y ++ "-" ++ q). split; [exact Hs|].
      exists y, q. auto.
  - intros H.
    assert (G : exists y q tl, s = "CVE-" ++ y ++ "-" ++ q ++ tl /\
                year_ok y = true /\ sequence_ok q = true /\ at_eol tl = true).
    { destruct H as [(y & q & H1 & H2 & H3) | (s0 & H0 & y & q & H1 & H2 & H3)].
      - exists y, q, EmptyString. rewrite append_nil_r. auto.
      - exists y, q, (String Json.LF EmptyString). subst s s0.
        simpl. rewrite !append_assoc. simpl. auto. }
    destruct G as (y & q & tl & Hs & Hy & Hq & Htl). subst s.
    exists (4 + String.length y + 1 + String.length q, tl).
    apply In_ends_Cat. exists (0, "CVE-" ++ y ++ "-" ++ q ++ tl).
    split; [now left|].
    apply In_ends_Cat. exists (4 + String.length y + 1 + String.length q, tl).
    split; [|cbn [ends snd]; rewrite Htl; now left].
    change (In (4 + String.length y + 1 + String.length q, tl)
               (ends (Cat (lits "CVE-")
                       (Cat year_pattern (Cat (Lit "-") sequence_pattern)))
                     (0, "CVE-" ++ y ++ "-" ++ q ++ tl))).
    apply In_ends_Cat. exists (4, y ++ "-" ++ q ++ tl).
    split; [apply In_ends_lits; simpl; auto|].
    apply In_ends_Cat. exists (String.length y + 4, "-" ++ q ++ tl).
    split; [apply In_ends_year; exists y; simpl; auto|].
    apply In_ends_Cat. exists (S (String.length y + 4), q ++ tl).
    split; [apply In_ends_Lit; simpl; auto|].
    apply In_ends_sequence. exists q. simpl. repeat split; auto. lia.
Qed.

(** [C3]: the classifier accepts [CVE-2021-12345] and [CVE-1999-0021] and
    rejects [CVE-1998-0001], [cve-2021-1234], [XYZ-2021-1234] and
    [CVE-2021-012]. *)
Theorem C3_classifier_samples :
  py_re_match cvepattern (PStr "CVE-2021-12345") = Ok true /\
  py_re_match cvepattern (PStr "CVE-1999-0021") = Ok true /\
  py_re_match cvepattern (PStr "CVE-1998-0001") = Ok false /\
  py_re_match cvepattern (PStr "cve-2021-1234") = Ok false /\
  py_re_match cvepattern (PStr "XYZ-2021-1234") = Ok false /\
  py_re_match cvepattern (PStr "CVE-2021-012") = Ok false.
Proof. repeat split; reflexivity. Qed.

(** The characterisation in words fails in both directions:
    [CVE-1999-0001] and [CVE-2021-1000] are accepted although their last
    three digits are below 021, and [CVE-3000-1234] is rejected although
    its year is later than 1999. *)
Lemma C4_worded_form_refuted :
  ~ (forall s, is_cve s = true <-> worded_cve_form s = true).
Proof.
  intros H.
  assert (A : is_cve "CVE-1999-0001" = true) by reflexivity.
  apply H in A. vm_compute in A. discriminate A.
Qed.

Lemma C4_worded_form_cases :
  (is_cve "CVE-1999-0001" = true /\ worded_cve_form "CVE-1999-0001" = false) /\
  (is_cve "CVE-2021-1000" = true /\ worded_cve_form "CVE-2021-1000" = false) /\
  (is_cve "CVE-3000-1234" = false /\ worded_cve_form "CVE-3000-1234" = true) /\
  (worded_cve_form "CVE-2021-12345" = true /\ worded_cve_form "CVE-1999-0021" = true).
Proof. repeat split; reflexivity. Qed.

(** [$] lets one line feed at the end of the identifier through, and only
    one; a sequence number of four digits that ends in 0 needs a first
    digit other than 0. *)
Example is_cve_edges :
  is_cve ("CVE-2021-1234" ++ String Json.LF EmptyString) = true /\
  is_cve ("CVE-2021-1234" ++ String Json.LF (String Json.LF EmptyString)) = false /\
  is_cve "CVE-1999-0010" = false /\
  is_cve "CVE-2999-1230" = true.
Proof. repeat split; reflexivity. Qed.

(** ** Rule packages, subscriptions and the feed *)

Section EngineFacts.

Variable RULE_MAP : dict.
Variable json_loads : string -> result pyval.

(** [C6]: for a region of the table, [get_rulepackagearns] returns the
    ARNs of that region in the order of the table; for a region that is
    not in the table it returns nothing and raises the error of the failed
    lookup, [AttributeError] (the [None] that [RULE_MAP.get] gives has no
    [items]). *)
Theorem C6_get_rulepackagearns (region : string) :
  (forall rules, dict_lookup RULE_MAP region = Some (PDict rules) ->
     get_rulepackagearns RULE_MAP region = Ok (PList (map snd rules))) /\
  (dict_lookup RULE_MAP region = None ->
     get_rulepackagearns RULE_MAP region = Raise AttributeError).
Proof.
  unfold get_rulepackagearns, dict_get. split.
  - intros rules ->. reflexivity.
  - intros ->. reflexivity.
Qed.

Lemma In_firstn {A : Type} (n : nat) (l : list A) (x : A) :
  In x (firstn n l) -> In x l.
Proof.
  intros H. rewrite <- (firstn_skipn n l). apply in_or_app. now left.
Qed.

Lemma for_events_calls (evs : list string) (templatearn topicarn : pyval)
  (w : world) :
  exists n,
    calls (snd (for_events evs templatearn topicarn w)) =
    (calls w ++ firstn n (map (fun e => subscribe_to_event_call templatearn e topicarn) evs))%list.
Proof.
  revert w. induction evs as [|e evs IH]; intros w.
  - exists 0. simpl. now rewrite app_nil_r.
  - cbn [for_events]. unfold bind, inspector_subscribe_to_event.
    destruct (subscribe_to_event_reply w templatearn e topicarn) as [d|x|].
    + destruct (IH (log_call (subscribe_to_event_call templatearn e topicarn) w))
        as [n Hn].
      exists (S n). rewrite Hn. simpl. now rewrite <- app_assoc.
    + exists 1. reflexivity.
    + exists 1. reflexivity.
Qed.

Lemma for_events_accepted (evs : list string) (templatearn topicarn : pyval)
  (w : world) :
  (forall e, In e evs ->
     exists d, subscribe_to_event_reply w templatearn e topicarn = Ok d) ->
  exists w',
    for_events evs templatearn topicarn w = (Ok tt, w') /\
    subscribe_to_event_reply w' = subscribe_to_event_reply w /\
    calls w' =
    (calls w ++ map (fun e => subscribe_to_event_call templatearn e topicarn) evs)%list.
Proof.
  revert w. induction evs as [|e evs IH]; intros w H.
  - exists w. simpl. now rewrite app_nil_r.
  - cbn [for_events]. unfold bind, inspector_subscribe_to_event.
    destruct (H e (or_introl eq_refl)) as [d Hd]. rewrite Hd.
    destruct (IH (log_call (subscribe_to_event_call templatearn e topicarn) w))
      as (w' & R & S1 & C).
    { intros e' He'. simpl. apply H. now right. }
    exists w'. rewrite R, S1, C. simpl. now rewrite <- app_assoc.
Qed.

(** [C7]: whatever the service answers, the subscription calls issued are
    the first ones of run-started, run-completed and run-state-changed, in
    that order, against the given template and topic, and none is for
    [FINDING_REPORTED]; when the service accepts them, exactly these three
    are issued and the method returns. *)
Theorem C7_subscribe_to_event (templatearn topicarn : pyval) (w : world) :
  (exists n issued,
     calls (snd (subscribe_to_event templatearn topicarn w)) =
       (calls w ++ issued)%list /\
     issued = firstn n (subscriptions templatearn topicarn) /\
     forall r e t, In (subscribe_to_event_call r e t) issued ->
                   e <> "FINDING_REPORTED") /\
  ((forall e, In e events ->
      exists d, subscribe_to_event_reply w templatearn e topicarn = Ok d) ->
   exists w',
     subscribe_to_event templatearn topicarn w = (Ok PNone, w') /\
     calls w' = (calls w ++ subscriptions templatearn topicarn)%list).
Proof.
  split.
  - destruct (for_events_calls events templatearn topicarn w) as [n Hn].
    exists n, (firstn n (subscriptions templatearn topicarn)).
    split; [|split; [reflexivity|]].
    + unfold subscribe_to_event, bind, ret.
      destruct (for_events events templatearn topicarn w) as [[[]|x|] w'];
        exact Hn.
    + intros r e t Hin. apply In_firstn in Hin. simpl in Hin.
      destruct Hin as [E | [E | [E | []]]]; injection E as _ <- _; discriminate.
  - intros H. destruct (for_events_accepted events templatearn topicarn w H)
      as (w' & R & _ & C).
    exists w'. unfold subscribe_to_event, bind, ret. rewrite R. auto.
Qed.

Lemma get_feeds_run (cveid : string) (w : world) :
  get_feeds json_loads (PStr cveid) w =
  (match requests_get_reply w (feed_url cveid) with
   | Ok r => if (status_code r =? 200)%Z then json_loads (text r) else Ok PNone
   | Raise e => Raise e
   | OutOfFuel => OutOfFuel
   end,
   log_call (requests_get_call (feed_url cveid)) w).
Proof.
  unfold get_feeds, bind, lift, requests_get, ret, feed_url. simpl.
  destruct (requests_get_reply w _) as [r|e|]; try reflexivity.
  destruct (status_code r =? 200)%Z; reflexivity.
Qed.

(** [C2], as the code has it: [get_feeds] issues one GET to the address of
    the feed; with status 200 its result is what [json.loads] makes of the
    body; with any other status it returns [None]; a transport failure is
    not caught and reaches the caller as the exception it is. *)
Theorem C2_get_feeds (cveid : string) (w : world) :
  snd (get_feeds json_loads (PStr cveid) w) =
    log_call (requests_get_call (feed_url cveid)) w /\
  (forall r, requests_get_reply w (feed_url cveid) = Ok r ->
     status_code r = 200%Z ->
     fst (get_feeds json_loads (PStr cveid) w) = json_loads (text r)) /\
  (forall r, requests_get_reply w (feed_url cveid) = Ok r ->
     status_code r <> 200%Z ->
     fst (get_feeds json_loads (PStr cveid) w) = Ok PNone) /\
  (forall e, requests_get_reply w (feed_url cveid) = Raise e ->
     fst (get_feeds json_loads (PStr cveid) w) = Raise e).
Proof.
  rewrite get_feeds_run. simpl. repeat split.
  - intros r -> E. now rewrite E.
  - intros r -> E. apply Z.eqb_neq in E. now rewrite E.
  - intros e ->. reflexivity.
Qed.

End EngineFacts.

(** A transport failure of the feed service is raised to the caller of
    [get_feeds]; it is not turned into [None]. *)
Lemma C2_transport_failure_is_raised :
  ~ (forall (w : world) (cveid : string) (e : exn),
       requests_get_reply w (feed_url cveid) = Raise e ->
       fst (get_feeds Json.loads (PStr cveid) w) = Ok PNone).
Proof.
  intros H.
  specialize (H no_service "CVE-2021-12345" ConnectionError eq_refl).
  vm_compute in H. discriminate H.
Qed.

(** ** The records of the findings *)

Lemma same_services_refl (w : world) : same_services w w.
Proof. split; reflexivity. Qed.

Lemma same_services_trans (w1 w2 w3 : world) :
  same_services w1 w2 -> same_services w2 w3 -> same_services w1 w3.
Proof. intros [A B] [C D]. split; congruence. Qed.

Lemma same_services_sym (w1 w2 : world) :
  same_services w1 w2 -> same_services w2 w1.
Proof. intros [A B]. split; congruence. Qed.

Lemma quiet_step_refl (w : world) : quiet_step w w.
Proof.
  split; [apply same_services_refl|]. split; [reflexivity|].
  exists []. split; [now rewrite app_nil_r | constructor].
Qed.

Lemma quiet_step_trans (w1 w2 w3 : world) :
  quiet_step w1 w2 -> quiet_step w2 w3 -> quiet_step w1 w3.
Proof.
  intros (S1 & R1 & g1 & C1 & F1) (S2 & R2 & g2 & C2 & F2).
  split; [eapply same_services_trans; eauto|]. split; [congruence|].
  exists (g1 ++ g2)%list. split.
  - rewrite C2, C1. now rewrite app_assoc.
  - apply Forall_app. now split.
Qed.

Lemma same_services_log (c : call) (w : world) :
  same_services w (log_call c w).
Proof. split; reflexivity. Qed.

Section HarvestFacts.

Variable json_loads : string -> result pyval.

Lemma get_feeds_quiet (cveid : pyval) (w : world) :
  quiet_step w (snd (get_feeds json_loads cveid w)).
Proof.
  destruct cveid as [| | |s| |]; try apply quiet_step_refl.
  rewrite get_feeds_run. simpl.
  split; [apply same_services_log|]. split; [reflexivity|].
  exists [requests_get_call (feed_url s)]. split; [reflexivity|].
  repeat constructor.
Qed.

Lemma get_feeds_services (cveid : pyval) (w1 w2 : world) :
  same_services w1 w2 ->
  fst (get_feeds json_loads cveid w1) = fst (get_feeds json_loads cveid w2).
Proof.
  intros [_ H]. destruct cveid as [| | |s| |]; try reflexivity.
  rewrite !get_feeds_run. simpl. now rewrite H.
Qed.

Lemma finding_record_quiet (finding : pyval) (w : world) :
  quiet_step w (snd (finding_record json_loads finding w)).
Proof.
  unfold finding_record, bind, lift, ret.
  destruct (py_get finding "id") as [finding_id| |]; try apply quiet_step_refl.
  destruct (for_keys report_keys finding []) as [report| |];
    try apply quiet_step_refl.
  destruct (py_re_match cvepattern finding_id) as [[|]| |];
    try apply quiet_step_refl.
  pose proof (get_feeds_quiet finding_id w) as Q.
  destruct (get_feeds json_loads finding_id w) as [[feeds|e|] w1]; exact Q.
Qed.

Lemma finding_record_services (finding : pyval) (w1 w2 : world) :
  same_services w1 w2 ->
  fst (finding_record json_loads finding w1) =
  fst (finding_record json_loads finding w2).
Proof.
  intros H. unfold finding_record, bind, lift, ret.
  destruct (py_get finding "id") as [finding_id| |]; try reflexivity.
  destruct (for_keys report_keys finding []) as [report| |]; try reflexivity.
  destruct (py_re_match cvepattern finding_id) as [[|]| |]; try reflexivity.
  pose proof (get_feeds_services finding_id w1 w2 H) as E.
  destruct (get_feeds json_loads finding_id w1) as [[f1|e1|] u1],
           (get_feeds json_loads finding_id w2) as [[f2|e2|] u2];
    simpl in *; congruence.
Qed.

(** The records of the findings do not depend on what was gathered before:
    they are appended to it. *)
Lemma for_findings_acc (findings data : list pyval) (w : world) :
  for_findings json_loads findings data w =
  match for_findings json_loads findings [] w with
  | (Ok records, w') => (Ok (data ++ records)%list, w')
  | (Raise e, w') => (Raise e, w')
  | (OutOfFuel, w') => (OutOfFuel, w')
  end.
Proof.
  revert data w. induction findings as [|f fs IH]; intros data w.
  - simpl. unfold ret. now rewrite app_nil_r.
  - cbn [for_findings]. unfold bind.
    destruct (finding_record json_loads f w) as [[record|e|] w1];
      try reflexivity.
    rewrite (IH (data ++ [record])%list), (IH ([] ++ [record])%list).
    destruct (for_findings json_loads fs [] w1) as [[records|e|] w2];
      try reflexivity.
    simpl. now rewrite <- app_assoc.
Qed.

Lemma for_findings_quiet (findings data : list pyval) (w : world) :
  quiet_step w (snd (for_findings json_loads findings data w)).
Proof.
  revert data w. induction findings as [|f fs IH]; intros data w.
  - apply quiet_step_refl.
  - cbn [for_findings]. unfold bind.
    pose proof (finding_record_quiet f w) as Q.
    destruct (finding_record json_loads f w) as [[record|e|] w1];
      simpl in Q; try exact Q.
    eapply quiet_step_trans; [exact Q | apply IH].
Qed.

Lemma for_findings_services (findings data : list pyval) (w1 w2 : world) :
  same_services w1 w2 ->
  fst (for_findings json_loads findings data w1) =
  fst (for_findings json_loads findings data w2).
Proof.
  revert data w1 w2. induction findings as [|f fs IH]; intros data w1 w2 H.
  - reflexivity.
  - cbn [for_findings]. unfold bind.
    pose proof (finding_record_services f w1 w2 H) as E.
    pose proof (finding_record_quiet f w1) as [Q1 _].
    pose proof (finding_record_quiet f w2) as [Q2 _].
    destruct (finding_record json_loads f w1) as [[r1|e1|] u1],
             (finding_record json_loads f w2) as [[r2|e2|] u2];
      simpl in *; try congruence.
    injection E as <-. apply IH.
    eapply same_services_trans; [apply same_services_sym; exact Q1|].
    eapply same_services_trans; [exact H | exact Q2].
Qed.

(** Processing a page in a world with the same services: the result is the
    records of the page appended to [data], one describe call is issued,
    with the ARNs of the page and the locale [EN_US], then feed requests
    only. *)
Lemma process_page_run (page : dict) (data : list pyval) (w0 w : world) :
  same_services w0 w ->
  exists w',
    process_page json_loads page data w =
      (match page_records json_loads w0 page with
       | Ok records => Ok (data ++ records)%list
       | Raise e => Raise e
       | OutOfFuel => OutOfFuel
       end, w') /\
    same_services w w' /\
    list_findings_replies w' = list_findings_replies w /\
    exists gets,
      calls w' = (calls w ++ describe_findings_call (dict_get page "findingArns") "EN_US"
                           :: gets)%list /\
      Forall is_requests_get gets.
Proof.
  intros H. unfold page_records, process_page, bind, lift, describe_findings.
  destruct H as [HD HG]. rewrite <- HD.
  set (call := describe_findings_call (dict_get page "findingArns") "EN_US").
  assert (Q0 : forall r : result (list pyval),
             exists w', (r, log_call call w) = (r, w') /\
               same_services w w' /\
               list_findings_replies w' = list_findings_replies w /\
               exists gets, calls w' = (calls w ++ call :: gets)%list /\
                            Forall is_requests_get gets).
  { intros r. exists (log_call call w). split; [reflexivity|].
    split; [apply same_services_log|]. split; [reflexivity|].
    exists []. split; [reflexivity | constructor]. }
  destruct (describe_findings_reply w0 (dict_get page "findingArns") "EN_US")
    as [response|e|]; [|apply (Q0 (Raise e)) | apply (Q0 OutOfFuel)].
  destruct (py_iter (dict_get response "findings")) as [items|e|];
    [|apply (Q0 (Raise e)) | apply (Q0 OutOfFuel)].
  rewrite (for_findings_acc items data (log_call call w)).
  assert (S0 : same_services (log_call call w0) (log_call call w))
    by (split; simpl; assumption).
  pose proof (for_findings_services items [] _ _ S0) as E.
  pose proof (for_findings_quiet items [] (log_call call w)) as (S1 & R1 & gets & C1 & F1).
  destruct (for_findings json_loads items [] (log_call call w0)) as [r0 u0],
           (for_findings json_loads items [] (log_call call w)) as [r1 u1].
  simpl in *. subst r1. exists u1. split; [destruct r0; reflexivity|].
  split; [exact S1|]. split; [exact R1|].
  exists gets. split; [|exact F1]. rewrite C1. now rewrite <- app_assoc.
Qed.

End HarvestFacts.

(** ** The pagination loop *)

Lemma list_calls_app (l1 l2 : list call) :
  list_calls (l1 ++ l2) = (list_calls l1 ++ list_calls l2)%list.
Proof.
  induction l1 as [|c l1 IH]; simpl; [reflexivity|].
  destruct c; simpl; now rewrite IH.
Qed.

Lemma describe_calls_app (l1 l2 : list call) :
  describe_calls (l1 ++ l2) = (describe_calls l1 ++ describe_calls l2)%list.
Proof.
  induction l1 as [|c l1 IH]; simpl; [reflexivity|].
  destruct c; simpl; now rewrite IH.
Qed.

Lemma list_calls_gets (gets : list call) :
  Forall is_requests_get gets -> list_calls gets = [].
Proof.
  induction 1 as [|c l Hc _ IH]; [reflexivity|].
  destruct c; simpl in *; try contradiction. exact IH.
Qed.

Lemma describe_calls_gets (gets : list call) :
  Forall is_requests_get gets -> describe_calls gets = [].
Proof.
  induction 1 as [|c l Hc _ IH]; [reflexivity|].
  destruct c; simpl in *; try contradiction. exact IH.
Qed.

Section LoopFacts.

Variable json_loads : string -> result pyval.
Variables (runarns : pyval) (filter_input : dict).

(** One turn of the loop. *)
Lemma pull_loop_step (fuel : nat) (nexttoken : pyval) (data : list pyval)
  (w : world) :
  pull_loop json_loads (S fuel) runarns filter_input nexttoken data w =
  match list_findings runarns filter_input (token_sent nexttoken) w with
  | (Ok page, w1) =>
      match process_page json_loads page data w1 with
      | (Ok data', w2) =>
          if carries_token page
          then pull_loop json_loads fuel runarns filter_input
                 (dict_get page "nextToken") data' w2
          else (Ok data', w2)
      | (Raise e, w2) => (Raise e, w2)
      | (OutOfFuel, w2) => (OutOfFuel, w2)
      end
  | (Raise e, w1) => (Raise e, w1)
  | (OutOfFuel, w1) => (OutOfFuel, w1)
  end.
Proof.
  cbn [pull_loop]. unfold token_sent, carries_token, process_page, bind.
  destruct (truthy nexttoken);
    (destruct (list_findings runarns filter_input _ w) as [[page|e|] w1];
     [|reflexivity|reflexivity];
     destruct (describe_findings (dict_get page "findingArns") "EN_US" w1)
       as [[response|e|] w2]; [|reflexivity|reflexivity];
     unfold lift;
     destruct (py_iter (dict_get response "findings")) as [items|e|];
       [|reflexivity|reflexivity];
     destruct (for_findings json_loads items data w2) as [[data'|e|] w3];
       [|reflexivity|reflexivity];
     unfold ret; destruct (truthy (dict_get page "nextToken")); reflexivity).
Qed.

(** The page the findings service hands out next. *)
Lemma list_findings_next (token : option pyval) (w : world) (page : dict)
  (rest : list (result dict)) :
  list_findings_replies w = Ok page :: rest ->
  exists w1,
    list_findings runarns filter_input token w = (Ok page, w1) /\
    same_services w w1 /\
    list_findings_replies w1 = rest /\
    calls w1 = (calls w ++ [list_findings_call runarns filter_input token])%list.
Proof.
  intros H. unfold list_findings. simpl. rewrite H.
  eexists. split; [reflexivity|]. simpl. rewrite H.
  repeat split.
Qed.

(** One turn of the loop on a page whose records can be made. *)
Lemma pull_loop_page (fuel : nat) (nexttoken : pyval) (data : list pyval)
  (w0 w : world) (page : dict) (rest : list (result dict)) :
  same_services w0 w ->
  list_findings_replies w = Ok page :: rest ->
  exists w2,
    pull_loop json_loads (S fuel) runarns filter_input nexttoken data w =
      match page_records json_loads w0 page with
      | Ok records =>
          if carries_token page
          then pull_loop json_loads fuel runarns filter_input
                 (dict_get page "nextToken") (data ++ records)%list w2
          else (Ok (data ++ records)%list, w2)
      | Raise e => (Raise e, w2)
      | OutOfFuel => (OutOfFuel, w2)
      end /\
    same_services w0 w2 /\
    list_findings_replies w2 = rest /\
    exists gets,
      calls w2 =
        (calls w ++ list_findings_call runarns filter_input (token_sent nexttoken)
                 :: describe_findings_call (dict_get page "findingArns") "EN_US"
                 :: gets)%list /\
      Forall is_requests_get gets.
Proof.
  intros S0 R. rewrite pull_loop_step.
  destruct (list_findings_next (token_sent nexttoken) w page rest R)
    as (w1 & L & S1 & R1 & C1).
  rewrite L.
  destruct (process_page_run json_loads page data w0 w1
              (same_services_trans _ _ _ S0 S1))
    as (w2 & P & S2 & R2 & gets & C2 & F2).
  rewrite P. exists w2. split.
  - destruct (page_records json_loads w0 page); reflexivity.
  - split; [eauto using same_services_trans|]. split; [congruence|].
    exists gets. split; [|exact F2]. rewrite C2, C1.
    now rewrite <- app_assoc.
Qed.

(** The turns of the loop over pages that all carry a token. *)
Lemma pull_loop_prefix (pages : list dict) :
  forall (recs : list (list pyval)) (fuel : nat) (nexttoken : pyval)
         (data : list pyval) (w0 w : world) (rest : list (result dict)),
  same_services w0 w ->
  list_findings_replies w = (map Ok pages ++ rest)%list ->
  Forall (fun page => carries_token page = true) pages ->
  Forall2 (fun page records => page_records json_loads w0 page = Ok records)
          pages recs ->
  exists w' nexttoken',
    pull_loop json_loads (length pages + fuel) runarns filter_input nexttoken data w =
      pull_loop json_loads fuel runarns filter_input nexttoken'
                (data ++ concat recs)%list w' /\
    same_services w0 w' /\
    list_findings_replies w' = rest /\
    exists issued,
      calls w' = (calls w ++ issued)%list /\
      (list_calls issued ++ [(runarns, filter_input, token_sent nexttoken')])%list =
        map (fun token => (runarns, filter_input, token))
            (token_sent nexttoken
               :: map (fun page => Some (dict_get page "nextToken")) pages) /\
      describe_calls issued =
        map (fun page => (dict_get page "findingArns", "EN_US")) pages.
Proof.
  induction pages as [|page pages IH];
    intros recs fuel nexttoken data w0 w rest S0 R T P.
  - inversion P; subst. exists w, nexttoken. simpl. rewrite !app_nil_r.
    split; [reflexivity|]. split; [exact S0|]. split; [exact R|].
    exists []. now rewrite app_nil_r.
  - inversion P as [|p records ps recs' Hp Hps]; subst.
    inversion T as [|p ps Tp Tps]; subst.
    simpl in R. cbn [length Nat.add].
    destruct (pull_loop_page (length pages + fuel) nexttoken data w0 w page
                (map Ok pages ++ rest)%list S0 R)
      as (w2 & L & S2 & R2 & gets & C2 & F2).
    rewrite Hp, Tp in L.
    destruct (IH recs' fuel (dict_get page "nextToken") (data ++ records)%list
                w0 w2 rest S2 R2 Tps Hps)
      as (w' & nexttoken' & L' & S' & R' & issued & C' & LC & DC).
    exists w', nexttoken'. split.
    { rewrite L, L'. simpl. now rewrite <- app_assoc. }
    split; [exact S'|]. split; [exact R'|].
    exists (list_findings_call runarns filter_input (token_sent nexttoken)
              :: describe_findings_call (dict_get page "findingArns") "EN_US"
              :: gets ++ issued)%list.
    split.
    { rewrite C', C2. rewrite <- app_assoc. reflexivity. }
    unfold carries_token in Tp. unfold token_sent in LC at 2. rewrite Tp in LC.
    split.
    + cbn [list_calls]. rewrite list_calls_app, (list_calls_gets gets F2).
      simpl. f_equal. exact LC.
    + cbn [describe_calls]. rewrite describe_calls_app, (describe_calls_gets gets F2).
      simpl. f_equal. exact DC.
Qed.

End LoopFacts.

(** ** The harvester *)

Section Harvester.

Variable json_loads : string -> result pyval.

Lemma list_findings_logs (runarns : pyval) (filter_input : dict)
  (token : option pyval) (w : world) :
  calls (snd (list_findings runarns filter_input token w)) =
  (calls w ++ [list_findings_call runarns filter_input token])%list.
Proof.
  unfold list_findings. simpl.
  destruct (list_findings_replies w); reflexivity.
Qed.

Lemma pull_loop_extends (runarns : pyval) (filter_input : dict) (fuel : nat) :
  forall (nexttoken : pyval) (data : list pyval) (w : world),
  exists issued,
    calls (snd (pull_loop json_loads fuel runarns filter_input nexttoken data w)) =
    (calls w ++ issued)%list.
Proof.
  induction fuel as [|fuel IH]; intros nexttoken data w.
  - exists []. simpl. now rewrite app_nil_r.
  - rewrite pull_loop_step.
    pose proof (list_findings_logs runarns filter_input (token_sent nexttoken) w) as L.
    destruct (list_findings runarns filter_input (token_sent nexttoken) w)
      as [[page|e|] w1]; simpl in L; try (eexists; exact L).
    destruct (process_page_run json_loads page data w1 w1 (same_services_refl w1))
      as (w2 & P & _ & _ & gets & C2 & _).
    rewrite P.
    destruct (page_records json_loads w1 page) as [records|e|];
      try (eexists; simpl; rewrite C2, L, <- app_assoc; reflexivity).
    destruct (carries_token page);
      [|eexists; simpl; rewrite C2, L, <- app_assoc; reflexivity].
    destruct (IH (dict_get page "nextToken") (data ++ records)%list w2) as [l Hl].
    eexists. rewrite Hl, C2, L, <- !app_assoc. reflexivity.
Qed.

(** A turn of the loop starts with a [list_findings] call that carries the
    token the loop holds. *)
Lemma pull_loop_first_call (runarns : pyval) (filter_input : dict) (fuel : nat)
  (nexttoken : pyval) (data : list pyval) (w : world) :
  exists later,
    calls (snd (pull_loop json_loads (S fuel) runarns filter_input nexttoken data w)) =
    (calls w ++ list_findings_call runarns filter_input (token_sent nexttoken)
             :: later)%list.
Proof.
  rewrite pull_loop_step.
  pose proof (list_findings_logs runarns filter_input (token_sent nexttoken) w) as L.
  destruct (list_findings runarns filter_input (token_sent nexttoken) w)
    as [[page|e|] w1]; simpl in L; try (exists []; exact L).
  destruct (process_page_run json_loads page data w1 w1 (same_services_refl w1))
    as (w2 & P & _ & _ & gets & C2 & _).
  rewrite P.
  destruct (page_records json_loads w1 page) as [records|e|];
    try (eexists; simpl; rewrite C2, L, <- app_assoc; reflexivity).
  destruct (carries_token page);
    [|eexists; simpl; rewrite C2, L, <- app_assoc; reflexivity].
  destruct (pull_loop_extends runarns filter_input fuel
              (dict_get page "nextToken") (data ++ records)%list w2) as [l Hl].
  eexists. rewrite Hl, C2, L, <- !app_assoc. reflexivity.
Qed.

(** [C1]: when the findings service hands out the pages [earlier] and then
    [final], every page of [earlier] with a token and [final] without, and
    the records of each page can be made, [pull_list_finding] returns the
    records of all the pages, concatenated in the order of the pages.  It
    issues one [list_findings] call per page, the first without a token and
    each later one with the token of the page before, and one
    [describe_findings] call per page, on the ARNs of the page and with the
    locale [EN_US]; it takes no page after [final]. *)
Theorem C1_pagination (fuel : nat) (agentids severities runarns : pyval)
  (w : world) (earlier : list dict) (final : dict)
  (recs : list (list pyval)) (rest : list (result dict)) :
  list_findings_replies w = (map Ok (earlier ++ [final]) ++ rest)%list ->
  Forall (fun page => carries_token page = true) earlier ->
  carries_token final = false ->
  Forall2 (fun page records => page_records json_loads w page = Ok records)
          (earlier ++ [final])%list recs ->
  length earlier < fuel ->
  exists w' issued,
    pull_list_finding json_loads fuel agentids severities runarns w =
      (Ok (PList (concat recs)), w') /\
    calls w' = (calls w ++ issued)%list /\
    list_calls issued =
      map (fun token =>
             (runarns, [("agentIds", agentids); ("severities", severities)], token))
          (expected_tokens earlier) /\
    describe_calls issued =
      map (fun page => (dict_get page "findingArns", "EN_US"))
          (earlier ++ [final])%list /\
    list_findings_replies w' = rest.
Proof.
  intros R T F P Hfuel.
  apply Forall2_app_inv_l in P.
  destruct P as (recs1 & recs2 & P1 & P2 & ->).
  inversion P2 as [|p records ps rs Hfinal Hnil]; subst. inversion Hnil; subst.
  rewrite map_app, <- app_assoc in R. simpl in R.
  set (filter_input := [("agentIds", agentids); ("severities", severities)]).
  destruct fuel as [|fuel]; [lia|].
  assert (Hf : S fuel = length earlier + S (fuel - length earlier)) by lia.
  destruct (pull_loop_prefix json_loads runarns filter_input earlier recs1
              (S (fuel - length earlier)) PNone [] w w (Ok final :: rest)
              (same_services_refl w) R T P1)
    as (w1 & tok & L1 & S1 & R1 & issued1 & C1 & LC1 & DC1).
  destruct (pull_loop_page json_loads runarns filter_input
              (fuel - length earlier) tok ([] ++ concat recs1)%list w w1 final rest
              S1 R1)
    as (w2 & L2 & S2 & R2 & gets & C2 & F2).
  rewrite Hfinal, F in L2.
  exists w2.
  exists (issued1 ++ list_findings_call runarns filter_input (token_sent tok)
            :: describe_findings_call (dict_get final "findingArns") "EN_US"
            :: gets)%list.
  split.
  { unfold pull_list_finding, bind, ret.
    change (dict_set (dict_set [] "agentIds" agentids) "severities" severities)
      with filter_input.
    rewrite Hf, L1, L2. simpl.
    rewrite concat_app. simpl. now rewrite app_nil_r. }
  split; [rewrite C2, C1, <- app_assoc; reflexivity|].
  split; [|split; [|exact R2]].
  - rewrite list_calls_app. cbn [list_calls].
    rewrite (list_calls_gets gets F2). exact LC1.
  - rewrite describe_calls_app. cbn [describe_calls].
    rewrite (describe_calls_gets gets F2), DC1, map_app. reflexivity.
Qed.

(** [C9]: after a page whose records can be made, the loop goes on exactly
    when the [nextToken] of the page counts as true.  With a token that
    counts as false (none, or one such as the empty string) the method
    returns what it has gathered and calls nothing more; with a token that
    counts as true the next turn starts with a [list_findings] call that
    carries this token. *)
Theorem C9_loop_continues_iff_truthy (fuel : nat)
  (runarns : pyval) (filter_input : dict)
  (nexttoken : pyval) (data : list pyval) (w : world) (page : dict)
  (records : list pyval) (rest : list (result dict)) :
  list_findings_replies w = Ok page :: rest ->
  page_records json_loads w page = Ok records ->
  exists w1,
    list_findings_replies w1 = rest /\
    (truthy (dict_get page "nextToken") = false ->
       pull_loop json_loads (S fuel) runarns filter_input nexttoken data w =
         (Ok (data ++ records)%list, w1)) /\
    (truthy (dict_get page "nextToken") = true ->
       pull_loop json_loads (S (S fuel)) runarns filter_input nexttoken data w =
         pull_loop json_loads (S fuel) runarns filter_input
                   (dict_get page "nextToken") (data ++ records)%list w1 /\
       exists later,
         calls (snd (pull_loop json_loads (S (S fuel)) runarns filter_input
                               nexttoken data w)) =
         (calls w1 ++ list_findings_call runarns filter_input
                        (Some (dict_get page "nextToken")) :: later)%list).
Proof.
  intros R P.
  destruct (pull_loop_page json_loads runarns filter_input fuel nexttoken data
              w w page rest (same_services_refl w) R)
    as (w1 & L1 & _ & R1 & _).
  destruct (pull_loop_page json_loads runarns filter_input (S fuel) nexttoken data
              w w page rest (same_services_refl w) R)
    as (w2 & L2 & _ & R2 & _).
  rewrite P in L1, L2. unfold carries_token in L1, L2.
  destruct (truthy (dict_get page "nextToken")) eqn:T.
  - exists w2. split; [exact R2|]. split; [discriminate|]. intros _.
    split; [exact L2|]. rewrite L2.
    destruct (pull_loop_first_call runarns filter_input fuel
                (dict_get page "nextToken") (data ++ records)%list w2)
      as [later H].
    exists later. rewrite H. unfold token_sent. now rewrite T.
  - exists w1. split; [exact R1|]. split; [intros _; exact L1 | discriminate].
Qed.

Lemma for_keys_first_missing (keys : list string) (d : dict) :
  forall (report : dict) (key : string),
  first_missing keys d = Some key ->
  for_keys keys (PDict d) report = Raise (KeyError key).
Proof.
  induction keys as [|k keys IH]; intros report key H; [discriminate|].
  simpl in *. destruct (dict_lookup d k) as [v|].
  - now apply IH.
  - now injection H as ->.
Qed.

Lemma first_missing_exists (keys : list string) (d : dict) :
  (exists key, In key keys /\ dict_lookup d key = None) ->
  exists key, first_missing keys d = Some key /\
              In key keys /\ dict_lookup d key = None.
Proof.
  induction keys as [|k keys IH]; intros (key & Hin & Hnone); [destruct Hin|].
  simpl. destruct (dict_lookup d k) as [v|] eqn:E.
  - destruct Hin as [-> | Hin]; [congruence|].
    destruct IH as (key' & H1 & H2 & H3); [now exists key|].
    exists key'. auto.
  - exists k. auto.
Qed.

(** A finding that lacks a field of the report gives no record: building
    its report raises [KeyError], before the identifier is looked at. *)
Lemma finding_record_missing (d : dict) (key : string) (w : world) :
  first_missing report_keys d = Some key ->
  finding_record json_loads (PDict d) w = (Raise (KeyError key), w).
Proof.
  intros H. unfold finding_record, bind, lift. simpl py_get. cbv iota.
  now rewrite (for_keys_first_missing report_keys d [] key H).
Qed.

Lemma for_findings_missing (before after : list pyval) (d : dict)
  (key : string) :
  forall (records data : list pyval) (w : world),
  fst (for_findings json_loads before [] w) = Ok records ->
  first_missing report_keys d = Some key ->
  fst (for_findings json_loads (before ++ PDict d :: after)%list data w) =
  Raise (KeyError key).
Proof.
  induction before as [|f fs IH]; intros records data w B FM.
  - simpl. unfold bind. now rewrite (finding_record_missing d key w FM).
  - rewrite <- app_comm_cons. cbn [for_findings] in B |- *.
    unfold bind in B |- *.
    destruct (finding_record json_loads f w) as [[r|e|] w2];
      simpl in B; try discriminate.
    rewrite for_findings_acc in B.
    destruct (for_findings json_loads fs [] w2) as [[rs|e|] w3] eqn:E;
      simpl in B; try discriminate.
    apply (IH rs (data ++ [r])%list w2); [now rewrite E | exact FM].
Qed.

(** [C10]: when a finding that [describe_findings] returns lacks one of
    the four fields, and nothing went wrong before it, [pull_list_finding]
    raises [KeyError] for a field the finding lacks; the result carries no
    record, so those gathered from the findings and pages before are
    gone. *)
Theorem C10_missing_field_raises (fuel : nat) (agentids severities runarns : pyval)
  (w : world) (pages : list dict) (recs : list (list pyval)) (page : dict)
  (rest : list (result dict)) (response : dict)
  (before after : list pyval) (d : dict) (records : list pyval) :
  list_findings_replies w = (map Ok pages ++ Ok page :: rest)%list ->
  Forall (fun p => carries_token p = true) pages ->
  Forall2 (fun p rs => page_records json_loads w p = Ok rs) pages recs ->
  describe_findings_reply w (dict_get page "findingArns") "EN_US" = Ok response ->
  py_iter (dict_get response "findings") = Ok (before ++ PDict d :: after)%list ->
  fst (for_findings json_loads before [] w) = Ok records ->
  (exists key, In key report_keys /\ dict_lookup d key = None) ->
  length pages < fuel ->
  exists key w',
    In key report_keys /\ dict_lookup d key = None /\
    pull_list_finding json_loads fuel agentids severities runarns w =
      (Raise (KeyError key), w').
Proof.
  intros R T P D I B M Hfuel.
  apply first_missing_exists in M. destruct M as (key & FM & Hin & Hnone).
  exists key.
  assert (PR : page_records json_loads w page = Raise (KeyError key)).
  { unfold page_records, process_page, bind, lift, describe_findings.
    rewrite D, I. cbn [fst snd].
    rewrite (for_findings_services json_loads before [] w _
               (same_services_log
                  (describe_findings_call (dict_get page "findingArns") "EN_US")
                  w)) in B.
    exact (for_findings_missing before after d key records [] _ B FM). }
  set (filter_input := [("agentIds", agentids); ("severities", severities)]).
  destruct fuel as [|fuel]; [lia|].
  assert (Hf : S fuel = length pages + S (fuel - length pages)) by lia.
  destruct (pull_loop_prefix json_loads runarns filter_input pages recs
              (S (fuel - length pages)) PNone [] w w (Ok page :: rest)
              (same_services_refl w) R T P)
    as (w1 & tok & L1 & S1 & R1 & _).
  destruct (pull_loop_page json_loads runarns filter_input
              (fuel - length pages) tok ([] ++ concat recs)%list w w1 page rest
              S1 R1)
    as (w2 & L2 & _).
  rewrite PR in L2. exists w2. repeat split; auto.
  unfold pull_list_finding, bind, ret.
  change (dict_set (dict_set [] "agentIds" agentids) "severities" severities)
    with filter_input.
  now rewrite Hf, L1, L2.
Qed.

(** [C5]: for a finding with the four fields and a string as its [id], the
    report of the record holds exactly [title], [description], [severity]
    and [recommendation], with the values of the finding; the record is
    [id] and [report] when the identifier does not match the pattern, and
    [id], [report] and [feeds], with [feeds] what [get_feeds] returns for
    the identifier, when it matches. *)
Theorem C5_finding_record (d : dict) (finding_id : string)
  (title description severity recommendation : pyval) (w : world) :
  dict_get d "id" = PStr finding_id ->
  dict_lookup d "title" = Some title ->
  dict_lookup d "description" = Some description ->
  dict_lookup d "severity" = Some severity ->
  dict_lookup d "recommendation" = Some recommendation ->
  let report :=
    PDict [("title", title); ("description", description);
           ("severity", severity); ("recommendation", recommendation)] in
  (is_cve finding_id = false ->
     finding_record json_loads (PDict d) w =
       (Ok (PDict [("id", PStr finding_id); ("report", report)]), w)) /\
  (is_cve finding_id = true ->
     finding_record json_loads (PDict d) w =
       (match fst (get_feeds json_loads (PStr finding_id) w) with
        | Ok feeds =>
            Ok (PDict [("id", PStr finding_id); ("report", report);
                       ("feeds", feeds)])
        | Raise e => Raise e
        | OutOfFuel => OutOfFuel
        end,
        snd (get_feeds json_loads (PStr finding_id) w))).
Proof.
  intros Hid Ht Hd Hs Hr report.
  unfold finding_record, bind, lift, ret. simpl py_get. cbv iota.
  rewrite Hid. simpl for_keys. rewrite Ht, Hd, Hs, Hr. simpl.
  fold (is_cve finding_id). split; intros ->.
  - reflexivity.
  - destruct (get_feeds json_loads (PStr finding_id) w) as [[feeds|e|] w1];
      reflexivity.
Qed.

End Harvester.

(** ** The report and the [json] library *)

Module JsonFacts.

Import Json.

(** *** String literals *)

Lemma scanstring_escape_char (c : ascii) (rest : string) :
  scanstring (escape_char c ++ rest) = prepend (Some c) (scanstring rest).
Proof.
  destruct c as [b0 b1 b2 b3 b4 b5 b6 b7].
  destruct b0, b1, b2, b3, b4, b5, b6, b7; reflexivity.
Qed.

Lemma scanstring_escape (s rest : string) :
  scanstring (escape s ++ String dquote rest) = Scanned (Some s) rest.
Proof.
  induction s as [|c s IH]; simpl.
  - reflexivity.
  - rewrite append_assoc, scanstring_escape_char, IH. reflexivity.
Qed.

Lemma scanstring_literal (s rest : string) :
  exists body,
    encode_basestring_ascii s ++ rest = String dquote body /\
    scanstring body = Scanned (Some s) rest.
Proof.
  exists (escape s ++ String dquote rest). split.
  - unfold encode_basestring_ascii. simpl. now rewrite append_assoc.
  - apply scanstring_escape.
Qed.

(** *** Integers *)

Lemma delimited_no_digit (rest : string) :
  delimited rest -> starts_with_digit rest = false.
Proof.
  destruct rest as [|c rest]; [reflexivity|].
  intros [-> | ->]; reflexivity.
Qed.

Lemma delimited_no_float (rest : string) :
  delimited rest -> fraction rest = None /\ exponent rest = None.
Proof.
  destruct rest as [|c rest]; [split; reflexivity|].
  intros [-> | ->]; split; reflexivity.
Qed.

Lemma digit_run_uint (d : uint) (rest : string) :
  starts_with_digit rest = false ->
  digit_run (NilEmpty.string_of_uint d ++ rest) =
  (NilEmpty.string_of_uint d, rest).
Proof.
  intros H. induction d; simpl; try (rewrite IHd; reflexivity).
  destruct rest as [|c rest]; [reflexivity|].
  simpl in *. now rewrite H.
Qed.

(** The decimal digits of a positive number do not start with 0. *)
Lemma to_uint_head (p : positive) :
  match Pos.to_uint p with
  | Nil | D0 _ => False
  | _ => True
  end.
Proof.
  assert (N : unorm (Pos.to_uint p) = Pos.to_uint p).
  { rewrite <- (DecimalPos.Unsigned.to_of (Pos.to_uint p)).
    now rewrite DecimalPos.Unsigned.of_to. }
  pose proof (DecimalPos.Unsigned.to_uint_nonzero p) as NZ.
  pose proof (DecimalPos.Unsigned.to_uint_nonnil p) as NN.
  destruct (Pos.to_uint p) as [|d| | | | | | | | |]; try exact I.
  - now apply NN.
  - rewrite DecimalFacts.unorm_D0 in N.
    destruct (nzhead d) eqn:E.
    + unfold unorm in N. rewrite E in N. injection N as <-. now apply NZ.
    + pose proof (DecimalFacts.nb_digits_nzhead d) as L.
      rewrite DecimalFacts.unorm_nzhead in N by (rewrite E; discriminate).
      rewrite N in L. simpl in L. lia.
    + rewrite DecimalFacts.unorm_nzhead in N by (rewrite E; discriminate).
      rewrite N in E. discriminate.
    + rewrite DecimalFacts.unorm_nzhead in N by (rewrite E; discriminate).
      rewrite N in E. discriminate.
    + rewrite DecimalFacts.unorm_nzhead in N by (rewrite E; discriminate).
      rewrite N in E. discriminate.
    + rewrite DecimalFacts.unorm_nzhead in N by (rewrite E; discriminate).
      rewrite N in E. discriminate.
    + rewrite DecimalFacts.unorm_nzhead in N by (rewrite E; discriminate).
      rewrite N in E. discriminate.
    + rewrite DecimalFacts.unorm_nzhead in N by (rewrite E; discriminate).
      rewrite N in E. discriminate.
    + rewrite DecimalFacts.unorm_nzhead in N by (rewrite E; discriminate).
      rewrite N in E. discriminate.
    + rewrite DecimalFacts.unorm_nzhead in N by (rewrite E; discriminate).
      rewrite N in E. discriminate.
    + rewrite DecimalFacts.unorm_nzhead in N by (rewrite E; discriminate).
      rewrite N in E. discriminate.
Qed.

Lemma integer_part_positive (p : positive) (rest : string) :
  starts_with_digit rest = false ->
  integer_part (NilZero.string_of_uint (Pos.to_uint p) ++ rest) =
  Some (NilZero.string_of_uint (Pos.to_uint p), rest).
Proof.
  intros H. pose proof (to_uint_head p) as Hd.
  destruct (Pos.to_uint p) as [|d|d|d|d|d|d|d|d|d|d]; try contradiction;
    unfold integer_part; simpl; rewrite (digit_run_uint d rest H); reflexivity.
Qed.

Lemma integer_part_repr (z : Z) (rest : string) :
  starts_with_digit rest = false ->
  integer_part (int_repr z ++ rest) = Some (int_repr z, rest).
Proof.
  intros H. unfold int_repr. destruct z as [|p|p].
  - reflexivity.
  - apply integer_part_positive, H.
  - simpl Z.to_int. cbn [NilZero.string_of_int].
    pose proof (integer_part_positive p rest H) as E.
    pose proof (to_uint_head p) as Hd.
    destruct (Pos.to_uint p) as [|d|d|d|d|d|d|d|d|d|d]; try contradiction;
      unfold integer_part in *; simpl in *;
      rewrite (digit_run_uint d rest H) in *; reflexivity.
Qed.

Lemma int_of_string_repr (z : Z) :
  NilZero.int_of_string (int_repr z) = Some (Z.to_int z).
Proof.
  unfold int_repr. destruct z as [|p|p].
  - reflexivity.
  - apply NilZero.isi; simpl; intros [= E];
      now apply (DecimalPos.Unsigned.to_uint_nonnil p).
  - apply NilZero.isi; simpl; intros [= E];
      now apply (DecimalPos.Unsigned.to_uint_nonnil p).
Qed.

Lemma parse_number_repr (z : Z) (rest : string) :
  within_int_limit z = true ->
  delimited rest ->
  parse_number (int_repr z ++ rest) = Scanned (Some (PInt z)) rest.
Proof.
  intros L H. unfold parse_number, parse_int.
  rewrite (integer_part_repr z rest (delimited_no_digit rest H)).
  destruct (delimited_no_float rest H) as [-> ->].
  rewrite int_of_string_repr, DecimalZ.of_to, L. reflexivity.
Qed.

(** The first character of an integer is a digit or the minus sign. *)
Lemma int_repr_head (z : Z) :
  exists c tl, int_repr z = String c tl /\ (is_digit c = true \/ c = "-"%char).
Proof.
  unfold int_repr. destruct z as [|p|p].
  - exists "0"%char, EmptyString. split; [reflexivity | now left].
  - pose proof (to_uint_head p) as Hd. simpl.
    destruct (Pos.to_uint p) as [|d|d|d|d|d|d|d|d|d|d]; try contradiction;
      simpl; eexists; eexists; (split; [reflexivity | now left]).
  - simpl. eexists; eexists; (split; [reflexivity | now right]).
Qed.

Lemma scan_once_number (fuel : nat) (c : ascii) (s : string) (found : string * string) :
  is_digit c = true \/ c = "-"%char ->
  integer_part (String c s) = Some found ->
  scan_once (S fuel) (String c s) = parse_number (String c s).
Proof.
  intros H F.
  assert (E : scan_once (S fuel) (String c s) =
              match integer_part (String c s) with
              | Some _ => parse_number (String c s)
              | None => if (c =? "-")%char then constant "Infinity" None s
                        else Refused
              end).
  { destruct H as [H | ->]; [|reflexivity].
    destruct c as [b0 b1 b2 b3 b4 b5 b6 b7].
    destruct b0, b1, b2, b3, b4, b5, b6, b7; try discriminate H; reflexivity. }
  rewrite E, F. reflexivity.
Qed.

Lemma scan_once_int (fuel : nat) (z : Z) (rest : string) :
  within_int_limit z = true ->
  delimited rest ->
  scan_once (S fuel) (int_repr z ++ rest) = Scanned (Some (PInt z)) rest.
Proof.
  intros L H. destruct (int_repr_head z) as (c & tl & E & Hc).
  rewrite <- (parse_number_repr z rest L H).
  pose proof (integer_part_repr z rest (delimited_no_digit rest H)) as F.
  rewrite E in *. cbn [append] in *.
  now apply (scan_once_number fuel c (tl ++ rest) (String c tl, rest)).
Qed.

Lemma scan_once_str (fuel : nat) (s rest : string) :
  scan_once (S fuel) (encode_basestring_ascii s ++ rest) =
  Scanned (Some (PStr s)) rest.
Proof.
  unfold encode_basestring_ascii. cbn [append scan_once].
  rewrite Ascii.eqb_refl, append_assoc. cbn [append].
  now rewrite scanstring_escape.
Qed.

(** *** White space and the first character of a value *)

Lemma skip_ws_solid (s : string) : solid_head s -> skip_ws s = s.
Proof. destruct s as [|c s]; simpl; [reflexivity | now intros ->]. Qed.

Lemma skip_ws_spaces (n : nat) (s : string) :
  skip_ws (spaces n ++ s) = skip_ws s.
Proof. induction n as [|n IH]; simpl; [reflexivity | exact IH]. Qed.

Lemma skip_ws_newline_indent (level : nat) (s : string) :
  skip_ws (newline_indent level ++ s) = skip_ws s.
Proof. unfold newline_indent. simpl. apply skip_ws_spaces. Qed.

Lemma delimited_newline_indent (level : nat) (s : string) :
  delimited (newline_indent level ++ s).
Proof. simpl. now right. Qed.

Lemma value_head_solid (c : ascii) :
  value_head c = true ->
  is_ws c = false /\ (c =? "]")%char = false /\ (c =? "}")%char = false.
Proof.
  destruct c as [b0 b1 b2 b3 b4 b5 b6 b7].
  destruct b0, b1, b2, b3, b4, b5, b6, b7; intros H; try discriminate H;
    repeat split.
Qed.

Lemma encode_head (level : nat) (o : pyval) :
  exists c tl, encode level o = String c tl /\ value_head c = true.
Proof.
  destruct o as [|[|]|z|s|[|x l]|[|kv d]];
    try (eexists; eexists; split; [reflexivity | reflexivity]).
  destruct (int_repr_head z) as (c & tl & E & [Hc | ->]).
  - exists c, tl. split; [exact E|]. unfold value_head. now rewrite Hc.
  - exists "-"%char, tl. split; [exact E | reflexivity].
Qed.

Lemma encode_solid (level : nat) (o : pyval) (rest : string) :
  solid_head (encode level o ++ rest).
Proof.
  destruct (encode_head level o) as (c & tl & E & H). rewrite E. simpl.
  now apply value_head_solid.
Qed.

Lemma encode_not_closing (level : nat) (o : pyval) (rest : string) :
  exists c tl, encode level o ++ rest = String c tl /\
               (c =? "]")%char = false /\ (c =? "}")%char = false.
Proof.
  destruct (encode_head level o) as (c & tl & E & H).
  exists c, (tl ++ rest). rewrite E. split; [reflexivity|].
  now apply value_head_solid.
Qed.

Lemma encode_nonempty (level : nat) (o : pyval) :
  1 <= String.length (encode level o).
Proof.
  destruct (encode_head level o) as (c & tl & E & _). rewrite E. simpl. lia.
Qed.

(** *** Joined chunks *)

Lemma join_cons (sep x : string) (l : list string) :
  l <> [] -> join sep (x :: l) = x ++ sep ++ join sep l.
Proof. destruct l; [congruence | reflexivity]. Qed.

Lemma length_join (sep : string) (chunks : list string) :
  (forall x, In x chunks -> 1 <= String.length x) ->
  length chunks <= String.length (join sep chunks).
Proof.
  induction chunks as [|x l IH]; intros H; [simpl; lia|].
  destruct l as [|y l].
  - simpl. specialize (H x (or_introl eq_refl)). lia.
  - rewrite join_cons by discriminate. rewrite !length_append.
    specialize (IH (fun z Hz => H z (or_intror Hz))).
    specialize (H x (or_introl eq_refl)). simpl length in *. lia.
Qed.

Lemma join_solid (sep : string) (chunks : list string) (t : string) :
  chunks <> [] ->
  (forall x r, In x chunks -> solid_head (x ++ r)) ->
  solid_head (join sep chunks ++ t).
Proof.
  destruct chunks as [|x l]; [congruence|]. intros _ H.
  destruct l as [|y l].
  - apply H. now left.
  - rewrite join_cons by discriminate. rewrite append_assoc.
    apply H. now left.
Qed.

(** *** Arrays *)

Section Arrays.

Variable scan : string -> scanned pyval.
Variable level : nat.

Lemma parse_items_more (fuel : nat) (s : string) (values : list pyval)
  (x : pyval) (t : string) :
  scan s = Scanned (Some x) (String "," t) ->
  parse_items scan (S fuel) s (Some values) =
  parse_items scan fuel (skip_ws t) (Some (values ++ [x])%list).
Proof. intros H. cbn [parse_items]. now rewrite H. Qed.

Lemma parse_items_last (fuel : nat) (s : string) (values : list pyval)
  (x : pyval) (t rest : string) :
  scan s = Scanned (Some x) t ->
  skip_ws t = String "]" rest ->
  parse_items scan (S fuel) s (Some values) =
  Scanned (Some (PList (values ++ [x])%list)) rest.
Proof. intros H E. cbn [parse_items]. now rewrite H, E. Qed.

Lemma parse_items_encode (items : list pyval) :
  forall (values : list pyval) (fuel : nat) (rest : string),
  (forall x r, In x items -> delimited r ->
     scan (encode (S level) x ++ r) = Scanned (Some x) r) ->
  items <> [] ->
  length items <= fuel ->
  parse_items scan fuel
    (join (item_separator (S level)) (map (encode (S level)) items)
       ++ newline_indent level ++ String "]" rest) (Some values) =
  Scanned (Some (PList (values ++ items)%list)) rest.
Proof.
  induction items as [|x l IH]; intros values fuel rest H NE L; [congruence|].
  destruct fuel as [|fuel]; [simpl in L; lia|].
  destruct l as [|y l].
  - simpl join.
    apply (parse_items_last fuel _ values x
             (newline_indent level ++ String "]" rest) rest).
    + apply H; [now left | apply delimited_newline_indent].
    + now rewrite skip_ws_newline_indent.
  - cbn [map]. rewrite join_cons by discriminate.
    rewrite !append_assoc.
    rewrite (parse_items_more fuel _ values x
               (newline_indent (S level)
                  ++ join (item_separator (S level))
                          (encode (S level) y :: map (encode (S level)) l)
                  ++ newline_indent level ++ String "]" rest)).
    + rewrite skip_ws_newline_indent.
      change (encode (S level) y :: map (encode (S level)) l)
        with (map (encode (S level)) (y :: l)).
      rewrite skip_ws_solid.
      * rewrite IH.
        -- now rewrite <- app_assoc.
        -- intros z r Hz Hr. apply H; [now right | exact Hr].
        -- discriminate.
        -- simpl in *. lia.
      * apply join_solid; [discriminate|].
        intros z r Hz. apply in_map_iff in Hz. destruct Hz as (v & <- & _).
        apply encode_solid.
    + apply H; [now left | simpl; now left].
Qed.

Lemma parse_array_encode (x : pyval) (l : list pyval) (rest : string) :
  (forall y r, In y (x :: l) -> delimited r ->
     scan (encode (S level) y ++ r) = Scanned (Some y) r) ->
  parse_array scan
    (newline_indent (S level)
       ++ join (item_separator (S level)) (map (encode (S level)) (x :: l))
       ++ newline_indent level ++ String "]" rest) =
  Scanned (Some (PList (x :: l))) rest.
Proof.
  intros H. unfold parse_array. rewrite skip_ws_newline_indent.
  assert (Hs : solid_head
                 (join (item_separator (S level)) (map (encode (S level)) (x :: l))
                    ++ newline_indent level ++ String "]" rest)).
  { apply join_solid; [discriminate|]. intros z r Hz.
    apply in_map_iff in Hz. destruct Hz as (v & <- & _). apply encode_solid. }
  rewrite (skip_ws_solid _ Hs).
  assert (Hc : exists c tl,
             join (item_separator (S level)) (map (encode (S level)) (x :: l))
               ++ newline_indent level ++ String "]" rest = String c tl /\
             (c =? "]")%char = false).
  { destruct l as [|y l].
    - simpl join.
      destruct (encode_not_closing (S level) x
                  (newline_indent level ++ String "]" rest))
        as (c & tl & E & C & _).
      exists c, tl. auto.
    - cbn [map]. rewrite join_cons by discriminate. rewrite append_assoc.
      destruct (encode_not_closing (S level) x
                  ((item_separator (S level)
                      ++ join (item_separator (S level))
                              (encode (S level) y :: map (encode (S level)) l))
                     ++ newline_indent level ++ String "]" rest))
        as (c & tl & E & C & _).
      exists c, tl. auto. }
  destruct Hc as (c & tl & E & C).
  rewrite E, C, <- E.
  rewrite (parse_items_encode (x :: l) [] _ rest H); [reflexivity | discriminate |].
  rewrite !length_append.
  pose proof (length_join (item_separator (S level)) (map (encode (S level)) (x :: l))) as LJ.
  rewrite length_map in LJ.
  assert (length (x :: l) <=
          String.length (join (item_separator (S level))
                              (map (encode (S level)) (x :: l)))).
  { apply LJ. intros z Hz. apply in_map_iff in Hz.
    destruct Hz as (v & <- & _). apply encode_nonempty. }
  lia.
Qed.

End Arrays.

(** *** Dictionaries *)

Lemma distinct_middle (a b : list string) (k : string) :
  distinct (a ++ k :: b)%list = true -> existsb (String.eqb k) a = false.
Proof.
  induction a as [|x a IH]; simpl; [reflexivity|].
  intros H. apply andb_true_iff in H. destruct H as [H1 H2].
  apply negb_true_iff in H1. rewrite existsb_app in H1.
  apply orb_false_iff in H1. destruct H1 as [_ H1]. simpl in H1.
  apply orb_false_iff in H1. destruct H1 as [H1 _].
  rewrite String.eqb_sym, H1. simpl. now apply IH.
Qed.

Lemma dict_set_fresh (d : dict) (k : string) (v : pyval) :
  existsb (String.eqb k) (map fst d) = false ->
  dict_set d k v = (d ++ [(k, v)])%list.
Proof.
  induction d as [|[k' v'] d IH]; simpl; [reflexivity|].
  intros H. apply orb_false_iff in H. destruct H as [H1 H2].
  rewrite H1. now rewrite IH.
Qed.

Lemma fold_dict_set_distinct (pairs : list (string * pyval)) :
  forall d : dict,
  distinct (map fst (d ++ pairs)%list) = true ->
  fold_left (fun d kv => dict_set d (fst kv) (snd kv)) pairs d = (d ++ pairs)%list.
Proof.
  induction pairs as [|[k v] pairs IH]; intros d H; simpl.
  - now rewrite app_nil_r.
  - rewrite dict_set_fresh.
    + rewrite IH; rewrite <- app_assoc; [reflexivity | exact H].
    + rewrite map_app in H. simpl in H. now apply distinct_middle in H.
Qed.

Lemma dict_of_pairs_distinct (d : dict) :
  distinct (map fst d) = true -> dict_of_pairs d = d.
Proof. intros H. unfold dict_of_pairs. now rewrite fold_dict_set_distinct. Qed.

Lemma skip_ws_colon (s : string) : skip_ws (String ":" s) = String ":" s.
Proof. reflexivity. Qed.

Lemma skip_ws_space (s : string) : skip_ws (String " " s) = skip_ws s.
Proof. reflexivity. Qed.

Lemma member_text_solid (level : nat) (kv : string * pyval) (r : string) :
  solid_head (member_text level kv ++ r).
Proof. reflexivity. Qed.

Section Objects.

Variable scan : string -> scanned pyval.
Variable level : nat.

Lemma parse_members_more (fuel : nat) (kv : string * pyval) (r t : string)
  (pairs : list (string * pyval)) :
  scan (encode (S level) (snd kv) ++ r) = Scanned (Some (snd kv)) r ->
  r = String "," t ->
  parse_members scan (S fuel) (member_text (S level) kv ++ r) (Some pairs) =
  parse_members scan fuel (skip_ws t) (Some (pairs ++ [kv])%list).
Proof.
  intros H ->. destruct kv as [k v]. unfold member_text, encode_basestring_ascii.
  simpl fst in *. simpl snd in *.
  cbn [append parse_members]. rewrite Ascii.eqb_refl.
  rewrite !append_assoc. cbn [append]. rewrite scanstring_escape.
  rewrite skip_ws_colon. cbv beta iota.
  change ((":" =? ":")%char) with true. cbv iota.
  rewrite skip_ws_space, (skip_ws_solid _ (encode_solid (S level) v _)).
  rewrite H. reflexivity.
Qed.

Lemma parse_members_last (fuel : nat) (kv : string * pyval) (r rest : string)
  (pairs : list (string * pyval)) :
  scan (encode (S level) (snd kv) ++ r) = Scanned (Some (snd kv)) r ->
  skip_ws r = String "}" rest ->
  parse_members scan (S fuel) (member_text (S level) kv ++ r) (Some pairs) =
  Scanned (Some (PDict (dict_of_pairs (pairs ++ [kv])%list))) rest.
Proof.
  intros H E. destruct kv as [k v]. unfold member_text, encode_basestring_ascii.
  simpl fst in *. simpl snd in *.
  cbn [append parse_members]. rewrite Ascii.eqb_refl.
  rewrite !append_assoc. cbn [append]. rewrite scanstring_escape.
  rewrite skip_ws_colon. cbv beta iota.
  change ((":" =? ":")%char) with true. cbv iota.
  rewrite skip_ws_space, (skip_ws_solid _ (encode_solid (S level) v _)).
  rewrite H, E. reflexivity.
Qed.

Lemma parse_members_encode (d : dict) :
  forall (pairs : list (string * pyval)) (fuel : nat) (rest : string),
  (forall kv r, In kv d -> delimited r ->
     scan (encode (S level) (snd kv) ++ r) = Scanned (Some (snd kv)) r) ->
  d <> [] ->
  length d <= fuel ->
  parse_members scan fuel
    (join (item_separator (S level)) (map (member_text (S level)) d)
       ++ newline_indent level ++ String "}" rest) (Some pairs) =
  Scanned (Some (PDict (dict_of_pairs (pairs ++ d)%list))) rest.
Proof.
  induction d as [|kv l IH]; intros pairs fuel rest H NE L; [congruence|].
  destruct fuel as [|fuel]; [simpl in L; lia|].
  destruct l as [|kv' l].
  - simpl join.
    apply (parse_members_last fuel kv (newline_indent level ++ String "}" rest)).
    + apply H; [now left | apply delimited_newline_indent].
    + now rewrite skip_ws_newline_indent.
  - cbn [map]. rewrite join_cons by discriminate.
    rewrite !append_assoc.
    rewrite (parse_members_more fuel kv _
               (newline_indent (S level)
                  ++ join (item_separator (S level))
                          (member_text (S level) kv' :: map (member_text (S level)) l)
                  ++ newline_indent level ++ String "}" rest)).
    + rewrite skip_ws_newline_indent.
      change (member_text (S level) kv' :: map (member_text (S level)) l)
        with (map (member_text (S level)) (kv' :: l)).
      rewrite skip_ws_solid.
      * rewrite IH.
        -- now rewrite <- app_assoc.
        -- intros z r Hz Hr. apply H; [now right | exact Hr].
        -- discriminate.
        -- simpl in *. lia.
      * apply join_solid; [discriminate|].
        intros z r Hz. apply in_map_iff in Hz. destruct Hz as (v & <- & _).
        apply member_text_solid.
    + apply H; [now left | simpl; now left].
    + reflexivity.
Qed.

Lemma parse_object_encode (kv : string * pyval) (d : dict) (rest : string) :
  (forall e r, In e (kv :: d) -> delimited r ->
     scan (encode (S level) (snd e) ++ r) = Scanned (Some (snd e)) r) ->
  distinct (map fst (kv :: d)) = true ->
  parse_object scan
    (newline_indent (S level)
       ++ join (item_separator (S level)) (map (member_text (S level)) (kv :: d))
       ++ newline_indent level ++ String "}" rest) =
  Scanned (Some (PDict (kv :: d))) rest.
Proof.
  intros H D. unfold parse_object. rewrite skip_ws_newline_indent.
  assert (Hc : exists tl,
             join (item_separator (S level)) (map (member_text (S level)) (kv :: d))
               ++ newline_indent level ++ String "}" rest = String dquote tl).
  { destruct d as [|kv' d].
    - simpl join. eexists. reflexivity.
    - cbn [map]. rewrite join_cons by discriminate. eexists. reflexivity. }
  destruct Hc as (tl & E).
  rewrite E. change (skip_ws (String dquote tl)) with (String dquote tl).
  cbv beta iota. change ((dquote =? "}")%char) with false. cbv iota.
  rewrite <- E.
  rewrite (parse_members_encode (kv :: d) [] _ rest H).
  - simpl app. now rewrite dict_of_pairs_distinct.
  - discriminate.
  - rewrite !length_append.
    pose proof (length_join (item_separator (S level))
                  (map (member_text (S level)) (kv :: d))) as LJ.
    rewrite length_map in LJ.
    assert (length (kv :: d) <=
            String.length (join (item_separator (S level))
                                (map (member_text (S level)) (kv :: d)))).
    { apply LJ. intros z Hz. apply in_map_iff in Hz.
      destruct Hz as (v & <- & _). simpl. lia. }
    lia.
Qed.

End Objects.

(** *** Values *)

Lemma encode_list (level : nat) (x : pyval) (l : list pyval) (rest : string) :
  encode level (PList (x :: l)) ++ rest =
  String "["
    (newline_indent (S level)
       ++ join (item_separator (S level)) (map (encode (S level)) (x :: l))
       ++ newline_indent level ++ String "]" rest).
Proof.
  change (encode level (PList (x :: l)))
    with ("[" ++ newline_indent (S level)
              ++ join (item_separator (S level)) (map (encode (S level)) (x :: l))
              ++ newline_indent level ++ "]").
  rewrite !append_assoc. reflexivity.
Qed.

Lemma encode_dict (level : nat) (kv : string * pyval) (d : dict) (rest : string) :
  encode level (PDict (kv :: d)) ++ rest =
  String "{"
    (newline_indent (S level)
       ++ join (item_separator (S level)) (map (member_text (S level)) (kv :: d))
       ++ newline_indent level ++ String "}" rest).
Proof.
  change (encode level (PDict (kv :: d)))
    with ("{" ++ newline_indent (S level)
              ++ join (item_separator (S level)) (map (member_text (S level)) (kv :: d))
              ++ newline_indent level ++ "}").
  rewrite !append_assoc. reflexivity.
Qed.

Lemma scan_once_array (fuel : nat) (s : string) :
  scan_once (S fuel) (String "[" s) = parse_array (scan_once fuel) s.
Proof. reflexivity. Qed.

Lemma scan_once_object (fuel : nat) (s : string) :
  scan_once (S fuel) (String "{" s) = parse_object (scan_once fuel) s.
Proof. reflexivity. Qed.

Lemma depth_item (l : list pyval) (x : pyval) :
  In x l -> depth x <= list_max (map depth l).
Proof.
  intros H.
  pose proof (proj1 (list_max_le (map depth l) (list_max (map depth l)))
                (Nat.le_refl _)) as F.
  rewrite Forall_forall in F. apply F. now apply in_map.
Qed.

Lemma depth_member (d : dict) (kv : string * pyval) :
  In kv d -> depth (snd kv) <= list_max (map (fun e => depth (snd e)) d).
Proof.
  intros H.
  pose proof (proj1 (list_max_le (map (fun e => depth (snd e)) d)
                       (list_max (map (fun e => depth (snd e)) d)))
                (Nat.le_refl _)) as F.
  rewrite Forall_forall in F. apply F.
  now apply (in_map (fun e => depth (snd e))).
Qed.

(** The decoder reads back what the encoder wrote, at any nesting level
    and before any text that may follow a value. *)
Lemma scan_once_encode (fuel : nat) :
  forall (o : pyval) (level : nat) (rest : string),
  depth o < fuel ->
  well_formed o = true ->
  encodable o = true ->
  delimited rest ->
  scan_once fuel (encode level o ++ rest) = Scanned (Some o) rest.
Proof.
  induction fuel as [|fuel IH]; intros o level rest D W E R; [lia|].
  destruct o as [|[|]|z|s|[|x l]|[|kv d]]; try reflexivity.
  - now apply scan_once_int.
  - apply scan_once_str.
  - rewrite encode_list, scan_once_array.
    apply parse_array_encode. intros y r Hy Hr.
    apply IH; [| | |exact Hr].
    + pose proof (depth_item (x :: l) y Hy). cbn [depth] in D. lia.
    + cbn [well_formed] in W. rewrite forallb_forall in W. now apply W.
    + cbn [encodable] in E. rewrite forallb_forall in E. now apply E.
  - cbn [well_formed] in W. apply andb_true_iff in W. destruct W as [W1 W2].
    rewrite encode_dict, scan_once_object.
    apply parse_object_encode; [|exact W1]. intros e r He Hr.
    apply IH; [| | |exact Hr].
    + pose proof (depth_member (kv :: d) e He). cbn [depth] in D. lia.
    + rewrite forallb_forall in W2. now apply W2.
    + cbn [encodable] in E. rewrite forallb_forall in E. now apply E.
Qed.

(** [json.loads] reads the text of a value back to the value. *)
Lemma loads_encode (o : pyval) :
  depth o <= nesting_bound ->
  well_formed o = true ->
  encodable o = true ->
  loads (encode 0 o) = Ok o.
Proof.
  intros D W E. unfold loads.
  pose proof (encode_solid 0 o EmptyString) as S0.
  rewrite append_nil_r in S0. rewrite (skip_ws_solid _ S0).
  rewrite <- (append_nil_r (encode 0 o)).
  rewrite scan_once_encode; [reflexivity | lia | exact W | exact E | exact I].
Qed.

(** *** The chunks of the encoder *)

Lemma after_buf_done (buf : string) (value : pyval) (text : string) :
  after_buf buf value (text, Ok tt) = (buf ++ text, Ok tt).
Proof. destruct value; reflexivity. Qed.

Lemma iterencode_list_done (each : pyval -> yielded) (enc : pyval -> string)
  (level : nat) (lst : list pyval) :
  forall buf : string,
  (forall x, In x lst -> each x = (enc x, Ok tt)) ->
  lst <> [] ->
  iterencode_list each level buf lst =
  (buf ++ join (item_separator (S level)) (map enc lst)
       ++ newline_indent level ++ "]", Ok tt).
Proof.
  induction lst as [|x l IH]; intros buf H NE; [congruence|].
  cbn [iterencode_list]. rewrite (H x (or_introl eq_refl)), after_buf_done.
  destruct l as [|y l].
  - cbn [iterencode_list map join]. unfold and_then, done. cbn [fst snd].
    now rewrite !append_assoc.
  - rewrite IH; [|intros z Hz; apply H; now right|discriminate].
    cbn [map]. rewrite (join_cons _ (enc x)) by discriminate.
    unfold and_then, item_separator. cbn [fst snd].
    now rewrite !append_assoc.
Qed.

Lemma iterencode_dict_done (each : pyval -> yielded) (enc : pyval -> string)
  (level : nat) (dct : dict) :
  forall first : bool,
  (forall kv, In kv dct -> each (snd kv) = (enc (snd kv), Ok tt)) ->
  dct <> [] ->
  iterencode_dict each level first dct =
  ((if first then EmptyString else item_separator (S level))
     ++ join (item_separator (S level))
             (map (fun kv => encode_basestring_ascii (fst kv) ++ ": "
                               ++ enc (snd kv)) dct)
     ++ newline_indent level ++ "}", Ok tt).
Proof.
  induction dct as [|kv l IH]; intros first H NE; [congruence|].
  cbn [iterencode_dict]. rewrite (H kv (or_introl eq_refl)).
  destruct l as [|kv' l].
  - cbn [iterencode_dict map join]. unfold and_then, done. cbn [fst snd].
    now rewrite !append_assoc.
  - rewrite IH; [|intros z Hz; apply H; now right|discriminate].
    cbn [map].
    rewrite (join_cons _ (encode_basestring_ascii (fst kv) ++ ": "
                            ++ enc (snd kv))) by discriminate.
    unfold and_then, done, item_separator. cbn [fst snd].
    now rewrite !append_assoc.
Qed.

(** When every integer of a value can be converted, the encoder yields
    the text of the value to the end. *)
Lemma iterencode_at_encode (n : nat) :
  forall (o : pyval) (level : nat),
  depth o <= n ->
  encodable o = true ->
  iterencode_at level o = (encode level o, Ok tt).
Proof.
  induction n as [|n IH]; intros o level D E;
    destruct o as [|[|]|z|s|[|x l]|[|kv d]]; try reflexivity;
    try (cbn [depth] in D; lia).
  - cbn [iterencode_at encode]. unfold intstr.
    cbn [encodable] in E. now rewrite E.
  - cbn [iterencode_at encode]. unfold intstr.
    cbn [encodable] in E. now rewrite E.
  - change (iterencode_at level (PList (x :: l)))
      with (iterencode_list (iterencode_at (S level)) level
              ("[" ++ newline_indent (S level)) (x :: l)).
    rewrite (iterencode_list_done _ (encode (S level)));
      [| |discriminate].
    + rewrite <- (append_nil_r (encode level (PList (x :: l)))), encode_list.
      cbn [append]. reflexivity.
    + intros y Hy. apply IH.
      * pose proof (depth_item (x :: l) y Hy). cbn [depth] in D. lia.
      * cbn [encodable] in E. rewrite forallb_forall in E. now apply E.
  - change (iterencode_at level (PDict (kv :: d)))
      with (and_then (done ("{" ++ newline_indent (S level)))
              (iterencode_dict (iterencode_at (S level)) level true (kv :: d))).
    rewrite (iterencode_dict_done _ (encode (S level)));
      [| |discriminate].
    + rewrite <- (append_nil_r (encode level (PDict (kv :: d)))), encode_dict.
      unfold and_then, done. cbn [fst snd append]. reflexivity.
    + intros e He. apply IH.
      * pose proof (depth_member (kv :: d) e He). cbn [depth] in D. lia.
      * cbn [encodable] in E. rewrite forallb_forall in E. now apply E.
Qed.

Lemma iterencode_encode (o : pyval) :
  depth o <= nesting_bound ->
  encodable o = true ->
  iterencode o = (encode 0 o, Ok tt).
Proof.
  intros D E. unfold iterencode.
  apply Nat.leb_le in D. rewrite D.
  now apply (iterencode_at_encode (depth o)).
Qed.

End JsonFacts.

(** [C8]: when the harvest returns the records [data], the report file can
    be opened, every integer of the records has at most 4300 digits, and
    the file object takes the writes and the closing, [genearte_report]
    returns and the report file holds the text that
    [json.dump(data, rf, indent=4)] writes; the text for no record is the
    empty array, and for any records, whose dictionaries have every key
    once as those of Python have, [json.loads] reads the text of the file
    back to the same records in the same order. *)
Theorem C8_report_round_trip (json_loads : string -> result pyval)
  (rf : file_object)
  (fuel : nat) (agentids severities runarns : pyval) (reportfile : string)
  (w w1 : world) (data : list pyval) :
  pull_list_finding json_loads fuel agentids severities runarns w =
    (Ok (PList data), w1) ->
  open_reply w1 reportfile = Ok tt ->
  well_formed (PList data) = true ->
  encodable (PList data) = true ->
  depth (PList data) <= Json.nesting_bound ->
  write_reply rf reportfile (Json.encode 0 (PList data)) = Ok tt ->
  close_reply rf reportfile = Ok tt ->
  exists w' content,
    genearte_report json_loads rf fuel agentids severities runarns reportfile w =
      (Ok PNone, w') /\
    files w' reportfile = Some content /\
    content = Json.encode 0 (PList data) /\
    (data = [] -> content = "[]") /\
    Json.loads content = Ok (PList data).
Proof.
  intros H O W E D WR CL.
  exists (write_file reportfile (Json.encode 0 (PList data))
            (write_file reportfile EmptyString w1)),
         (Json.encode 0 (PList data)).
  split; [|split; [|split; [reflexivity|split]]].
  - unfold genearte_report, bind, open_w, json_dump, rf_close, ret.
    rewrite H, O, (JsonFacts.iterencode_encode (PList data) D E).
    cbn [fst snd]. rewrite WR, CL. reflexivity.
  - simpl. now rewrite String.eqb_refl.
  - intros ->. reflexivity.
  - now apply JsonFacts.loads_encode.
Qed.

(** The round trip of [C8] fails for a record that holds an integer of
    4301 digits: the harvest returns the record and the file can be
    opened and written, yet [genearte_report] raises the [ValueError] of
    the encoder, and what it leaves in the file, in place of the earlier
    report, is the beginning of a text that [json.loads] refuses. *)
Lemma C8_long_integer_breaks_round_trip :
  fst (pull_list_finding Json.loads 1 (PList []) (PList []) (PList [PStr "run"])
         long_title_world) = Ok (PList long_title_records) /\
  well_formed (PList long_title_records) = true /\
  files long_title_world "report.json" = Some "[]" /\
  fst (genearte_report Json.loads steady_file 1 (PList []) (PList [])
         (PList [PStr "run"]) "report.json" long_title_world) =
    Raise ValueError /\
  exists partial,
    files (snd (genearte_report Json.loads steady_file 1 (PList []) (PList [])
                  (PList [PStr "run"]) "report.json" long_title_world))
          "report.json" = Some partial /\
    partial <> "[]" /\
    Json.loads partial = Raise ValueError.
Proof.
  split; [vm_compute; reflexivity|].
  split; [reflexivity|].
  split; [reflexivity|].
  split; [vm_compute; reflexivity|].
  eexists. split; [vm_compute; reflexivity|].
  split; [discriminate | vm_compute; reflexivity].
Qed.

(** ** The theorems at work on the sample worlds *)

Lemma C6_get_rulepackagearns_witness :
  get_rulepackagearns sample_rule_map "us-east-1" =
    Ok (PList [PStr "arn:rulespackage/0-gEjTy7T7";
               PStr "arn:rulespackage/0-rExsr2X8"]) /\
  get_rulepackagearns sample_rule_map "eu-north-9" = Raise AttributeError.
Proof.
  split.
  - apply (proj1 (C6_get_rulepackagearns sample_rule_map "us-east-1")
             [("CVE", PStr "arn:rulespackage/0-gEjTy7T7");
              ("CIS", PStr "arn:rulespackage/0-rExsr2X8")]).
    reflexivity.
  - apply (proj2 (C6_get_rulepackagearns sample_rule_map "eu-north-9")).
    reflexivity.
Defined.

Lemma C7_subscribe_to_event_witness :
  exists w',
    subscribe_to_event (PStr "template") (PStr "topic") (sample_world []) =
      (Ok PNone, w') /\
    calls w' =
      (calls (sample_world []) ++ subscriptions (PStr "template") (PStr "topic"))%list.
Proof.
  apply (proj2 (C7_subscribe_to_event (PStr "template") (PStr "topic")
                  (sample_world []))).
  intros e _. exists []. reflexivity.
Defined.

Lemma C2_get_feeds_witness :
  fst (get_feeds Json.loads (PStr "CVE-2021-12345") (sample_world [])) =
    Json.loads (text (mkResponse 200
      ("{" ++ String Json.dquote ("id" ++ String Json.dquote
         (": " ++ String Json.dquote ("CVE-2021-12345" ++ String Json.dquote "}")))))) /\
  fst (get_feeds Json.loads (PStr "CVE-1999-0021") (sample_world [])) = Ok PNone /\
  fst (get_feeds Json.loads (PStr "CVE-1999-0021") no_service) =
    Raise ConnectionError.
Proof.
  split; [|split].
  - apply (proj1 (proj2 (C2_get_feeds Json.loads "CVE-2021-12345" (sample_world [])))).
    + reflexivity.
    + reflexivity.
  - apply (proj1 (proj2 (proj2
             (C2_get_feeds Json.loads "CVE-1999-0021" (sample_world []))))
             (mkResponse 404 "not found")).
    + reflexivity.
    + simpl. discriminate.
  - apply (proj2 (proj2 (proj2
             (C2_get_feeds Json.loads "CVE-1999-0021" no_service)))).
    reflexivity.
Defined.

Lemma C5_finding_record_witness :
  (is_cve "rule-7" = false ->
   finding_record Json.loads (PDict (sample_fields "rule-7" "two")) (sample_world []) =
     (Ok (PDict [("id", PStr "rule-7"); ("report", sample_report "two")]),
      sample_world [])) /\
  (is_cve "rule-7" = true ->
   finding_record Json.loads (PDict (sample_fields "rule-7" "two")) (sample_world []) =
     (match fst (get_feeds Json.loads (PStr "rule-7") (sample_world [])) with
      | Ok feeds =>
          Ok (PDict [("id", PStr "rule-7"); ("report", sample_report "two");
                     ("feeds", feeds)])
      | Raise e => Raise e
      | OutOfFuel => OutOfFuel
      end,
      snd (get_feeds Json.loads (PStr "rule-7") (sample_world [])))).
Proof.
  apply (C5_finding_record Json.loads (sample_fields "rule-7" "two") "rule-7"
           (PStr "two") (PStr "d") (PStr "High") (PStr "r") (sample_world []));
    reflexivity.
Defined.

Lemma C1_pagination_witness :
  exists w' issued,
    pull_list_finding Json.loads 3 (PList [PStr "i-1"]) (PList [PStr "High"])
                      (PList [PStr "run"]) (sample_world sample_pages) =
      (Ok (PList (concat sample_records)), w') /\
    calls w' = (calls (sample_world sample_pages) ++ issued)%list /\
    list_calls issued =
      map (fun token =>
             (PList [PStr "run"],
              [("agentIds", PList [PStr "i-1"]); ("severities", PList [PStr "High"])],
              token))
          (expected_tokens [sample_page "a1" "t1"; sample_page "a2" "t2"]) /\
    describe_calls issued =
      map (fun page => (dict_get page "findingArns", "EN_US"))
          ([sample_page "a1" "t1"; sample_page "a2" "t2"] ++ [last_page "a3"])%list /\
    list_findings_replies w' = [].
Proof.
  apply (C1_pagination Json.loads 3 (PList [PStr "i-1"]) (PList [PStr "High"])
           (PList [PStr "run"]) (sample_world sample_pages)
           [sample_page "a1" "t1"; sample_page "a2" "t2"] (last_page "a3")
           sample_records []).
  - reflexivity.
  - repeat constructor.
  - reflexivity.
  - repeat constructor.
  - simpl. lia.
Defined.

Lemma C9_loop_continues_iff_truthy_witness :
  exists w1,
    list_findings_replies w1 = [Ok (last_page "a2")] /\
    (truthy (dict_get (sample_page "a1" EmptyString) "nextToken") = false ->
     pull_loop Json.loads 1 (PList [PStr "run"]) [] PNone []
               (sample_world [sample_page "a1" EmptyString; last_page "a2"]) =
       (Ok ([] ++ concat (firstn 1 sample_records))%list, w1)) /\
    (truthy (dict_get (sample_page "a1" EmptyString) "nextToken") = true ->
     pull_loop Json.loads 2 (PList [PStr "run"]) [] PNone []
               (sample_world [sample_page "a1" EmptyString; last_page "a2"]) =
       pull_loop Json.loads 1 (PList [PStr "run"]) []
                 (dict_get (sample_page "a1" EmptyString) "nextToken")
                 ([] ++ concat (firstn 1 sample_records))%list w1 /\
     exists later,
       calls (snd (pull_loop Json.loads 2 (PList [PStr "run"]) [] PNone []
                     (sample_world [sample_page "a1" EmptyString; last_page "a2"]))) =
       (calls w1 ++ list_findings_call (PList [PStr "run"]) []
                      (Some (dict_get (sample_page "a1" EmptyString) "nextToken"))
                    :: later)%list).
Proof.
  apply (C9_loop_continues_iff_truthy Json.loads 0 (PList [PStr "run"]) [] PNone []
           (sample_world [sample_page "a1" EmptyString; last_page "a2"])
           (sample_page "a1" EmptyString)
           (concat (firstn 1 sample_records)) [Ok (last_page "a2")]).
  - reflexivity.
  - reflexivity.
Defined.

Lemma C10_missing_field_raises_witness :
  exists key w',
    In key report_keys /\
    dict_lookup [("id", PStr "rule-9"); ("title", PStr "five")] key = None /\
    pull_list_finding Json.loads 2 (PList []) (PList []) (PList [PStr "run"])
                      (sample_world [sample_page "a1" "t1"; last_page "bad"]) =
      (Raise (KeyError key), w').
Proof.
  apply (C10_missing_field_raises Json.loads 2 (PList []) (PList []) (PList [PStr "run"])
           (sample_world [sample_page "a1" "t1"; last_page "bad"])
           [sample_page "a1" "t1"] (firstn 1 sample_records) (last_page "bad") []
           [("findings", PList [sample_finding "rule-8" "four";
                                PDict [("id", PStr "rule-9"); ("title", PStr "five")]])]
           [sample_finding "rule-8" "four"] []
           [("id", PStr "rule-9"); ("title", PStr "five")]
           [PDict [("id", PStr "rule-8"); ("report", sample_report "four")]]).
  - reflexivity.
  - repeat constructor.
  - repeat constructor.
  - reflexivity.
  - reflexivity.
  - reflexivity.
  - exists "description". split; [simpl; tauto | reflexivity].
  - simpl. lia.
Defined.

Lemma C8_report_round_trip_witness :
  exists w' content,
    genearte_report Json.loads steady_file 3 (PList [PStr "i-1"])
                    (PList [PStr "High"]) (PList [PStr "run"]) "report.json"
                    (sample_world sample_pages) =
      (Ok PNone, w') /\
    files w' "report.json" = Some content /\
    content = Json.encode 0 (PList (concat sample_records)) /\
    (concat sample_records = [] -> content = "[]") /\
    Json.loads content = Ok (PList (concat sample_records)).
Proof.
  apply (C8_report_round_trip Json.loads steady_file 3 (PList [PStr "i-1"])
           (PList [PStr "High"]) (PList [PStr "run"]) "report.json"
           (sample_world sample_pages)
           (snd (pull_list_finding Json.loads 3 (PList [PStr "i-1"])
                   (PList [PStr "High"]) (PList [PStr "run"])
                   (sample_world sample_pages)))
           (concat sample_records)).
  - vm_compute. reflexivity.
  - vm_compute. reflexivity.
  - vm_compute. reflexivity.
  - vm_compute. reflexivity.
  - vm_compute. lia.
  - reflexivity.
  - reflexivity.
Defined.

(* ================================================================== *)
(** * Further properties                                               *)
(* ================================================================== *)

(** ** The methods that set an assessment up *)

(** [X1] [create_assessment_target] creates the resource group first and then
    the target, bound to the ARN that the creation of the group returned
    (to [None] when the answer has no [resourceGroupArn]); it returns the
    [assessmentTargetArn] of the second answer, [None] when there is
    none. *)
Theorem create_assessment_target_flow (targetname tagname : pyval)
  (tagkey : option pyval) (a : account) (group target : dict) :
  service_reply a (setup_calls a)
    (create_resource_group_call (group_tags tagname tagkey)) = Ok group ->
  service_reply a
    (setup_calls a ++ [create_resource_group_call (group_tags tagname tagkey)])%list
    (create_assessment_target_call targetname (dict_get group "resourceGroupArn")) =
    Ok target ->
  exists a',
    create_assessment_target targetname tagname tagkey a =
      (Ok (dict_get target "assessmentTargetArn"), a') /\
    setup_calls a' =
      (setup_calls a ++
       [create_resource_group_call (group_tags tagname tagkey);
        create_assessment_target_call targetname
          (dict_get group "resourceGroupArn")])%list.
Proof.
  intros H1 H2. unfold create_assessment_target, bindA, remote, retA.
  fold (group_tags tagname tagkey). rewrite H1. simpl. rewrite H2.
  eexists. split; [reflexivity|]. simpl. now rewrite <- app_assoc.
Qed.

(** [X2] A failure while [create_assessment_target] runs reaches the caller.
    When the resource group cannot be created, no target is asked for;
    when the target cannot be created, the resource group has been created
    before and nothing takes it back. *)
Theorem create_assessment_target_failures (targetname tagname : pyval)
  (tagkey : option pyval) (a : account) :
  (forall e,
     service_reply a (setup_calls a)
       (create_resource_group_call (group_tags tagname tagkey)) = Raise e ->
     exists a',
       create_assessment_target targetname tagname tagkey a = (Raise e, a') /\
       setup_calls a' =
         (setup_calls a ++ [create_resource_group_call (group_tags tagname tagkey)])%list) /\
  (forall group e,
     service_reply a (setup_calls a)
       (create_resource_group_call (group_tags tagname tagkey)) = Ok group ->
     service_reply a
       (setup_calls a ++ [create_resource_group_call (group_tags tagname tagkey)])%list
       (create_assessment_target_call targetname (dict_get group "resourceGroupArn")) =
       Raise e ->
     exists a',
       create_assessment_target targetname tagname tagkey a = (Raise e, a') /\
       setup_calls a' =
         (setup_calls a ++
          [create_resource_group_call (group_tags tagname tagkey);
           create_assessment_target_call targetname
             (dict_get group "resourceGroupArn")])%list).
Proof.
  split.
  - intros e H1. unfold create_assessment_target, bindA, remote, retA.
    fold (group_tags tagname tagkey). rewrite H1.
    eexists. split; reflexivity.
  - intros group e H1 H2. unfold create_assessment_target, bindA, remote, retA.
    fold (group_tags tagname tagkey). rewrite H1. simpl. rewrite H2.
    eexists. split; [reflexivity|]. simpl. now rewrite <- app_assoc.
Qed.

(** [X3] [create_awsscan_tag] tags all the instances in one call, whatever
    their number, with one tag, whose key is [awsscan] when none is given;
    it returns [None] when the call is accepted and lets a refusal reach
    the caller. *)
Theorem create_awsscan_tag_one_call (instanceids tagvalue : pyval)
  (tagkey : option pyval) (a : account) :
  let call :=
    create_tags_call instanceids
      (PList [PDict [("Key", match tagkey with Some k => k | None => PStr "awsscan" end);
                     ("Value", tagvalue)]]) in
  setup_calls (snd (create_awsscan_tag instanceids tagvalue tagkey a)) =
    (setup_calls a ++ [call])%list /\
  fst (create_awsscan_tag instanceids tagvalue tagkey a) =
    match service_reply a (setup_calls a) call with
    | Ok _ => Ok PNone
    | Raise e => Raise e
    | OutOfFuel => OutOfFuel
    end.
Proof.
  intros call. unfold create_awsscan_tag, bindA, remote, retA.
  change (or_default tagkey (PStr "awsscan"))
    with (match tagkey with Some k => k | None => PStr "awsscan" end).
  fold call.
  destruct (service_reply a (setup_calls a) call); repeat split.
Qed.

(** [X4] [create_assessment_template] passes the duration on as it is given,
    and 3600 when it is omitted, in one call with the target, the name and
    the rule packages; [start_assessment_run] starts the run of the
    template in one call.  Each returns the ARN of the answer, [None] when
    the answer has none, and lets a refusal reach the caller. *)
Theorem template_and_run_calls (targetarn templatename rulepackagearns templatearn : pyval)
  (duration : option pyval) (a : account) :
  let template_call :=
    create_assessment_template_call targetarn templatename
      (match duration with Some d => d | None => PInt 3600 end) rulepackagearns in
  let run_call := start_assessment_run_call templatearn in
  (setup_calls
     (snd (create_assessment_template targetarn templatename rulepackagearns duration a)) =
     (setup_calls a ++ [template_call])%list /\
   fst (create_assessment_template targetarn templatename rulepackagearns duration a) =
     match service_reply a (setup_calls a) template_call with
     | Ok response => Ok (dict_get response "assessmentTemplateArn")
     | Raise e => Raise e
     | OutOfFuel => OutOfFuel
     end) /\
  (setup_calls (snd (start_assessment_run templatearn a)) =
     (setup_calls a ++ [run_call])%list /\
   fst (start_assessment_run templatearn a) =
     match service_reply a (setup_calls a) run_call with
     | Ok response => Ok (dict_get response "assessmentRunArn")
     | Raise e => Raise e
     | OutOfFuel => OutOfFuel
     end).
Proof.
  intros template_call run_call.
  unfold create_assessment_template, start_assessment_run, bindA, remote, retA.
  change (or_default duration (PInt 3600))
    with (match duration with Some d => d | None => PInt 3600 end).
  fold template_call. fold run_call.
  destruct (service_reply a (setup_calls a) template_call),
           (service_reply a (setup_calls a) run_call); repeat split.
Qed.

(** ** More on the findings and their records *)

Section FindingExtras.

Variable json_loads : string -> result pyval.

Lemma for_keys_report (d : dict) :
  first_missing report_keys d = None ->
  for_keys report_keys (PDict d) [] = Ok (report_of d).
Proof.
  unfold report_of, dict_get. simpl.
  destruct (dict_lookup d "title"); [|discriminate].
  destruct (dict_lookup d "description"); [|discriminate].
  destruct (dict_lookup d "severity"); [|discriminate].
  destruct (dict_lookup d "recommendation"); [|discriminate].
  reflexivity.
Qed.

(** What a record that was made tells about its finding and the world. *)
Lemma finding_record_made (finding record : pyval) (w w1 : world) :
  finding_record json_loads finding w = (Ok record, w1) ->
  exists d id,
    finding = PDict d /\ first_missing report_keys d = None /\
    dict_get d "id" = PStr id /\ record_of d id record /\
    calls w1 = (calls w ++ (if is_cve id
                            then [requests_get_call (feed_url id)] else []))%list.
Proof.
  unfold finding_record, bind, lift, ret.
  destruct finding as [| | | | |d]; try discriminate.
  simpl py_get. cbv iota.
  destruct (first_missing report_keys d) as [key|] eqn:FM.
  - rewrite (for_keys_first_missing report_keys d [] key FM). discriminate.
  - rewrite (for_keys_report d FM).
    destruct (dict_get d "id") as [| | |id| |] eqn:I; try discriminate.
    simpl py_re_match. fold (is_cve id). cbv iota.
    destruct (is_cve id) eqn:C.
    + rewrite get_feeds_run.
      destruct (requests_get_reply w (feed_url id)) as [r|e|]; try discriminate.
      destruct (status_code r =? 200)%Z.
      * destruct (json_loads (text r)) as [feeds|e|]; try discriminate.
        intros [= <- <-]. exists d, id.
        split; [reflexivity|]. split; [exact FM|]. split; [exact I|].
        split; [|rewrite C; reflexivity].
        right. split; [exact C | now exists feeds].
      * intros [= <- <-]. exists d, id.
        split; [reflexivity|]. split; [exact FM|]. split; [exact I|].
        split; [|rewrite C; reflexivity].
        right. split; [exact C | now exists PNone].
    + intros [= <- <-]. exists d, id.
      split; [reflexivity|]. split; [exact FM|]. split; [exact I|].
      split; [left; now split | rewrite C; now rewrite app_nil_r].
Qed.

(** [X5] One record per finding, in the order of the findings: when the loop
    over the findings of a page comes to its end, the records it appended
    are those of the findings, each with the [id] of its finding and a
    report of exactly the four fields, and the feed was asked once for
    each finding with a CVE identifier, in their order, and for no
    other. *)
Theorem for_findings_records (items data data' : list pyval) (w w' : world) :
  for_findings json_loads items data w = (Ok data', w') ->
  exists records,
    data' = (data ++ records)%list /\
    Forall2 (fun finding record =>
               exists d id, finding = PDict d /\ dict_get d "id" = PStr id /\
                            record_of d id record)
            items records /\
    calls w' = (calls w ++ cve_requests items)%list.
Proof.
  revert data data' w w'.
  induction items as [|f fs IH]; intros data data' w w' H.
  - simpl in H. injection H as <- <-. exists []. rewrite !app_nil_r.
    repeat split. constructor.
  - cbn [for_findings] in H. unfold bind in H.
    destruct (finding_record json_loads f w) as [[record|e|] w1] eqn:E;
      try discriminate.
    destruct (finding_record_made f record w w1 E)
      as (d & id & -> & FM & I & R & C).
    destruct (IH _ _ _ _ H) as (records & -> & F & C').
    exists (record :: records). split; [now rewrite <- app_assoc|]. split.
    + constructor; [|exact F]. now exists d, id.
    + rewrite C', C. cbn [cve_requests flat_map py_get]. rewrite I.
      now rewrite <- app_assoc.
Qed.

(** [X6] The ways in which a finding gives no record, in the order in which
    they are met: a finding that is no dictionary has no [get]; a missing
    field of the report is a [KeyError]; an [id] that is no string cannot
    be matched; and for a CVE identifier the error of the feed request, or
    the error of [json.loads] on a body sent with status 200, is the error
    of the finding.  The feed is asked only in the last case. *)
Theorem finding_record_errors (w : world) :
  (forall finding,
     (forall d, finding <> PDict d) ->
     finding_record json_loads finding w = (Raise AttributeError, w)) /\
  (forall d key,
     first_missing report_keys d = Some key ->
     finding_record json_loads (PDict d) w = (Raise (KeyError key), w)) /\
  (forall d,
     first_missing report_keys d = None ->
     (forall id, dict_get d "id" <> PStr id) ->
     finding_record json_loads (PDict d) w = (Raise TypeError, w)) /\
  (forall d id e,
     first_missing report_keys d = None ->
     dict_get d "id" = PStr id -> is_cve id = true ->
     requests_get_reply w (feed_url id) = Raise e ->
     finding_record json_loads (PDict d) w =
       (Raise e, log_call (requests_get_call (feed_url id)) w)) /\
  (forall d id r e,
     first_missing report_keys d = None ->
     dict_get d "id" = PStr id -> is_cve id = true ->
     requests_get_reply w (feed_url id) = Ok r -> status_code r = 200%Z ->
     json_loads (text r) = Raise e ->
     finding_record json_loads (PDict d) w =
       (Raise e, log_call (requests_get_call (feed_url id)) w)).
Proof.
  repeat split.
  - intros finding H. destruct finding as [| | | | |d]; try reflexivity.
    now destruct (H d).
  - intros d key FM. unfold finding_record, bind, lift. simpl py_get. cbv iota.
    now rewrite (for_keys_first_missing report_keys d [] key FM).
  - intros d FM H. unfold finding_record, bind, lift. simpl py_get. cbv iota.
    rewrite (for_keys_report d FM).
    destruct (dict_get d "id") as [| | |id| |] eqn:I; try reflexivity.
    now destruct (H id).
  - intros d id e FM I C R. unfold finding_record, bind, lift. simpl py_get.
    cbv iota. rewrite (for_keys_report d FM), I. simpl py_re_match.
    fold (is_cve id). rewrite C. cbv iota. rewrite get_feeds_run, R. reflexivity.
  - intros d id r e FM I C R S E. unfold finding_record, bind, lift.
    simpl py_get. cbv iota. rewrite (for_keys_report d FM), I. simpl py_re_match.
    fold (is_cve id). rewrite C. cbv iota. rewrite get_feeds_run, R, S, E.
    reflexivity.
Qed.

(** [X7] The record of a finding with a CVE identifier, by the answer of the
    feed: with status 200 and a body that [json.loads] reads, the feeds
    are the value read; with any other status the record is made all the
    same and its feeds are [None].  One request is made either way. *)
Theorem finding_record_feeds (d : dict) (id : string) (r : response) (w : world) :
  first_missing report_keys d = None ->
  dict_get d "id" = PStr id ->
  is_cve id = true ->
  requests_get_reply w (feed_url id) = Ok r ->
  (forall feeds,
     status_code r = 200%Z -> json_loads (text r) = Ok feeds ->
     finding_record json_loads (PDict d) w =
       (Ok (PDict [("id", PStr id); ("report", PDict (report_of d));
                   ("feeds", feeds)]),
        log_call (requests_get_call (feed_url id)) w)) /\
  (status_code r <> 200%Z ->
   finding_record json_loads (PDict d) w =
     (Ok (PDict [("id", PStr id); ("report", PDict (report_of d));
                 ("feeds", PNone)]),
      log_call (requests_get_call (feed_url id)) w)).
Proof.
  intros FM I C R.
  assert (E : finding_record json_loads (PDict d) w =
              match (if (status_code r =? 200)%Z
                     then json_loads (text r) else Ok PNone) with
              | Ok feeds =>
                  (Ok (PDict [("id", PStr id); ("report", PDict (report_of d));
                              ("feeds", feeds)]),
                   log_call (requests_get_call (feed_url id)) w)
              | Raise e => (Raise e, log_call (requests_get_call (feed_url id)) w)
              | OutOfFuel => (OutOfFuel, log_call (requests_get_call (feed_url id)) w)
              end).
  { unfold finding_record, bind, lift, ret. simpl py_get. cbv iota.
    rewrite (for_keys_report d FM), I. simpl py_re_match. fold (is_cve id).
    rewrite C. cbv iota. rewrite get_feeds_run, R.
    destruct (if (status_code r =? 200)%Z then json_loads (text r) else Ok PNone);
      reflexivity. }
  split.
  - intros feeds S L. rewrite E, S, L. reflexivity.
  - intros S. apply Z.eqb_neq in S. rewrite E, S. reflexivity.
Qed.

(** [X8] [get_feeds] asks the feed for a string only: any other argument cannot
    be joined to the address, which is a [TypeError] before any request. *)
Theorem get_feeds_not_a_string (cveid : pyval) (w : world) :
  (forall s, cveid <> PStr s) ->
  get_feeds json_loads cveid w = (Raise TypeError, w).
Proof.
  intros H. destruct cveid as [| | |s| |]; try reflexivity. now destruct (H s).
Qed.

End FindingExtras.

(** ** More on the harvest *)

Section HarvestExtras.

Variable json_loads : string -> result pyval.

(** The harvest up to a page whose records cannot be made. *)
Lemma harvest_page_error (fuel : nat) (agentids severities runarns : pyval)
  (w : world) (pages : list dict) (recs : list (list pyval)) (page : dict)
  (rest : list (result dict)) (e : exn) :
  list_findings_replies w = (map Ok pages ++ Ok page :: rest)%list ->
  Forall (fun p => carries_token p = true) pages ->
  Forall2 (fun p rs => page_records json_loads w p = Ok rs) pages recs ->
  page_records json_loads w page = Raise e ->
  length pages < fuel ->
  exists w' issued,
    pull_list_finding json_loads fuel agentids severities runarns w =
      (Raise e, w') /\
    list_findings_replies w' = rest /\
    calls w' = (calls w ++ issued)%list /\
    length (list_calls issued) = S (length pages).
Proof.
  intros R T P PR Hfuel.
  set (filter_input := [("agentIds", agentids); ("severities", severities)]).
  destruct fuel as [|fuel]; [lia|].
  assert (Hf : S fuel = length pages + S (fuel - length pages)) by lia.
  destruct (pull_loop_prefix json_loads runarns filter_input pages recs
              (S (fuel - length pages)) PNone [] w w (Ok page :: rest)
              (same_services_refl w) R T P)
    as (w1 & tok & L1 & S1 & R1 & issued1 & C1 & LC1 & _).
  destruct (pull_loop_page json_loads runarns filter_input
              (fuel - length pages) tok ([] ++ concat recs)%list w w1 page rest
              S1 R1)
    as (w2 & L2 & _ & R2 & gets & C2 & F2).
  rewrite PR in L2.
  exists w2.
  exists (issued1 ++ list_findings_call runarns filter_input (token_sent tok)
            :: describe_findings_call (dict_get page "findingArns") "EN_US"
            :: gets)%list.
  split.
  { unfold pull_list_finding, bind, ret.
    change (dict_set (dict_set [] "agentIds" agentids) "severities" severities)
      with filter_input.
    now rewrite Hf, L1, L2. }
  split; [exact R2|]. split; [rewrite C2, C1, <- app_assoc; reflexivity|].
  rewrite list_calls_app. cbn [list_calls]. rewrite (list_calls_gets gets F2).
  rewrite LC1. simpl. now rewrite !length_map.
Qed.

(** The records of a page one of whose findings gives no record. *)
Lemma page_records_failing_finding (w : world) (page response : dict)
  (before after : list pyval) (finding : pyval) (records : list pyval) (e : exn) :
  describe_findings_reply w (dict_get page "findingArns") "EN_US" = Ok response ->
  py_iter (dict_get response "findings") = Ok (before ++ finding :: after)%list ->
  fst (for_findings json_loads before [] w) = Ok records ->
  fst (finding_record json_loads finding w) = Raise e ->
  page_records json_loads w page = Raise e.
Proof.
  intros D I B F.
  unfold page_records, process_page, bind, lift, describe_findings.
  rewrite D, I. cbn [fst snd].
  set (c := describe_findings_call (dict_get page "findingArns") "EN_US").
  rewrite (for_findings_services json_loads before [] w (log_call c w)
             (same_services_log c w)) in B.
  rewrite (finding_record_services json_loads finding w (log_call c w)
             (same_services_log c w)) in F.
  generalize dependent (log_call c w). clear c D I.
  generalize (@nil pyval) at 2. revert records.
  induction before as [|f fs IH]; intros records data w1 B F.
  - simpl. unfold bind.
    destruct (finding_record json_loads finding w1) as [[r|x|] w2];
      simpl in F; try discriminate. now injection F as ->.
  - rewrite <- app_comm_cons. cbn [for_findings] in B |- *.
    unfold bind in B |- *.
    pose proof (finding_record_quiet json_loads f w1) as [Q _].
    destruct (finding_record json_loads f w1) as [[r|x|] w2];
      simpl in B; try discriminate.
    rewrite for_findings_acc in B.
    destruct (for_findings json_loads fs [] w2) as [[rs|x|] w3] eqn:E;
      simpl in B; try discriminate.
    apply (IH rs (data ++ [r])%list w2); [now rewrite E|].
    simpl in Q.
    now rewrite <- (finding_record_services json_loads finding w1 w2 Q).
Qed.

(** [X9] A page whose records cannot be made ends the harvest with the error
    of the page: the records of the pages before it are not returned, and
    no page after it is asked for. *)
Theorem harvest_stops_at_failing_page (fuel : nat)
  (agentids severities runarns : pyval) (w : world) (pages : list dict)
  (recs : list (list pyval)) (page : dict) (rest : list (result dict)) (e : exn) :
  list_findings_replies w = (map Ok pages ++ Ok page :: rest)%list ->
  Forall (fun p => carries_token p = true) pages ->
  Forall2 (fun p rs => page_records json_loads w p = Ok rs) pages recs ->
  page_records json_loads w page = Raise e ->
  length pages < fuel ->
  exists w' issued,
    pull_list_finding json_loads fuel agentids severities runarns w =
      (Raise e, w') /\
    list_findings_replies w' = rest /\
    calls w' = (calls w ++ issued)%list /\
    length (list_calls issued) = S (length pages).
Proof. apply harvest_page_error. Qed.

(** [X10] A finding that gives no record ends the harvest with its error,
    whatever it is: a failed feed request for one CVE finding, for one,
    costs the records of all the findings. *)
Theorem harvest_stops_at_failing_finding (fuel : nat)
  (agentids severities runarns : pyval) (w : world) (pages : list dict)
  (recs : list (list pyval)) (page response : dict) (rest : list (result dict))
  (before after : list pyval) (finding : pyval) (records : list pyval) (e : exn) :
  list_findings_replies w = (map Ok pages ++ Ok page :: rest)%list ->
  Forall (fun p => carries_token p = true) pages ->
  Forall2 (fun p rs => page_records json_loads w p = Ok rs) pages recs ->
  describe_findings_reply w (dict_get page "findingArns") "EN_US" = Ok response ->
  py_iter (dict_get response "findings") = Ok (before ++ finding :: after)%list ->
  fst (for_findings json_loads before [] w) = Ok records ->
  fst (finding_record json_loads finding w) = Raise e ->
  length pages < fuel ->
  exists w',
    pull_list_finding json_loads fuel agentids severities runarns w = (Raise e, w').
Proof.
  intros R T P D I B F Hfuel.
  destruct (harvest_page_error fuel agentids severities runarns w pages recs
              page rest e R T P
              (page_records_failing_finding w page response before after
                 finding records e D I B F) Hfuel)
    as (w' & _ & H & _).
  now exists w'.
Qed.

(** [X11] A refusal of a [describe_findings] call ends the harvest with the
    error of the service, and so does an answer without [findings]: what
    [get] returns for the missing key cannot be run through, which is a
    [TypeError]. *)
Theorem harvest_describe_failures (fuel : nat)
  (agentids severities runarns : pyval) (w : world) (pages : list dict)
  (recs : list (list pyval)) (page : dict) (rest : list (result dict)) :
  list_findings_replies w = (map Ok pages ++ Ok page :: rest)%list ->
  Forall (fun p => carries_token p = true) pages ->
  Forall2 (fun p rs => page_records json_loads w p = Ok rs) pages recs ->
  length pages < fuel ->
  (forall e,
     describe_findings_reply w (dict_get page "findingArns") "EN_US" = Raise e ->
     exists w',
       pull_list_finding json_loads fuel agentids severities runarns w =
         (Raise e, w')) /\
  (forall response,
     describe_findings_reply w (dict_get page "findingArns") "EN_US" = Ok response ->
     dict_lookup response "findings" = None ->
     exists w',
       pull_list_finding json_loads fuel agentids severities runarns w =
         (Raise TypeError, w')).
Proof.
  intros R T P Hfuel. split.
  - intros e D.
    assert (PR : page_records json_loads w page = Raise e).
    { unfold page_records, process_page, bind, describe_findings. now rewrite D. }
    destruct (harvest_page_error fuel agentids severities runarns w pages recs
                page rest e R T P PR Hfuel) as (w' & _ & H & _).
    now exists w'.
  - intros response D N.
    assert (PR : page_records json_loads w page = Raise TypeError).
    { unfold page_records, process_page, bind, lift, describe_findings.
      rewrite D. unfold dict_get. now rewrite N. }
    destruct (harvest_page_error fuel agentids severities runarns w pages recs
                page rest TypeError R T P PR Hfuel) as (w' & _ & H & _).
    now exists w'.
Qed.

(** [X12] A refusal of a [list_findings] call, be it the first or a later one,
    ends the harvest with the error of the service. *)
Theorem harvest_list_findings_error (fuel : nat)
  (agentids severities runarns : pyval) (w : world) (pages : list dict)
  (recs : list (list pyval)) (rest : list (result dict)) (e : exn) :
  list_findings_replies w = (map Ok pages ++ Raise e :: rest)%list ->
  Forall (fun p => carries_token p = true) pages ->
  Forall2 (fun p rs => page_records json_loads w p = Ok rs) pages recs ->
  length pages < fuel ->
  exists w',
    pull_list_finding json_loads fuel agentids severities runarns w = (Raise e, w') /\
    list_findings_replies w' = rest.
Proof.
  intros R T P Hfuel.
  set (filter_input := [("agentIds", agentids); ("severities", severities)]).
  destruct fuel as [|fuel]; [lia|].
  assert (Hf : S fuel = length pages + S (fuel - length pages)) by lia.
  destruct (pull_loop_prefix json_loads runarns filter_input pages recs
              (S (fuel - length pages)) PNone [] w w (Raise e :: rest)
              (same_services_refl w) R T P)
    as (w1 & tok & L1 & _ & R1 & _).
  eexists. split.
  - unfold pull_list_finding, bind, ret.
    change (dict_set (dict_set [] "agentIds" agentids) "severities" severities)
      with filter_input.
    rewrite Hf, L1, pull_loop_step. unfold list_findings. simpl.
    rewrite R1. reflexivity.
  - simpl. now rewrite R1.
Qed.

Lemma pull_loop_calls (runarns : pyval) (filter_input : dict) (fuel : nat) :
  forall (nexttoken : pyval) (data : list pyval) (w : world),
  exists issued,
    calls (snd (pull_loop json_loads fuel runarns filter_input nexttoken data w)) =
      (calls w ++ issued)%list /\
    Forall (fun c => fst (fst c) = runarns /\ snd (fst c) = filter_input /\
                     sound_token (snd c))
           (list_calls issued) /\
    Forall (fun c => snd c = "EN_US") (describe_calls issued).
Proof.
  induction fuel as [|fuel IH]; intros nexttoken data w.
  - exists []. simpl. rewrite app_nil_r. repeat split; constructor.
  - rewrite pull_loop_step.
    pose proof (list_findings_logs runarns filter_input (token_sent nexttoken) w) as L.
    assert (ST : sound_token (token_sent nexttoken)).
    { unfold token_sent. destruct (truthy nexttoken) eqn:E; simpl; auto. }
    assert (Q1 : Forall (fun c => fst (fst c) = runarns /\
                                  snd (fst c) = filter_input /\ sound_token (snd c))
                        (list_calls [list_findings_call runarns filter_input
                                       (token_sent nexttoken)])).
    { simpl. constructor; [|constructor]. simpl. auto. }
    destruct (list_findings runarns filter_input (token_sent nexttoken) w)
      as [[page|e|] w1]; simpl in L;
      try (eexists; split; [exact L|]; split; [exact Q1 | constructor]).
    destruct (process_page_run json_loads page data w1 w1 (same_services_refl w1))
      as (w2 & P & _ & _ & gets & C2 & F2).
    rewrite P.
    assert (Q2 : forall tail,
               Forall (fun c => fst (fst c) = runarns /\
                                snd (fst c) = filter_input /\ sound_token (snd c))
                      (list_calls tail) ->
               Forall (fun c => snd c = "EN_US") (describe_calls tail) ->
               Forall (fun c => fst (fst c) = runarns /\
                                snd (fst c) = filter_input /\ sound_token (snd c))
                      (list_calls
                         (list_findings_call runarns filter_input (token_sent nexttoken)
                            :: describe_findings_call (dict_get page "findingArns") "EN_US"
                            :: gets ++ tail)) /\
               Forall (fun c => snd c = "EN_US")
                      (describe_calls
                         (list_findings_call runarns filter_input (token_sent nexttoken)
                            :: describe_findings_call (dict_get page "findingArns") "EN_US"
                            :: gets ++ tail))).
    { intros tail A B. cbn [list_calls describe_calls].
      rewrite list_calls_app, describe_calls_app.
      rewrite (list_calls_gets gets F2), (describe_calls_gets gets F2). simpl.
      split; constructor; simpl; auto. }
    assert (E0 : forall u : world,
               calls u = calls w2 ->
               exists issued,
                 calls u = (calls w ++ issued)%list /\
                 Forall (fun c => fst (fst c) = runarns /\
                                  snd (fst c) = filter_input /\ sound_token (snd c))
                        (list_calls issued) /\
                 Forall (fun c => snd c = "EN_US") (describe_calls issued)).
    { intros u Hu.
      exists (list_findings_call runarns filter_input (token_sent nexttoken)
                :: describe_findings_call (dict_get page "findingArns") "EN_US"
                :: gets ++ [])%list.
      split.
      - rewrite Hu, C2, L, app_nil_r, <- app_assoc. reflexivity.
      - apply Q2; constructor. }
    destruct (page_records json_loads w1 page) as [records|e|];
      try (apply E0; reflexivity).
    destruct (carries_token page); [|apply E0; reflexivity].
    destruct (IH (dict_get page "nextToken") (data ++ records)%list w2)
      as (tail & Ct & At & Bt).
    exists (list_findings_call runarns filter_input (token_sent nexttoken)
              :: describe_findings_call (dict_get page "findingArns") "EN_US"
              :: gets ++ tail)%list.
    split.
    + rewrite Ct, C2, L, <- !app_assoc. reflexivity.
    + now apply Q2.
Qed.

(** [X13] Whatever the services answer, every [list_findings] call of a harvest
    carries the run ARNs and the filter of agent identifiers and
    severities it was given, and a token only when the token counts as
    true, and every [describe_findings] call asks for the locale
    [EN_US]. *)
Theorem harvest_calls_invariant (fuel : nat) (agentids severities runarns : pyval)
  (w : world) :
  exists issued,
    calls (snd (pull_list_finding json_loads fuel agentids severities runarns w)) =
      (calls w ++ issued)%list /\
    Forall (fun c => fst (fst c) = runarns /\
                     snd (fst c) = [("agentIds", agentids); ("severities", severities)] /\
                     sound_token (snd c))
           (list_calls issued) /\
    Forall (fun c => snd c = "EN_US") (describe_calls issued).
Proof.
  destruct (pull_loop_calls runarns
              [("agentIds", agentids); ("severities", severities)] fuel PNone [] w)
    as (issued & C & A & B).
  exists issued. split; [|now split].
  unfold pull_list_finding, bind, ret.
  change (dict_set (dict_set [] "agentIds" agentids) "severities" severities)
    with [("agentIds", agentids); ("severities", severities)].
  destruct (pull_loop json_loads fuel runarns
              [("agentIds", agentids); ("severities", severities)] PNone [] w)
    as [[data|e|] w']; exact C.
Qed.

Lemma pull_loop_more_fuel (runarns : pyval) (filter_input : dict) (fuel : nat) :
  forall (more : nat) (nexttoken : pyval) (data : list pyval) (w : world),
  fst (pull_loop json_loads fuel runarns filter_input nexttoken data w) <> OutOfFuel ->
  pull_loop json_loads (fuel + more) runarns filter_input nexttoken data w =
  pull_loop json_loads fuel runarns filter_input nexttoken data w.
Proof.
  induction fuel as [|fuel IH]; intros more nexttoken data w H.
  - simpl in H. congruence.
  - cbn [Nat.add]. rewrite !pull_loop_step. rewrite pull_loop_step in H.
    destruct (list_findings runarns filter_input (token_sent nexttoken) w)
      as [[page|e|] w1]; try reflexivity.
    destruct (process_page json_loads page data w1) as [[data'|e|] w2];
      try reflexivity.
    destruct (carries_token page); [|reflexivity].
    now apply IH.
Qed.

End HarvestExtras.

(** ** More on the report and the subscriptions *)

Lemma same_files_refl (w : world) : same_files w w.
Proof. split; reflexivity. Qed.

Lemma same_files_trans (w1 w2 w3 : world) :
  same_files w1 w2 -> same_files w2 w3 -> same_files w1 w3.
Proof. intros [A B] [C D]. split; congruence. Qed.

Section ReportExtras.

Variable json_loads : string -> result pyval.
Variable rf : file_object.

Lemma get_feeds_files (cveid : pyval) (w : world) :
  same_files w (snd (get_feeds json_loads cveid w)).
Proof.
  destruct cveid as [| | |s| |]; try apply same_files_refl.
  rewrite get_feeds_run. split; reflexivity.
Qed.

Lemma finding_record_files (finding : pyval) (w : world) :
  same_files w (snd (finding_record json_loads finding w)).
Proof.
  unfold finding_record, bind, lift, ret.
  destruct (py_get finding "id") as [finding_id| |]; try apply same_files_refl.
  destruct (for_keys report_keys finding []) as [report| |];
    try apply same_files_refl.
  destruct (py_re_match cvepattern finding_id) as [[|]| |];
    try apply same_files_refl.
  pose proof (get_feeds_files finding_id w) as Q.
  destruct (get_feeds json_loads finding_id w) as [[feeds|e|] w1]; exact Q.
Qed.

Lemma for_findings_files (findings data : list pyval) (w : world) :
  same_files w (snd (for_findings json_loads findings data w)).
Proof.
  revert data w. induction findings as [|f fs IH]; intros data w.
  - apply same_files_refl.
  - cbn [for_findings]. unfold bind.
    pose proof (finding_record_files f w) as Q.
    destruct (finding_record json_loads f w) as [[record|e|] w1];
      simpl in Q; try exact Q.
    eapply same_files_trans; [exact Q | apply IH].
Qed.

Lemma process_page_files (page : dict) (data : list pyval) (w : world) :
  same_files w (snd (process_page json_loads page data w)).
Proof.
  unfold process_page, bind, lift, describe_findings.
  destruct (describe_findings_reply w (dict_get page "findingArns") "EN_US")
    as [response|e|]; try (split; reflexivity).
  destruct (py_iter (dict_get response "findings")) as [items|e|];
    try (split; reflexivity).
  pose proof (for_findings_files items data
                (log_call (describe_findings_call (dict_get page "findingArns")
                             "EN_US") w)) as Q.
  destruct (for_findings json_loads items data _) as [[data'|e|] w1]; exact Q.
Qed.

Lemma list_findings_files (runarns : pyval) (filter_input : dict)
  (token : option pyval) (w : world) :
  same_files w (snd (list_findings runarns filter_input token w)).
Proof.
  unfold list_findings. simpl.
  destruct (list_findings_replies w); split; reflexivity.
Qed.

Lemma pull_loop_files (runarns : pyval) (filter_input : dict) (fuel : nat) :
  forall (nexttoken : pyval) (data : list pyval) (w : world),
  same_files w (snd (pull_loop json_loads fuel runarns filter_input nexttoken data w)).
Proof.
  induction fuel as [|fuel IH]; intros nexttoken data w.
  - apply same_files_refl.
  - rewrite pull_loop_step.
    pose proof (list_findings_files runarns filter_input (token_sent nexttoken) w) as L.
    destruct (list_findings runarns filter_input (token_sent nexttoken) w)
      as [[page|e|] w1]; simpl in L; try exact L.
    pose proof (process_page_files page data w1) as P.
    destruct (process_page json_loads page data w1) as [[data'|e|] w2];
      simpl in P; try (eapply same_files_trans; eassumption).
    destruct (carries_token page).
    + eapply same_files_trans; [exact L|].
      eapply same_files_trans; [exact P | apply IH].
    + eapply same_files_trans; eassumption.
Qed.

Lemma pull_list_finding_files (fuel : nat) (agentids severities runarns : pyval)
  (w : world) :
  same_files w (snd (pull_list_finding json_loads fuel agentids severities runarns w)).
Proof.
  unfold pull_list_finding, bind, ret.
  pose proof (pull_loop_files runarns
                (dict_set (dict_set [] "agentIds" agentids) "severities" severities)
                fuel PNone [] w) as Q.
  destruct (pull_loop json_loads fuel runarns _ PNone [] w) as [[data|e|] w'];
    exact Q.
Qed.

(** [X15] A harvest touches no file. *)
Theorem harvest_touches_no_file (fuel : nat) (agentids severities runarns : pyval)
  (w : world) :
  files (snd (pull_list_finding json_loads fuel agentids severities runarns w)) =
  files w.
Proof. apply pull_list_finding_files. Qed.

(** [X16] What a failing [genearte_report] leaves behind.  An error of the
    harvest reaches the caller before the report file is opened, and an
    error of [open] after the harvest was made: either way the files are
    as they were before, and a report from an earlier run is neither
    emptied nor replaced.  Once the file is open, the first failure among
    the writes, the encoder and the closing reaches the caller, and then
    the report file holds no more than the first characters of the text
    the encoder yielded, whatever it held before; every other file is as
    it was, and no service is called after the harvest. *)
Theorem report_after_failure (fuel : nat)
  (agentids severities runarns : pyval) (reportfile : string) (w : world) :
  (forall e,
     fst (pull_list_finding json_loads fuel agentids severities runarns w) = Raise e ->
     fst (genearte_report json_loads rf fuel agentids severities runarns reportfile w) =
       Raise e /\
     files (snd (genearte_report json_loads rf fuel agentids severities runarns
                   reportfile w)) = files w) /\
  (forall data e,
     fst (pull_list_finding json_loads fuel agentids severities runarns w) = Ok data ->
     open_reply w reportfile = Raise e ->
     fst (genearte_report json_loads rf fuel agentids severities runarns reportfile w) =
       Raise e /\
     files (snd (genearte_report json_loads rf fuel agentids severities runarns
                   reportfile w)) = files w /\
     calls (snd (genearte_report json_loads rf fuel agentids severities runarns
                   reportfile w)) =
     calls (snd (pull_list_finding json_loads fuel agentids severities runarns w))) /\
  (forall data e,
     fst (pull_list_finding json_loads fuel agentids severities runarns w) = Ok data ->
     open_reply w reportfile = Ok tt ->
     (write_reply rf reportfile (fst (Json.iterencode data)) = Raise e \/
      write_reply rf reportfile (fst (Json.iterencode data)) = Ok tt /\
      (snd (Json.iterencode data) = Raise e \/
       snd (Json.iterencode data) = Ok tt /\
       close_reply rf reportfile = Raise e)) ->
     fst (genearte_report json_loads rf fuel agentids severities runarns reportfile w) =
       Raise e /\
     files (snd (genearte_report json_loads rf fuel agentids severities runarns
                   reportfile w)) reportfile =
       Some (take (reached rf reportfile (fst (Json.iterencode data)))
                  (fst (Json.iterencode data))) /\
     (forall path, path <> reportfile ->
        files (snd (genearte_report json_loads rf fuel agentids severities runarns
                      reportfile w)) path = files w path) /\
     calls (snd (genearte_report json_loads rf fuel agentids severities runarns
                   reportfile w)) =
     calls (snd (pull_list_finding json_loads fuel agentids severities runarns w))).
Proof.
  pose proof (pull_list_finding_files fuel agentids severities runarns w) as [F O].
  unfold genearte_report, bind, open_w, json_dump, rf_close, broken_off, ret.
  destruct (pull_list_finding json_loads fuel agentids severities runarns w)
    as [[data|x|] w1]; simpl in *; (split; [|split]); try discriminate.
  - intros data' e [= <-] R. rewrite O, R. simpl. auto.
  - intros data' e [= <-] R C. rewrite O, R. cbn [fst snd].
    assert (Hp : forall content path, path <> reportfile ->
              files (write_file reportfile content
                       (write_file reportfile EmptyString w1)) path =
              files w path).
    { intros content path N. apply String.eqb_neq in N. simpl.
      now rewrite N, F. }
    destruct C as [C | [C [C' | [C' C'']]]].
    + rewrite C. cbn [fst snd]. repeat split; [|now apply Hp].
      simpl. now rewrite String.eqb_refl.
    + rewrite C, C'. cbn [fst snd]. repeat split; [|now apply Hp].
      simpl. now rewrite String.eqb_refl.
    + rewrite C, C', C''. cbn [fst snd]. repeat split; [|now apply Hp].
      simpl. now rewrite String.eqb_refl.
  - intros e [= <-]. auto.
Qed.

(** [X17] When the harvest returns, the report file can be opened, the
    encoder yields its text to the end, and the file object takes the
    writes and the closing, [genearte_report] returns [None], the report
    file holds the text of the encoder, whatever it held before, every
    other file is as it was, and no service is called after the
    harvest. *)
Theorem report_written_alone (fuel : nat)
  (agentids severities runarns : pyval) (reportfile : string) (w : world)
  (data : pyval) :
  fst (pull_list_finding json_loads fuel agentids severities runarns w) = Ok data ->
  open_reply w reportfile = Ok tt ->
  snd (Json.iterencode data) = Ok tt ->
  write_reply rf reportfile (fst (Json.iterencode data)) = Ok tt ->
  close_reply rf reportfile = Ok tt ->
  fst (genearte_report json_loads rf fuel agentids severities runarns reportfile w) =
    Ok PNone /\
  files (snd (genearte_report json_loads rf fuel agentids severities runarns
                reportfile w)) reportfile = Some (fst (Json.iterencode data)) /\
  (forall path, path <> reportfile ->
     files (snd (genearte_report json_loads rf fuel agentids severities runarns
                   reportfile w)) path = files w path) /\
  calls (snd (genearte_report json_loads rf fuel agentids severities runarns
                reportfile w)) =
  calls (snd (pull_list_finding json_loads fuel agentids severities runarns w)).
Proof.
  pose proof (pull_list_finding_files fuel agentids severities runarns w) as [F O].
  unfold genearte_report, bind, open_w, json_dump, rf_close, ret.
  destruct (pull_list_finding json_loads fuel agentids severities runarns w)
    as [[data'|x|] w1]; simpl in *; intros [= <-] R E WR CL.
  rewrite O, R. cbn [fst snd]. rewrite WR, E, CL. simpl. repeat split.
  - now rewrite String.eqb_refl.
  - intros path N. apply String.eqb_neq in N. now rewrite N, F.
Qed.

End ReportExtras.

Lemma for_events_refused (before after : list string) (event : string)
  (templatearn topicarn : pyval) (e : exn) :
  forall w : world,
  (forall b, In b before ->
     exists d, subscribe_to_event_reply w templatearn b topicarn = Ok d) ->
  subscribe_to_event_reply w templatearn event topicarn = Raise e ->
  exists w',
    for_events (before ++ event :: after)%list templatearn topicarn w =
      (Raise e, w') /\
    calls w' =
      (calls w ++ map (fun ev => subscribe_to_event_call templatearn ev topicarn)
                      (before ++ [event]))%list.
Proof.
  induction before as [|b before IH]; intros w H R.
  - simpl. unfold bind, inspector_subscribe_to_event. rewrite R.
    eexists. split; reflexivity.
  - rewrite <- app_comm_cons. cbn [for_events].
    unfold bind, inspector_subscribe_to_event.
    destruct (H b (or_introl eq_refl)) as [d Hd]. rewrite Hd.
    destruct (IH (log_call (subscribe_to_event_call templatearn b topicarn) w))
      as (w' & E & C).
    + intros b' Hb'. simpl. apply H. now right.
    + exact R.
    + exists w'. split; [exact E|]. rewrite C. simpl. now rewrite <- app_assoc.
Qed.

(** [X18] When the service refuses one of the three subscriptions,
    [subscribe_to_event] raises the error of the service at once: the
    subscriptions made before the refused one stay, the ones after it are
    not asked for. *)
Theorem subscribe_to_event_refused (templatearn topicarn : pyval) (w : world)
  (before after : list string) (event : string) (e : exn) :
  events = (before ++ event :: after)%list ->
  (forall b, In b before ->
     exists d, subscribe_to_event_reply w templatearn b topicarn = Ok d) ->
  subscribe_to_event_reply w templatearn event topicarn = Raise e ->
  exists w',
    subscribe_to_event templatearn topicarn w = (Raise e, w') /\
    calls w' =
      (calls w ++ map (fun ev => subscribe_to_event_call templatearn ev topicarn)
                      (before ++ [event]))%list.
Proof.
  intros E H R.
  destruct (for_events_refused before after event templatearn topicarn e w H R)
    as (w' & F & C).
  exists w'. split; [|exact C].
  unfold subscribe_to_event, bind, ret. now rewrite E, F.
Qed.

(** ** The further properties at work on the samples *)

Lemma create_assessment_target_flow_witness :
  exists a',
    create_assessment_target (PStr "target") (PStr "scan-1") None sample_account =
      (Ok (dict_get [("assessmentTargetArn", PStr "arn:target/1")]
                    "assessmentTargetArn"), a') /\
    setup_calls a' =
      (setup_calls sample_account ++
       [create_resource_group_call (group_tags (PStr "scan-1") None);
        create_assessment_target_call (PStr "target")
          (dict_get [("resourceGroupArn", PStr "arn:group/1")] "resourceGroupArn")])%list.
Proof.
  apply (create_assessment_target_flow (PStr "target") (PStr "scan-1") None
           sample_account [("resourceGroupArn", PStr "arn:group/1")]
           [("assessmentTargetArn", PStr "arn:target/1")]); reflexivity.
Defined.

Lemma create_assessment_target_failures_witness :
  exists a',
    create_assessment_target (PStr "target") (PStr "scan-1") None groups_only_account =
      (Raise (ClientError "AccessDenied"), a') /\
    setup_calls a' =
      (setup_calls groups_only_account ++
       [create_resource_group_call (group_tags (PStr "scan-1") None);
        create_assessment_target_call (PStr "target")
          (dict_get [("resourceGroupArn", PStr "arn:group/1")] "resourceGroupArn")])%list.
Proof.
  apply (proj2 (create_assessment_target_failures (PStr "target") (PStr "scan-1")
                  None groups_only_account)
           [("resourceGroupArn", PStr "arn:group/1")] (ClientError "AccessDenied"));
    reflexivity.
Defined.

Lemma for_findings_records_witness :
  exists records,
    first_sample_records = ([] ++ records)%list /\
    Forall2 (fun finding record =>
               exists d id, finding = PDict d /\ dict_get d "id" = PStr id /\
                            record_of d id record)
            first_sample_findings records /\
    calls (snd (for_findings Json.loads first_sample_findings [] (sample_world []))) =
      (calls (sample_world []) ++ cve_requests first_sample_findings)%list.
Proof.
  apply (for_findings_records Json.loads first_sample_findings []
           first_sample_records (sample_world [])
           (snd (for_findings Json.loads first_sample_findings [] (sample_world [])))).
  vm_compute. reflexivity.
Defined.

Lemma finding_record_errors_witness :
  finding_record Json.loads (PDict nameless_fields) (sample_world []) =
    (Raise TypeError, sample_world []).
Proof.
  apply (proj1 (proj2 (proj2 (finding_record_errors Json.loads (sample_world []))))
           nameless_fields).
  - reflexivity.
  - intros id. vm_compute. discriminate.
Defined.

Lemma finding_record_feeds_witness :
  (forall feeds,
     status_code (mkResponse 404 "not found") = 200%Z ->
     Json.loads (text (mkResponse 404 "not found")) = Ok feeds ->
     finding_record Json.loads (PDict (sample_fields "CVE-1999-0021" "three"))
                    (sample_world []) =
       (Ok (PDict [("id", PStr "CVE-1999-0021");
                   ("report", PDict (report_of (sample_fields "CVE-1999-0021" "three")));
                   ("feeds", feeds)]),
        log_call (requests_get_call (feed_url "CVE-1999-0021")) (sample_world []))) /\
  (status_code (mkResponse 404 "not found") <> 200%Z ->
   finding_record Json.loads (PDict (sample_fields "CVE-1999-0021" "three"))
                  (sample_world []) =
     (Ok (PDict [("id", PStr "CVE-1999-0021");
                 ("report", PDict (report_of (sample_fields "CVE-1999-0021" "three")));
                 ("feeds", PNone)]),
      log_call (requests_get_call (feed_url "CVE-1999-0021")) (sample_world []))).
Proof.
  apply (finding_record_feeds Json.loads (sample_fields "CVE-1999-0021" "three")
           "CVE-1999-0021" (mkResponse 404 "not found") (sample_world []));
    reflexivity.
Defined.

Lemma get_feeds_not_a_string_witness :
  get_feeds Json.loads PNone (sample_world []) = (Raise TypeError, sample_world []).
Proof.
  apply (get_feeds_not_a_string Json.loads PNone (sample_world [])).
  intros s. discriminate.
Defined.

Lemma harvest_stops_at_failing_page_witness :
  exists w' issued,
    pull_list_finding Json.loads 5 (PList []) (PList []) (PList [PStr "run"])
      (offline_world [sample_page "a3" "t3"; sample_page "a1" "t1"; last_page "a2"]) =
      (Raise ConnectionError, w') /\
    list_findings_replies w' = [Ok (last_page "a2")] /\
    calls w' =
      (calls (offline_world [sample_page "a3" "t3"; sample_page "a1" "t1";
                             last_page "a2"]) ++ issued)%list /\
    length (list_calls issued) = S (length [sample_page "a3" "t3"]).
Proof.
  apply (harvest_stops_at_failing_page Json.loads 5 (PList []) (PList [])
           (PList [PStr "run"])
           (offline_world [sample_page "a3" "t3"; sample_page "a1" "t1"; last_page "a2"])
           [sample_page "a3" "t3"] [[]] (sample_page "a1" "t1")
           [Ok (last_page "a2")] ConnectionError).
  - reflexivity.
  - repeat constructor.
  - repeat constructor.
  - vm_compute. reflexivity.
  - simpl. lia.
Defined.

Lemma harvest_stops_at_failing_finding_witness :
  exists w',
    pull_list_finding Json.loads 5 (PList []) (PList []) (PList [PStr "run"])
      (sample_world [sample_page "a3" "t3"; last_page "bad"]) =
      (Raise (KeyError "description"), w').
Proof.
  apply (harvest_stops_at_failing_finding Json.loads 5 (PList []) (PList [])
           (PList [PStr "run"])
           (sample_world [sample_page "a3" "t3"; last_page "bad"])
           [sample_page "a3" "t3"] [[]] (last_page "bad")
           [("findings", PList [sample_finding "rule-8" "four";
                                PDict [("id", PStr "rule-9"); ("title", PStr "five")]])]
           []
           [sample_finding "rule-8" "four"] []
           (PDict [("id", PStr "rule-9"); ("title", PStr "five")])
           [PDict [("id", PStr "rule-8"); ("report", sample_report "four")]]
           (KeyError "description")).
  - reflexivity.
  - repeat constructor.
  - repeat constructor.
  - reflexivity.
  - reflexivity.
  - vm_compute. reflexivity.
  - vm_compute. reflexivity.
  - simpl. lia.
Defined.

Lemma harvest_describe_failures_witness :
  exists w',
    pull_list_finding Json.loads 2 (PList []) (PList []) (PList [PStr "run"])
      (sample_world [sample_page "unknown" "t"]) =
      (Raise (ClientError "describe_findings"), w').
Proof.
  apply (proj1 (harvest_describe_failures Json.loads 2 (PList []) (PList [])
                  (PList [PStr "run"]) (sample_world [sample_page "unknown" "t"])
                  [] [] (sample_page "unknown" "t") []
                  eq_refl (Forall_nil _) (Forall2_nil _) (Nat.lt_0_succ 1))).
  reflexivity.
Defined.

Lemma harvest_list_findings_error_witness :
  exists w',
    pull_list_finding Json.loads 4 (PList []) (PList []) (PList [PStr "run"])
      throttled_world = (Raise (ClientError "Throttling"), w') /\
    list_findings_replies w' = [].
Proof.
  apply (harvest_list_findings_error Json.loads 4 (PList []) (PList [])
           (PList [PStr "run"]) throttled_world
           [sample_page "a1" "t1"] [first_sample_records] []
           (ClientError "Throttling")).
  - reflexivity.
  - repeat constructor.
  - constructor; [vm_compute; reflexivity | constructor].
  - simpl. lia.
Defined.

Lemma report_after_failure_witness :
  (fst (genearte_report Json.loads steady_file 3 (PList []) (PList [])
          (PList [PStr "run"]) "report.json" (read_only_world sample_pages)) =
     Raise IOError /\
   files (snd (genearte_report Json.loads steady_file 3 (PList []) (PList [])
                 (PList [PStr "run"]) "report.json" (read_only_world sample_pages))) =
     files (read_only_world sample_pages) /\
   calls (snd (genearte_report Json.loads steady_file 3 (PList []) (PList [])
                 (PList [PStr "run"]) "report.json" (read_only_world sample_pages))) =
   calls (snd (pull_list_finding Json.loads 3 (PList []) (PList []) (PList [PStr "run"])
                 (read_only_world sample_pages)))) /\
  (fst (genearte_report Json.loads steady_file 1 (PList []) (PList [])
          (PList [PStr "run"]) "report.json" long_title_world) = Raise ValueError /\
   files (snd (genearte_report Json.loads steady_file 1 (PList []) (PList [])
                 (PList [PStr "run"]) "report.json" long_title_world))
         "report.json" =
     Some (take (reached steady_file "report.json"
                   (fst (Json.iterencode (PList long_title_records))))
                (fst (Json.iterencode (PList long_title_records)))) /\
   (forall path, path <> "report.json" ->
      files (snd (genearte_report Json.loads steady_file 1 (PList []) (PList [])
                    (PList [PStr "run"]) "report.json" long_title_world)) path =
      files long_title_world path) /\
   calls (snd (genearte_report Json.loads steady_file 1 (PList []) (PList [])
                 (PList [PStr "run"]) "report.json" long_title_world)) =
   calls (snd (pull_list_finding Json.loads 1 (PList []) (PList [])
                 (PList [PStr "run"]) long_title_world))).
Proof.
  split.
  - apply (proj1 (proj2 (report_after_failure Json.loads steady_file 3 (PList [])
                           (PList []) (PList [PStr "run"]) "report.json"
                           (read_only_world sample_pages)))
             (PList (concat sample_records)) IOError).
    + vm_compute. reflexivity.
    + reflexivity.
  - apply (proj2 (proj2 (report_after_failure Json.loads steady_file 1 (PList [])
                           (PList []) (PList [PStr "run"]) "report.json"
                           long_title_world))
             (PList long_title_records) ValueError).
    + vm_compute. reflexivity.
    + reflexivity.
    + right. split; [reflexivity|]. left. vm_compute. reflexivity.
Defined.

Lemma report_written_alone_witness :
  fst (genearte_report Json.loads steady_file 3 (PList []) (PList [])
         (PList [PStr "run"]) "report.json" (sample_world sample_pages)) =
    Ok PNone /\
  files (snd (genearte_report Json.loads steady_file 3 (PList []) (PList [])
                (PList [PStr "run"]) "report.json" (sample_world sample_pages)))
        "report.json" =
    Some (fst (Json.iterencode (PList (concat sample_records)))) /\
  (forall path, path <> "report.json" ->
     files (snd (genearte_report Json.loads steady_file 3 (PList []) (PList [])
                   (PList [PStr "run"]) "report.json" (sample_world sample_pages)))
           path =
     files (sample_world sample_pages) path) /\
  calls (snd (genearte_report Json.loads steady_file 3 (PList []) (PList [])
                (PList [PStr "run"]) "report.json" (sample_world sample_pages))) =
  calls (snd (pull_list_finding Json.loads 3 (PList []) (PList []) (PList [PStr "run"])
                (sample_world sample_pages))).
Proof.
  apply (report_written_alone Json.loads steady_file 3 (PList []) (PList [])
           (PList [PStr "run"]) "report.json" (sample_world sample_pages)
           (PList (concat sample_records))).
  - vm_compute. reflexivity.
  - reflexivity.
  - vm_compute. reflexivity.
  - reflexivity.
  - reflexivity.
Defined.

Lemma subscribe_to_event_refused_witness :
  exists w',
    subscribe_to_event (PStr "template") (PStr "topic") one_event_world =
      (Raise (ClientError "LimitExceeded"), w') /\
    calls w' =
      (calls one_event_world ++
       map (fun ev => subscribe_to_event_call (PStr "template") ev (PStr "topic"))
           (["ASSESSMENT_RUN_STARTED"] ++ ["ASSESSMENT_RUN_COMPLETED"]))%list.
Proof.
  apply (subscribe_to_event_refused (PStr "template") (PStr "topic") one_event_world
           ["ASSESSMENT_RUN_STARTED"] ["ASSESSMENT_RUN_STATE_CHANGED"]
           "ASSESSMENT_RUN_COMPLETED" (ClientError "LimitExceeded")).
  - reflexivity.
  - intros b [<- | []]. exists []. reflexivity.
  - reflexivity.
Defined.

